(** * The "fancy" debounce and anti-ghost engine (quantum/debounce/fancy.c)

    A shallow embedding of the per-key debouncer: the elapsed-time source,
    the ghost detector, the per-cell three-state machine and the matrix
    sweep, over an explicit model of the file's static variables and of the
    two heap blocks it owns.  Undefined behaviour of the C program (an
    access outside a live block, a [free] of a pointer that is not live) is
    the result [None].

    Integers are [Z] with the conversions to the C types written out;
    loop counters and array indices, which never wrap, are [nat].  The
    caller's arrays [raw] and [cooked] are lists of row words.
    [log_transition] and [get_time] do nothing in the program as compiled
    (their bodies are under [#if 0]) and are left out. *)

From Stdlib Require Import ZArith Lia Bool.
From stdpp Require Import base option list gmap.

Local Open Scope Z_scope.

(** ** Configuration

    The macros that fancy.c reads.  [MATRIX_COLS], the width of
    [matrix_row_t] and the width of [fast_timer_t] come from headers
    (matrix.h, timer.h) and are parameters here; the [DEBOUNCE_*] macros
    have their defaults in fancy.c itself. *)

Record config := Config {
  MATRIX_COLS : nat;          (* number of columns of the key matrix *)
  ROW_BITS : Z;               (* width of matrix_row_t: 8, 16 or 32 *)
  TIMER_BITS : Z;             (* width of fast_timer_t: 16 or 32 *)
  DEBOUNCE_USE_FRAMES : bool; (* count scan frames instead of milliseconds *)
  DEBOUNCE_DOWN : Z;          (* press threshold *)
  DEBOUNCE_UP : Z;            (* release threshold *)
  DEBOUNCE_QUIESCE : Z        (* quiescence after an accepted change *)
}.

(** A configuration a keyboard can have: the columns fit a row word, and
    the three durations fit the 8-bit counter they are stored in. *)
Record config_ok (cfg : config) : Prop := ConfigOk {
  cols_fit : Z.of_nat (MATRIX_COLS cfg) <= ROW_BITS cfg;
  timer_width : 0 < TIMER_BITS cfg;
  down_u8 : 0 <= DEBOUNCE_DOWN cfg <= 255;
  up_u8 : 0 <= DEBOUNCE_UP cfg <= 255;
  quiesce_u8 : 0 <= DEBOUNCE_QUIESCE cfg <= 255
}.

(** The defaults of fancy.c ([DEBOUNCE] 5, [DEBOUNCE_QUIESCE] 30,
    milliseconds) on a ten-column matrix with 16-bit rows and timer. *)
Definition default_config : config :=
  {| MATRIX_COLS := 10; ROW_BITS := 16; TIMER_BITS := 16;
     DEBOUNCE_USE_FRAMES := false;
     DEBOUNCE_DOWN := 5; DEBOUNCE_UP := 5; DEBOUNCE_QUIESCE := 30 |}.

(** ** Machine integers *)

(** Conversion to [uint8_t]. *)
Definition u8 (x : Z) : Z := x mod 256.

(** Conversion to an unsigned type of [w] bits. *)
Definition wrap (w x : Z) : Z := x mod 2 ^ w.

(** ** Per-key state

    The anonymous enum of fancy.c.  The [state] field is a [uint8_t] that
    only ever receives these three constants; the zero byte that [calloc]
    leaves is [WAITING]. *)

Inductive state_t := WAITING | DEBOUNCING | QUIESCING.

Record key_state_t := KeyState {
  state : state_t;
  remaining : Z   (* uint8_t: debounce milliseconds remaining *)
}.

(** ** Memory

    The file owns two [calloc]ed blocks: the [uint8_t] array behind
    [multiple_in_row] and the [key_state_t] array behind [key_states].  The
    heap maps the address of every live block to its contents; [None] is the
    null pointer. *)

Inductive block :=
  | Bytes (a : list Z)
  | KeyStates (a : list key_state_t).

Record globals := Globals {
  last_time_initialized : bool;
  last_time : Z;
  multiple_in_row : option positive;
  down_in_col : list Z;
  key_states : option positive;
  heap : gmap positive block
}.

(** The program before any call: C zero-initialises statics. *)
Definition boot (cfg : config) : globals :=
  {| last_time_initialized := false; last_time := 0;
     multiple_in_row := None;
     down_in_col := replicate (MATRIX_COLS cfg) 0;
     key_states := None;
     heap := ∅ |}.

Definition set_timer (b : bool) (t : Z) (g : globals) : globals :=
  {| last_time_initialized := b; last_time := t;
     multiple_in_row := multiple_in_row g; down_in_col := down_in_col g;
     key_states := key_states g; heap := heap g |}.

Definition set_multiple_in_row (p : option positive) (g : globals) : globals :=
  {| last_time_initialized := last_time_initialized g; last_time := last_time g;
     multiple_in_row := p; down_in_col := down_in_col g;
     key_states := key_states g; heap := heap g |}.

Definition set_down_in_col (d : list Z) (g : globals) : globals :=
  {| last_time_initialized := last_time_initialized g; last_time := last_time g;
     multiple_in_row := multiple_in_row g; down_in_col := d;
     key_states := key_states g; heap := heap g |}.

Definition set_key_states (p : option positive) (g : globals) : globals :=
  {| last_time_initialized := last_time_initialized g; last_time := last_time g;
     multiple_in_row := multiple_in_row g; down_in_col := down_in_col g;
     key_states := p; heap := heap g |}.

Definition set_heap (h : gmap positive block) (g : globals) : globals :=
  {| last_time_initialized := last_time_initialized g; last_time := last_time g;
     multiple_in_row := multiple_in_row g; down_in_col := down_in_col g;
     key_states := key_states g; heap := h |}.

(** [calloc]: a fresh address holding the zero-filled block.  Allocation
    always succeeds here, also for a size of zero. *)
Definition calloc (b : block) (h : gmap positive block) : positive * gmap positive block :=
  let a := fresh (dom h) in (a, <[a := b]> h).

(** [free]: nothing on the null pointer, the block is released when it is
    live, and undefined behaviour otherwise (a dangling pointer). *)
Definition free (p : option positive) (h : gmap positive block) : option (gmap positive block) :=
  match p with
  | None => Some h
  | Some a => match h !! a with
              | Some _ => Some (delete a h)
              | None => None
              end
  end.

(** A local pointer into a block: base address and element offset. *)
Definition pointer : Type := option positive * nat.

Definition load_byte (h : gmap positive block) (p : pointer) : option Z :=
  a ← p.1;
  b ← h !! a;
  match b with Bytes l => l !! p.2 | KeyStates _ => None end.

Definition store_byte (h : gmap positive block) (p : pointer) (v : Z) : option (gmap positive block) :=
  a ← p.1;
  b ← h !! a;
  match b with
  | Bytes l => if decide (p.2 < length l)%nat then Some (<[a := Bytes (<[p.2 := v]> l)]> h) else None
  | KeyStates _ => None
  end.

Definition load_key (h : gmap positive block) (p : pointer) : option key_state_t :=
  a ← p.1;
  b ← h !! a;
  match b with KeyStates l => l !! p.2 | Bytes _ => None end.

Definition store_key (h : gmap positive block) (p : pointer) (k : key_state_t) : option (gmap positive block) :=
  a ← p.1;
  b ← h !! a;
  match b with
  | KeyStates l => if decide (p.2 < length l)%nat then Some (<[a := KeyStates (<[p.2 := k]> l)]> h) else None
  | Bytes _ => None
  end.

Definition next (p : pointer) : pointer := (p.1, S p.2).

Section Fancy.

Variable cfg : config.

(** ** Timer *)

(** Modelled from the spec: the macro [TIMER_DIFF_FAST] of timer.h, which is
    not part of the sources at hand; the spec calls it the wraparound-safe
    difference between now and the last recorded timestamp, here the
    difference modulo the width of [fast_timer_t]. *)
Definition TIMER_DIFF_FAST (a b : Z) : Z := wrap (TIMER_BITS cfg) (a - b).

Definition time_init (g : globals) : globals :=
  if DEBOUNCE_USE_FRAMES cfg then g
  else set_timer false (last_time g) g.

Definition time_free (g : globals) : globals :=
  if DEBOUNCE_USE_FRAMES cfg then g
  else set_timer false (last_time g) g.

(** [now] is what [timer_read_fast()] returns during this call. *)
Definition get_elapsed (now : Z) (g : globals) : Z * globals :=
  if DEBOUNCE_USE_FRAMES cfg then (1, g)
  else if negb (last_time_initialized g) then
    (1, set_timer true now g)
  else
    let elapsed_time := TIMER_DIFF_FAST now (last_time g) in
    (if 255 <? elapsed_time then 255 else elapsed_time, set_timer true now g).

(** ** Anti-ghost counts *)

Definition ghost_init (num_rows : nat) (g : globals) : globals :=
  let '(a, h) := calloc (Bytes (replicate num_rows 0)) (heap g) in
  set_heap h (set_multiple_in_row (Some a) g).

Definition ghost_free (g : globals) : option globals :=
  h ← free (multiple_in_row g) (heap g);
  Some (set_heap h g).

(** The first loop of [ghost_compute]: [down_in_col[r] = 0] for the [todo]
    indices from [r] on. *)
Fixpoint ghost_clear (todo r : nat) (d : list Z) : option (list Z) :=
  match todo with
  | O => Some d
  | S todo' =>
      if decide (r < length d)%nat then ghost_clear todo' (S r) (<[r := 0]> d)
      else None
  end.

(** The inner loop of [ghost_compute]: one row's bits added to the column
    counts. *)
Fixpoint ghost_cols (todo col : nat) (row : Z) (d : list Z) : option (list Z) :=
  match todo with
  | O => Some d
  | S todo' =>
      d' ← (if Z.land row 1 =? 0 then Some d
            else n ← d !! col; Some (<[col := u8 (n + 1)]> d));
      ghost_cols todo' (S col) (Z.shiftr row 1) d'
  end.

(** The [while (num_rows--)] loop of [ghost_compute]; [i] is how far [raw]
    has advanced and [mrp] the moving pointer into [multiple_in_row]. *)
Fixpoint ghost_rows (raw : list Z) (todo i : nat) (mrp : pointer) (g : globals) : option globals :=
  match todo with
  | O => Some g
  | S todo' =>
      row ← raw !! i;
      if row =? 0 then
        h ← store_byte (heap g) mrp 0;
        ghost_rows raw todo' (S i) (next mrp) (set_heap h g)
      else
        let multiple := if Z.land row (row - 1) =? 0 then 0 else 1 in
        d ← ghost_cols (MATRIX_COLS cfg) 0 row (down_in_col g);
        h ← store_byte (heap g) mrp multiple;
        ghost_rows raw todo' (S i) (next mrp) (set_heap h (set_down_in_col d g))
  end.

Definition ghost_compute (raw : list Z) (num_rows : nat) (g : globals) : option globals :=
  let mrp : pointer := (multiple_in_row g, O) in
  d ← ghost_clear (MATRIX_COLS cfg) 0 (down_in_col g);
  ghost_rows raw num_rows 0 mrp (set_down_in_col d g).

(** [multiple_in_row[r] && down_in_col[c] > 1]; the right operand is read
    only when the left one is nonzero. *)
Definition multiple_in_row_and_col (g : globals) (r c : nat) : option bool :=
  m ← load_byte (heap g) (multiple_in_row g, r);
  if m =? 0 then Some false
  else n ← down_in_col g !! c; Some (1 <? n).

(** ** Debounce state *)

(** The [switch (p->state)] of [debounce] for the key [k] that [p] points
    to, together with the local [cooked_row]. *)
Definition key_step (raw_row delta col_mask elapsed : Z)
    (k : key_state_t) (cooked_row : Z) : key_state_t * Z :=
  match state k with
  | WAITING =>
      if Z.land delta col_mask =? 0 then (k, cooked_row)
      else
        (KeyState DEBOUNCING
           (u8 (if Z.land raw_row col_mask =? 0
                then DEBOUNCE_UP cfg else DEBOUNCE_DOWN cfg)),
         cooked_row)
  | DEBOUNCING =>
      if Z.land delta col_mask =? 0 then
        (* Detected bounce -- back to waiting. *)
        (KeyState WAITING (remaining k), cooked_row)
      else if elapsed <? remaining k then
        (KeyState DEBOUNCING (u8 (remaining k - elapsed)), cooked_row)
      else
        (KeyState QUIESCING (u8 (DEBOUNCE_QUIESCE cfg)),
         Z.lxor cooked_row col_mask)
  | QUIESCING =>
      if elapsed <? remaining k then
        (KeyState QUIESCING (u8 (remaining k - elapsed)), cooked_row)
      else
        (KeyState WAITING (remaining k), cooked_row)
  end.

(** The column loop of [debounce] for row [r]: [todo] columns from [col]
    on, with the moving [col_mask] and key pointer [p]. *)
Fixpoint debounce_cols (r : nat) (raw_row delta elapsed : Z)
    (todo col : nat) (col_mask : Z) (p : pointer)
    (g : globals) (cooked_row : Z) : option (pointer * globals * Z) :=
  match todo with
  | O => Some (p, g, cooked_row)
  | S todo' =>
      ghost ← multiple_in_row_and_col g r col;
      if ghost : bool then
        (* Possible ghost, ignore any debouncing logic this time around. *)
        debounce_cols r raw_row delta elapsed todo' (S col)
          (wrap (ROW_BITS cfg) (Z.shiftl col_mask 1)) (next p) g cooked_row
      else
        k ← load_key (heap g) p;
        let '(k', cooked_row') := key_step raw_row delta col_mask elapsed k cooked_row in
        h ← store_key (heap g) p k';
        debounce_cols r raw_row delta elapsed todo' (S col)
          (wrap (ROW_BITS cfg) (Z.shiftl col_mask 1)) (next p)
          (set_heap h g) cooked_row'
  end.

(** The row loop of [debounce]. *)
Fixpoint debounce_rows (raw : list Z) (elapsed : Z) (todo r : nat) (p : pointer)
    (g : globals) (cooked : list Z) : option (globals * list Z) :=
  match todo with
  | O => Some (g, cooked)
  | S todo' =>
      raw_row ← raw !! r;
      cooked_row ← cooked !! r;
      let delta := Z.lxor cooked_row raw_row in
      '(p', g', cooked_row') ←
        debounce_cols r raw_row delta elapsed (MATRIX_COLS cfg) 0 1 p g cooked_row;
      debounce_rows raw elapsed todo' (S r) p' g' (<[r := cooked_row']> cooked)
  end.

(** The two loops of [debounce_init]: [p->state = WAITING] for every key,
    [p] moving over the block. *)
Fixpoint init_cols (todo : nat) (p : pointer) (g : globals) : option (pointer * globals) :=
  match todo with
  | O => Some (p, g)
  | S todo' =>
      k ← load_key (heap g) p;
      h ← store_key (heap g) p (KeyState WAITING (remaining k));
      init_cols todo' (next p) (set_heap h g)
  end.

Fixpoint init_rows (todo : nat) (p : pointer) (g : globals) : option globals :=
  match todo with
  | O => Some g
  | S todo' =>
      '(p', g') ← init_cols (MATRIX_COLS cfg) p g;
      init_rows todo' p' g'
  end.

(** We use [num_rows] rather than MATRIX_ROWS to support split keyboards. *)
Definition debounce_init (num_rows : nat) (g : globals) : option globals :=
  let g := time_init g in
  let g := ghost_init num_rows g in
  let '(a, h) :=
    calloc (KeyStates (replicate (num_rows * MATRIX_COLS cfg) (KeyState WAITING 0)))
           (heap g) in
  let g := set_heap h (set_key_states (Some a) g) in
  init_rows num_rows (key_states g, O) g.

Definition debounce_free (g : globals) : option globals :=
  h ← free (key_states g) (heap g);
  let g := set_key_states None (set_heap h g) in
  g ← ghost_free g;
  Some (time_free g).

Definition debounce (now : Z) (raw cooked : list Z) (num_rows : nat)
    (changed : bool) (g : globals) : option (globals * list Z) :=
  let '(e, g) := get_elapsed now g in
  let elapsed := u8 e in
  g ← (if changed then ghost_compute raw num_rows g else Some g);
  debounce_rows raw elapsed num_rows 0 (key_states g, O) g cooked.

Definition debounce_active : bool := true.

(** ** The state machine in the words of the specification

    One cell, one cycle, on the cell's raw and cooked bits: the three-state
    automaton of the specification, with exact (unbounded) arithmetic. *)
Definition fsm_step (raw_bit cooked_bit : bool) (elapsed : Z)
    (k : key_state_t) : key_state_t * bool :=
  let delta := xorb raw_bit cooked_bit in
  match state k with
  | WAITING =>
      if delta then
        (KeyState DEBOUNCING (if raw_bit then DEBOUNCE_DOWN cfg else DEBOUNCE_UP cfg),
         cooked_bit)
      else (k, cooked_bit)
  | DEBOUNCING =>
      if negb delta then (KeyState WAITING (remaining k), cooked_bit)
      else if elapsed <? remaining k then
        (KeyState DEBOUNCING (remaining k - elapsed), cooked_bit)
      else (KeyState QUIESCING (DEBOUNCE_QUIESCE cfg), raw_bit)
  | QUIESCING =>
      if elapsed <? remaining k then
        (KeyState QUIESCING (remaining k - elapsed), cooked_bit)
      else (KeyState WAITING (remaining k), cooked_bit)
  end.

(** A cell the ghost detector marks is left alone; any other cell takes one
    step of the automaton. *)
Definition cell_step (ghost raw_bit cooked_bit : bool) (elapsed : Z)
    (k : key_state_t) : key_state_t * bool :=
  if ghost then (k, cooked_bit) else fsm_step raw_bit cooked_bit elapsed k.

End Fancy.

(** ** Reading the program state *)

Global Instance key_state_inhabited : Inhabited key_state_t :=
  populate (KeyState WAITING 0).

(** The contents of the block behind [key_states]. *)
Definition keys_of (g : globals) : list key_state_t :=
  match key_states g ≫= (heap g !!.) with
  | Some (KeyStates l) => l
  | _ => []
  end.

(** The contents of the block behind [multiple_in_row]. *)
Definition flags_of (g : globals) : list Z :=
  match multiple_in_row g ≫= (heap g !!.) with
  | Some (Bytes l) => l
  | _ => []
  end.

(** Every 8-bit counter holds a [uint8_t] value. *)
Abbreviation counters_ok := (Forall (λ k : key_state_t, 0 <= remaining k <= 255)).

(** The state of the key at row [r], column [c]. *)
Definition key_at (cfg : config) (g : globals) (r c : nat) : key_state_t :=
  keys_of g !!! (r * MATRIX_COLS cfg + c)%nat.

(** Bit [c] of row [r] of a grid. *)
Definition bit_at (grid : list Z) (r c : nat) : bool :=
  Z.testbit (grid !!! r) (Z.of_nat c).

(** The state between [debounce_init] and [debounce_free] for a matrix of
    [num_rows] rows: both blocks are live and of the right size, the
    counters hold [uint8_t] values, and the rows fit a [uint8_t] count. *)
Record wf (cfg : config) (num_rows : nat) (g : globals) : Prop := Wf {
  wf_rows : (num_rows <= 255)%nat;
  wf_flags : ∃ a, multiple_in_row g = Some a ∧ heap g !! a = Some (Bytes (flags_of g));
  wf_flags_len : length (flags_of g) = num_rows;
  wf_keys : ∃ a, key_states g = Some a ∧ heap g !! a = Some (KeyStates (keys_of g));
  wf_keys_len : length (keys_of g) = (num_rows * MATRIX_COLS cfg)%nat;
  wf_remaining : counters_ok (keys_of g);
  wf_cols : length (down_in_col g) = MATRIX_COLS cfg
}.

(** The program state with the key block at [a] holding [ks]. *)
Definition set_keys (a : positive) (ks : list key_state_t) (g : globals) : globals :=
  set_heap (<[a := KeyStates ks]> (heap g)) g.

(** The program state with the flag block at [a] holding [l]. *)
Definition set_flags (a : positive) (l : list Z) (g : globals) : globals :=
  set_heap (<[a := Bytes l]> (heap g)) g.

(** The program state after the ghost detector wrote flags [l] to the
    block at [a] and counts [d] to [down_in_col]. *)
Definition ghost_state (a : positive) (l d : list Z) (g : globals) : globals :=
  set_flags a l (set_down_in_col d g).

(** What [ghost_compute] stores for a row: [0 != (row & (row - 1))]. *)
Definition flag_of (row : Z) : Z := if Z.land row (row - 1) =? 0 then 0 else 1.

(** The number of rows whose bit [c] is set. *)
Definition down_count (rows : list Z) (c : nat) : Z :=
  Z.of_nat (length (filter (λ row, Z.testbit row (Z.of_nat c) = true) rows)).

(** At least two bits of a row are set. *)
Definition two_bits_set (row : Z) : Prop :=
  ∃ i j, i ≠ j ∧ Z.testbit row i = true ∧ Z.testbit row j = true.

(** The ghost query in the words of the specification:
    [multiple_in_row[row] AND down_in_col[col] > 1]. *)
Definition is_ambiguous (g : globals) (r c : nat) : bool :=
  negb (flags_of g !!! r =? 0) && (1 <? down_in_col g !!! c).

(** The state [debounce_init] leaves: two fresh zero-filled blocks, a
    timer that has not yet been read. *)
Definition init_state (cfg : config) (num_rows : nat) (g : globals) : globals :=
  let a1 := fresh (dom (heap g)) in
  let h1 := <[a1 := Bytes (replicate num_rows 0)]> (heap g) in
  let a2 := fresh (dom h1) in
  {| last_time_initialized := DEBOUNCE_USE_FRAMES cfg && last_time_initialized g;
     last_time := last_time g;
     multiple_in_row := Some a1;
     down_in_col := down_in_col g;
     key_states := Some a2;
     heap := <[a2 := KeyStates (replicate (num_rows * MATRIX_COLS cfg) (KeyState WAITING 0))]> h1 |}.

(** ** Runs *)

(** Successive calls of [debounce] with [changed] false, each with the
    timer value and the raw grid of its cycle. *)
Fixpoint debounce_idle (cfg : config) (calls : list (Z * list Z))
    (cooked : list Z) (num_rows : nat) (g : globals) : option (globals * list Z) :=
  match calls with
  | [] => Some (g, cooked)
  | (now, raw) :: rest =>
      '(g', cooked') ← debounce cfg now raw cooked num_rows false g;
      debounce_idle cfg rest cooked' num_rows g'
  end.

(** What successive calls of [get_elapsed] return, one per timer value. *)
Fixpoint elapsed_trace (cfg : config) (nows : list Z) (g : globals) : list Z :=
  match nows with
  | [] => []
  | now :: rest =>
      let '(e, g') := get_elapsed cfg now g in
      e :: elapsed_trace cfg rest g'
  end.

(** The saturated timestamp differences of a run that last read the timer
    at [last]. *)
Fixpoint saturated_diffs (cfg : config) (last : Z) (nows : list Z) : list Z :=
  match nows with
  | [] => []
  | now :: rest =>
      Z.min 255 (TIMER_DIFF_FAST cfg now last) :: saturated_diffs cfg now rest
  end.

(** The idempotence property as the specification words it: with the raw
    grid unchanged and [changed] false on every call, the cooked grid never
    changes and the ghost tables stay. *)
Definition idle_keeps_cooked (cfg : config) : Prop :=
  ∀ (n : nat) (g g' : globals) (raw cooked cooked' : list Z) (nows : list Z),
    wf cfg n g → length raw = n → length cooked = n →
    debounce_idle cfg ((λ now, (now, raw)) <$> nows) cooked n g = Some (g', cooked') →
    cooked' = cooked
    ∧ flags_of g' = flags_of g ∧ down_in_col g' = down_in_col g.

(** ** The one-key scenario *)

(** A grid of [n] rows in which at most the key of row 0, column 1 is
    down. *)
Definition key01_grid (n : nat) (down : bool) : list Z :=
  <[O := if down then 2 else 0]> (replicate n 0).

(** The key block of a matrix in which every key but that of row 0,
    column 1 is at rest. *)
Definition key01_keys (cfg : config) (n : nat) (k : key_state_t) : list key_state_t :=
  <[1%nat := k]> (replicate (n * MATRIX_COLS cfg) (KeyState WAITING 0)).

(** The one-key matrix between two calls: live, no row flagged, the key
    in state [k], the timer last read at [t]. *)
Definition key01_state (cfg : config) (n : nat) (g : globals)
    (k : key_state_t) (t : Z) : Prop :=
  wf cfg n g ∧ flags_of g = replicate n 0 ∧ keys_of g = key01_keys cfg n k
  ∧ last_time_initialized g = true ∧ last_time g = t.

(** ** Test scenarios

    The scenarios of tests/fancy_tests.cpp: one call of [debounce] per
    event, at the event's time, on the raw grid after the event's inputs,
    with [changed] set when the event has inputs.  The result is the cooked
    grid after each call. *)
Fixpoint run_events (cfg : config) (num_rows : nat)
    (events : list (Z * list Z * bool)) (cooked : list Z) (g : globals)
    : option (list (list Z)) :=
  match events with
  | [] => Some []
  | (now, raw, changed) :: rest =>
      '(g', cooked') ← debounce cfg now raw cooked num_rows changed g;
      outs ← run_events cfg num_rows rest cooked' g';
      Some (cooked' :: outs)
  end.

(** ** Runs with any [changed] flags *)

(** Successive calls of [debounce], each with the timer value, the raw grid
    and the [changed] flag of its cycle. *)
Fixpoint debounce_run (cfg : config) (calls : list (Z * list Z * bool))
    (cooked : list Z) (num_rows : nat) (g : globals) : option (globals * list Z) :=
  match calls with
  | [] => Some (g, cooked)
  | (now, raw, changed) :: rest =>
      '(g', cooked') ← debounce cfg now raw cooked num_rows changed g;
      debounce_run cfg rest cooked' num_rows g'
  end.

(** One cell over several cycles, each with its raw bit and elapsed time,
    under a ghost mark that does not change. *)
Fixpoint cell_run (cfg : config) (ghost : bool) (steps : list (bool * Z))
    (k : key_state_t) (cooked_bit : bool) : key_state_t * bool :=
  match steps with
  | [] => (k, cooked_bit)
  | (raw_bit, elapsed) :: rest =>
      let '(k', cooked_bit') := cell_step cfg ghost raw_bit cooked_bit elapsed k in
      cell_run cfg ghost rest k' cooked_bit'
  end.

(** One cell over several cycles, each with its ghost mark, its raw bit
    and its elapsed time. *)
Fixpoint cell_trace (cfg : config) (steps : list (bool * bool * Z))
    (k : key_state_t) (cooked_bit : bool) : key_state_t * bool :=
  match steps with
  | [] => (k, cooked_bit)
  | (ghost, raw_bit, elapsed) :: rest =>
      let '(k', cooked_bit') := cell_step cfg ghost raw_bit cooked_bit elapsed k in
      cell_trace cfg rest k' cooked_bit'
  end.

(** The sum of a list of durations. *)
Definition total (es : list Z) : Z := foldr Z.add 0 es.

(** The threshold a change towards [raw_bit] has to outlast. *)
Definition threshold (cfg : config) (raw_bit : bool) : Z :=
  if raw_bit then DEBOUNCE_DOWN cfg else DEBOUNCE_UP cfg.

(** No counter exceeds the duration it was loaded with. *)
Definition counters_bounded (cfg : config) (ks : list key_state_t) : Prop :=
  Forall (λ k, match state k with
               | WAITING => True
               | DEBOUNCING => remaining k <= Z.max (DEBOUNCE_DOWN cfg) (DEBOUNCE_UP cfg)
               | QUIESCING => remaining k <= DEBOUNCE_QUIESCE cfg
               end) ks.

(** ** The unused clock of [log_transition]

    [get_time] keeps its own two statics; with logging compiled out nothing
    calls it. *)
Record time_statics := TimeStatics {
  first_time_initialized : bool;
  first_time : Z
}.

(** [now1] is what [timer_read_fast()] returns when the epoch is taken, on
    the first call only; [now2] what it returns for the result. *)
Definition get_time (cfg : config) (now1 now2 : Z) (s : time_statics)
    : Z * time_statics :=
  let s' := if negb (first_time_initialized s) then TimeStatics true now1 else s in
  (wrap (TIMER_BITS cfg) (now2 - first_time s'), s').

(** A state whose flag pointer is null or dangling. *)
Definition flags_dead (g : globals) : Prop :=
  match multiple_in_row g with
  | None => True
  | Some a => heap g !! a = None
  end.

(** * The diagnostic variant (quantum/debounce/debug.c)

    A drop-in replacement for the debouncer that does not debounce: it
    copies the raw grid to the cooked grid and logs every bit that changed
    to a ring buffer, which [debounce_debug] prints.  The printed lines are
    the values handed to [uprintf]. *)

Module DebounceDebug.

(** Conversion to [uint16_t]. *)
Definition u16 (x : Z) : Z := x mod 65536.

Record debounce_event_t := Event {
  now : Z;   (* uint16_t *)
  row : Z;   (* uint8_t: 255 means this entry is unset *)
  col : Z    (* uint8_t: top bit contains whether the event is down or up *)
}.

Global Instance debounce_event_inhabited : Inhabited debounce_event_t :=
  populate (Event 0 255 0).

Record statics := Statics {
  debounce_event_log : list debounce_event_t;  (* [DEBOUNCE_DEBUG_LOG_SIZE] *)
  debounce_event_log_wpos : Z                  (* uint16_t *)
}.

(** What [print_event] hands to [uprintf]: time, row, column, and whether
    the text is "down" or "up". *)
Record line := Line {
  line_now : Z;
  line_row : Z;
  line_col : Z;
  line_down : bool
}.

Section WithSize.

Variable cfg : config.
Variable DEBOUNCE_DEBUG_LOG_SIZE : nat.

Definition record_event (evt : debounce_event_t) (s : statics) : option statics :=
  let wpos := debounce_event_log_wpos s in
  let wpos' :=
    if wpos =? Z.of_nat DEBOUNCE_DEBUG_LOG_SIZE - 1 then 0 else u16 (wpos + 1) in
  if decide (0 <= wpos < Z.of_nat (length (debounce_event_log s))) then
    Some (Statics (<[Z.to_nat wpos := evt]> (debounce_event_log s)) wpos')
  else None.

Definition print_event (evt : debounce_event_t) : list line :=
  if row evt =? 255 then []
  else [Line (now evt) (row evt) (Z.land (col evt) 127)
             (negb (Z.land (col evt) 128 =? 0))].

(** One loop of [debounce_debug]: the [todo] entries from [i] on. *)
Fixpoint print_range (todo i : nat) (log : list debounce_event_t) : option (list line) :=
  match todo with
  | O => Some []
  | S todo' =>
      evt ← log !! i;
      rest ← print_range todo' (S i) log;
      Some (print_event evt ++ rest)
  end.

Definition debounce_debug (s : statics) : option (list line) :=
  let wpos := Z.to_nat (debounce_event_log_wpos s) in
  newer ← print_range (DEBOUNCE_DEBUG_LOG_SIZE - wpos) wpos (debounce_event_log s);
  older ← print_range wpos 0 (debounce_event_log s);
  Some (newer ++ older).

(** [evt.row = 255]: the entry is marked as unset. *)
Definition unset (evt : debounce_event_t) : debounce_event_t :=
  Event (now evt) 255 (col evt).

(** The loop of [debounce_init]: [debounce_event_log[i].row = 255]. *)
Fixpoint init_log (todo i : nat) (log : list debounce_event_t)
    : option (list debounce_event_t) :=
  match todo with
  | O => Some log
  | S todo' =>
      evt ← log !! i;
      init_log todo' (S i) (<[i := unset evt]> log)
  end.

Definition debounce_init (num_rows : nat) (s : statics) : option statics :=
  log ← init_log DEBOUNCE_DEBUG_LOG_SIZE 0 (debounce_event_log s);
  Some (Statics log (debounce_event_log_wpos s)).

(** The column loop of [debounce] for row [i]. *)
Fixpoint debounce_cols (t : Z) (i : nat) (raw_i delta : Z)
    (todo j : nat) (col_mask : Z) (s : statics) : option statics :=
  match todo with
  | O => Some s
  | S todo' =>
      s' ← (if Z.land delta col_mask =? 0 then Some s
            else record_event
                   (Event t (u8 (Z.of_nat i))
                      (u8 (Z.lor (Z.of_nat j)
                             (if Z.land col_mask raw_i =? 0 then 0 else 128))))
                   s);
      debounce_cols t i raw_i delta todo' (S j)
        (wrap (ROW_BITS cfg) (Z.shiftl col_mask 1)) s'
  end.

(** The row loop of [debounce]. *)
Fixpoint debounce_rows (t : Z) (raw : list Z) (todo i : nat)
    (s : statics) (cooked : list Z) : option (statics * list Z) :=
  match todo with
  | O => Some (s, cooked)
  | S todo' =>
      raw_i ← raw !! i;
      cooked_i ← cooked !! i;
      let delta := Z.lxor raw_i cooked_i in
      s' ← debounce_cols t i raw_i delta (MATRIX_COLS cfg) 0 1 s;
      debounce_rows t raw todo' (S i) s' (<[i := raw_i]> cooked)
  end.

(** [t] is what [timer_read()] returns, read only when [changed] is set. *)
Definition debounce (t : Z) (raw cooked : list Z) (num_rows : nat)
    (changed : bool) (s : statics) : option (statics * list Z) :=
  if negb changed then Some (s, cooked)
  else debounce_rows t raw num_rows 0 s cooked.

Definition debounce_active : bool := true.

Definition debounce_free (s : statics) : statics := s.

(** The log between two calls: a full array and a write position inside
    it, with a size that the 16-bit counters can run over. *)
Definition log_ok (s : statics) : Prop :=
  length (debounce_event_log s) = DEBOUNCE_DEBUG_LOG_SIZE
  ∧ 1 <= Z.of_nat DEBOUNCE_DEBUG_LOG_SIZE <= 65535
  ∧ 0 <= debounce_event_log_wpos s < Z.of_nat DEBOUNCE_DEBUG_LOG_SIZE.

End WithSize.

(** The entries of the log from the oldest to the newest. *)
Definition ring (s : statics) : list debounce_event_t :=
  drop (Z.to_nat (debounce_event_log_wpos s)) (debounce_event_log s)
  ++ take (Z.to_nat (debounce_event_log_wpos s)) (debounce_event_log s).

(** Recording a list of events, one after the other. *)
Fixpoint record_events (size : nat) (evts : list debounce_event_t) (s : statics)
    : option statics :=
  match evts with
  | [] => Some s
  | evt :: rest => s' ← record_event size evt s; record_events size rest s'
  end.

(** The line an event stands for. *)
Definition line_of (evt : debounce_event_t) : line :=
  Line (now evt) (row evt) (Z.land (col evt) 127) (negb (Z.land (col evt) 128 =? 0)).

(** The cells of [todo] rows from row [i] on, in row-major order. *)
Definition cells (i todo cols : nat) : list (nat * nat) :=
  r ← seq i todo; (λ c, (r, c)) <$> seq 0 cols.

(** A cell whose raw bit differs from its cooked bit. *)
Definition changed_cell (raw cooked : list Z) (cell : nat * nat) : Prop :=
  bit_at raw cell.1 cell.2 ≠ bit_at cooked cell.1 cell.2.

Global Instance changed_cell_dec raw cooked cell : Decision (changed_cell raw cooked cell) :=
  decide (bit_at raw cell.1 cell.2 ≠ bit_at cooked cell.1 cell.2).

(** The changed cells of a matrix, in row-major order. *)
Definition changes (raw cooked : list Z) (num_rows cols : nat) : list (nat * nat) :=
  filter (changed_cell raw cooked) (cells 0 num_rows cols).

(** The event that stands for a cell of the raw grid at time [t]: the
    column number with the raw bit on top of it. *)
Definition event_of (t : Z) (raw : list Z) (cell : nat * nat) : debounce_event_t :=
  Event t (Z.of_nat cell.1)
        (Z.lor (Z.of_nat cell.2) (if bit_at raw cell.1 cell.2 then 128 else 0)).

(** The line that [debounce_debug] is to print for a cell. *)
Definition line_at (t : Z) (raw : list Z) (cell : nat * nat) : line :=
  Line t (Z.of_nat cell.1) (Z.of_nat cell.2) (bit_at raw cell.1 cell.2).

(** Successive calls of [debounce], each with the timer value, the raw
    grid and the [changed] flag of its cycle. *)
Fixpoint debounce_run (cfg : config) (size : nat) (calls : list (Z * list Z * bool))
    (cooked : list Z) (num_rows : nat) (s : statics) : option (statics * list Z) :=
  match calls with
  | [] => Some (s, cooked)
  | (t, raw, changed) :: rest =>
      '(s', cooked') ← debounce cfg size t raw cooked num_rows changed s;
      debounce_run cfg size rest cooked' num_rows s'
  end.

(** The lines of all the changes that a run of calls sees, in the order of
    the calls and row-major inside a call.  A call sees the difference
    between its raw grid and the raw grid of the last call that had
    [changed] set. *)
Fixpoint change_log (cols num_rows : nat) (calls : list (Z * list Z * bool))
    (cooked : list Z) : list line :=
  match calls with
  | [] => []
  | (t, raw, changed) :: rest =>
      if changed then
        (line_at t raw <$> changes raw cooked num_rows cols)
        ++ change_log cols num_rows rest raw
      else change_log cols num_rows rest cooked
  end.

End DebounceDebug.

(** * Reading a row of the Sculpt matrix (keyboards/handwired/sculpt/matrix.c)

    The scan routine that produces the raw rows.  The pin functions and
    the two delays belong to the platform; a call of one of them is an
    entry of the trace that the routine returns.  The two port registers
    are volatile: the values read from them are arguments. *)

Module Sculpt.

Inductive io :=
  | SetPinOutput (pin : Z)
  | WritePinLow (pin : Z)
  | SetPinInputHigh (pin : Z)
  | OutputSelectDelay
  | OutputUnselectDelay (line : Z) (key_pressed : bool).

Section WithPins.

Variable cfg : config.
Variable row_pins : list Z.   (* [MATRIX_ROWS] *)
Variable NO_PIN : Z.

Definition setPinOutput_writeLow (pin : Z) : list io :=
  [SetPinOutput pin; WritePinLow pin].

Definition setPinInputHigh_atomic (pin : Z) : list io :=
  [SetPinInputHigh pin].

Definition select_row (row : nat) : option (bool * list io) :=
  pin ← row_pins !! row;
  if pin =? NO_PIN then Some (false, [])
  else Some (true, setPinOutput_writeLow pin).

Definition unselect_row (row : nat) : option (list io) :=
  pin ← row_pins !! row;
  if pin =? NO_PIN then Some []
  else Some (setPinInputHigh_atomic pin).

(** [~] works on the promoted [int]; the store converts to
    [matrix_row_t]. *)
Definition matrix_read_cols_on_row (PINA PINF : Z) (current_matrix : list Z)
    (current_row : nat) : option (list Z * list io) :=
  '(selected, out1) ← select_row current_row;
  if negb selected then Some (current_matrix, out1)
  else
    let current_row_value :=
      wrap (ROW_BITS cfg) (Z.lnot (Z.lor (Z.land PINA 31) (Z.land PINF 224))) in
    out2 ← unselect_row current_row;
    if decide (current_row < length current_matrix)%nat then
      Some (<[current_row := current_row_value]> current_matrix,
            out1 ++ [OutputSelectDelay] ++ out2
            ++ [OutputUnselectDelay (Z.of_nat current_row)
                  (negb (current_row_value =? 0))])
    else None.

End WithPins.

(** The port bit that carries column [c]: bits 0 to 4 of port A, bits 5 to
    7 of port F, no pin beyond. *)
Definition col_pin_high (PINA PINF : Z) (c : Z) : bool :=
  if c <? 5 then Z.testbit PINA c
  else if c <? 8 then Z.testbit PINF c
  else false.

End Sculpt.

(** * Properties *)

(** ** Bits and masks *)

Lemma land_pow2 (x : Z) (n : Z) :
  0 <= n → Z.land x (2 ^ n) = if Z.testbit x n then 2 ^ n else 0.
Proof.
  intros Hn. apply Z.bits_inj'. intros i Hi.
  rewrite Z.land_spec, Z.pow2_bits_eqb by lia.
  destruct (Z.eqb_spec n i) as [->|Hne].
  - destruct (Z.testbit x i); simpl.
    + rewrite Z.pow2_bits_eqb by lia. rewrite Z.eqb_refl. reflexivity.
    + rewrite Z.bits_0. reflexivity.
  - rewrite andb_false_r.
    destruct (Z.testbit x n); [rewrite Z.pow2_bits_eqb by lia|rewrite Z.bits_0].
    + symmetry. apply Z.eqb_neq. exact Hne.
    + reflexivity.
Qed.

Lemma land_pow2_eqb (x n : Z) :
  0 <= n → (Z.land x (2 ^ n) =? 0) = negb (Z.testbit x n).
Proof.
  intros Hn. rewrite land_pow2 by lia.
  destruct (Z.testbit x n); simpl; [|reflexivity].
  apply Z.eqb_neq. pose proof (Z.pow_pos_nonneg 2 n). lia.
Qed.

Lemma lxor_pow2_bit (x n b : Z) :
  0 <= n → 0 <= b →
  Z.testbit (Z.lxor x (2 ^ n)) b = xorb (Z.testbit x b) (n =? b).
Proof.
  intros Hn Hb. rewrite Z.lxor_spec, Z.pow2_bits_eqb by lia. reflexivity.
Qed.

Lemma land_1_eqb (x : Z) : (Z.land x 1 =? 0) = negb (Z.testbit x 0).
Proof. exact (land_pow2_eqb x 0 (Z.le_refl 0)). Qed.

Lemma u8_small (x : Z) : 0 <= x <= 255 → u8 x = x.
Proof. intros H. unfold u8. apply Z.mod_small. lia. Qed.

Lemma u8_range (x : Z) : 0 <= u8 x <= 255.
Proof. unfold u8. pose proof (Z.mod_pos_bound x 256). lia. Qed.

(** *** More than one bit: [row & (row - 1)] *)

Lemma land_even_odd (a b : Z) : Z.land (2 * a) (2 * b + 1) = 2 * Z.land a b.
Proof.
  apply Z.bits_inj'. intros n Hn. rewrite Z.land_spec.
  destruct (Z.eq_dec n 0) as [->|Hne].
  - rewrite !Z.testbit_even_0. reflexivity.
  - replace n with (Z.succ (n - 1)) by lia.
    rewrite !Z.testbit_even_succ, Z.testbit_odd_succ, Z.land_spec by lia.
    reflexivity.
Qed.

Lemma land_odd_even (a : Z) : Z.land (2 * a + 1) (2 * a) = 2 * a.
Proof.
  apply Z.bits_inj'. intros n Hn. rewrite Z.land_spec.
  destruct (Z.eq_dec n 0) as [->|Hne].
  - rewrite Z.testbit_even_0. apply andb_false_r.
  - replace n with (Z.succ (n - 1)) by lia.
    rewrite Z.testbit_even_succ, Z.testbit_odd_succ by lia.
    apply andb_diag.
Qed.

Lemma testbit_true_nonneg (x i : Z) : Z.testbit x i = true → 0 <= i.
Proof.
  intros H. destruct (Z.neg_nonneg_cases i) as [Hneg|]; [|assumption].
  rewrite Z.testbit_neg_r in H by assumption. discriminate.
Qed.

Lemma two_bits_set_double (a : Z) : two_bits_set (2 * a) ↔ two_bits_set a.
Proof.
  split; intros (i & j & Hne & Hi & Hj).
  - pose proof (testbit_true_nonneg _ _ Hi). pose proof (testbit_true_nonneg _ _ Hj).
    assert (i ≠ 0) by (intros ->; rewrite Z.testbit_even_0 in Hi; discriminate).
    assert (j ≠ 0) by (intros ->; rewrite Z.testbit_even_0 in Hj; discriminate).
    exists (i - 1), (j - 1). split; [lia|].
    replace i with (Z.succ (i - 1)) in Hi by lia.
    replace j with (Z.succ (j - 1)) in Hj by lia.
    rewrite Z.testbit_even_succ in Hi, Hj by lia. auto.
  - pose proof (testbit_true_nonneg _ _ Hi). pose proof (testbit_true_nonneg _ _ Hj).
    exists (Z.succ i), (Z.succ j). split; [lia|].
    rewrite !Z.testbit_even_succ by lia. auto.
Qed.

Lemma land_pred_pos (p : positive) :
  Z.land (Z.pos p) (Z.pos p - 1) ≠ 0 ↔ two_bits_set (Z.pos p).
Proof.
  induction p as [q IH|q IH|].
  - rewrite Pos2Z.inj_xI.
    replace (2 * Z.pos q + 1 - 1) with (2 * Z.pos q) by lia.
    rewrite land_odd_even. split; [intros _|lia].
    exists 0, (Z.succ (Z.log2 (Z.pos q))). split.
    + pose proof (Z.log2_nonneg (Z.pos q)). lia.
    + split.
      * apply Z.testbit_odd_0.
      * rewrite Z.testbit_odd_succ by apply Z.log2_nonneg.
        apply Z.bit_log2. lia.
  - rewrite Pos2Z.inj_xO.
    replace (2 * Z.pos q - 1) with (2 * (Z.pos q - 1) + 1) by lia.
    rewrite land_even_odd, two_bits_set_double, <- IH. lia.
  - split; [intros H; exfalso; apply H; reflexivity|].
    intros (i & j & Hne & Hi & Hj). exfalso.
    pose proof (testbit_true_nonneg _ _ Hi). pose proof (testbit_true_nonneg _ _ Hj).
    change 1 with (2 ^ 0) in Hi, Hj.
    rewrite Z.pow2_bits_eqb in Hi, Hj by lia.
    apply Z.eqb_eq in Hi, Hj. lia.
Qed.

(** A row has more than one key down exactly when its flag is nonzero. *)
Lemma flag_of_two_bits (row : Z) :
  0 <= row → (flag_of row ≠ 0 ↔ two_bits_set row).
Proof.
  intros Hrow. unfold flag_of.
  destruct (Z.eqb_spec (Z.land row (row - 1)) 0) as [Hz|Hnz].
  - split; [congruence|]. intros Htwo. exfalso.
    destruct row as [|p|p]; [|apply (land_pred_pos p); assumption|lia].
    destruct Htwo as (i & _ & _ & Hi & _). rewrite Z.bits_0 in Hi. discriminate.
  - split; [intros _|discriminate].
    destruct row as [|p|p]; [|apply (land_pred_pos p); assumption|lia].
    exfalso. apply Hnz. reflexivity.
Qed.

(** ** One key: the C switch against the automaton *)

Section KeyStep.

Variable cfg : config.
Hypothesis cfg_ok : config_ok cfg.

(** On the bit that [col_mask] selects, the switch computes the automaton's
    step; no other bit of [cooked_row] moves, and no 8-bit store wraps. *)
Lemma key_step_fsm (raw_row delta cr col elapsed : Z) (k : key_state_t)
    (cooked_bit : bool) :
  0 <= col → 0 <= elapsed → 0 <= remaining k <= 255 →
  Z.testbit delta col = xorb (Z.testbit raw_row col) cooked_bit →
  Z.testbit cr col = cooked_bit →
  (key_step cfg raw_row delta (2 ^ col) elapsed k cr).1
    = (fsm_step cfg (Z.testbit raw_row col) cooked_bit elapsed k).1
  ∧ Z.testbit (key_step cfg raw_row delta (2 ^ col) elapsed k cr).2 col
    = (fsm_step cfg (Z.testbit raw_row col) cooked_bit elapsed k).2
  ∧ ∀ b, 0 <= b → b ≠ col →
      Z.testbit (key_step cfg raw_row delta (2 ^ col) elapsed k cr).2 b
      = Z.testbit cr b.
Proof.
  intros Hcol Hel Hrem Hdelta Hcr.
  destruct cfg_ok as [_ _ Hdown Hup Hq].
  unfold key_step, fsm_step.
  rewrite !land_pow2_eqb by lia. rewrite Hdelta.
  destruct k as [st rem]; simpl in *.
  destruct st, (Z.testbit raw_row col), cooked_bit; simpl;
    try destruct (Z.ltb_spec elapsed rem); simpl;
    rewrite ?u8_small by lia;
    (split; [reflexivity|split; [try assumption|]]);
    try (intros b Hb Hne; try reflexivity;
         rewrite lxor_pow2_bit by lia;
         replace (col =? b) with false by (symmetry; apply Z.eqb_neq; lia);
         apply xorb_false_r);
    rewrite lxor_pow2_bit, Hcr, Z.eqb_refl by lia; reflexivity.
Qed.

(** The counter stays a [uint8_t] value. *)
Lemma key_step_remaining (raw_row delta col_mask elapsed cr : Z) (k : key_state_t) :
  0 <= remaining k <= 255 →
  0 <= remaining (key_step cfg raw_row delta col_mask elapsed k cr).1 <= 255.
Proof.
  intros Hrem. unfold key_step.
  destruct (state k); repeat case_match; simpl; auto using u8_range.
Qed.

End KeyStep.

(** ** Loads and stores on the two blocks *)

Lemma load_key_block h a off ks :
  h !! a = Some (KeyStates ks) → load_key h (Some a, off) = ks !! off.
Proof. intros H. unfold load_key. simpl. rewrite H. reflexivity. Qed.

Lemma store_key_block h a off ks k :
  h !! a = Some (KeyStates ks) → (off < length ks)%nat →
  store_key h (Some a, off) k = Some (<[a := KeyStates (<[off := k]> ks)]> h).
Proof.
  intros H Hlt. unfold store_key. simpl. rewrite H. simpl.
  rewrite decide_True by assumption. reflexivity.
Qed.

Lemma load_byte_block h a off l :
  h !! a = Some (Bytes l) → load_byte h (Some a, off) = l !! off.
Proof. intros H. unfold load_byte. simpl. rewrite H. reflexivity. Qed.

Lemma store_byte_block h a off l v :
  h !! a = Some (Bytes l) → (off < length l)%nat →
  store_byte h (Some a, off) v = Some (<[a := Bytes (<[off := v]> l)]> h).
Proof.
  intros H Hlt. unfold store_byte. simpl. rewrite H. simpl.
  rewrite decide_True by assumption. reflexivity.
Qed.

Lemma set_keys_heap a ks g : heap (set_keys a ks g) !! a = Some (KeyStates ks).
Proof. simpl. apply lookup_insert_eq. Qed.

Lemma set_keys_set_keys a ks1 ks2 g :
  set_keys a ks2 (set_keys a ks1 g) = set_keys a ks2 g.
Proof. unfold set_keys, set_heap. simpl. rewrite insert_insert_eq. reflexivity. Qed.

Lemma set_heap_set_keys a ks ks' g :
  set_heap (<[a := KeyStates ks']> (heap (set_keys a ks g))) (set_keys a ks g)
  = set_keys a ks' g.
Proof. exact (set_keys_set_keys a ks ks' g). Qed.

(** Writing the key block does not disturb a read of a flag. *)
Lemma load_byte_set_keys g a ks0 ks p :
  heap g !! a = Some (KeyStates ks0) →
  load_byte (heap (set_keys a ks g)) p = load_byte (heap g) p.
Proof.
  intros H. destruct p as [[b|] off]; [|reflexivity].
  unfold load_byte. simpl.
  destruct (decide (a = b)) as [->|Hne].
  - rewrite lookup_insert_eq, H. reflexivity.
  - rewrite lookup_insert_ne by assumption. reflexivity.
Qed.

Lemma ghost_set_keys g a ks0 ks r c :
  heap g !! a = Some (KeyStates ks0) →
  multiple_in_row_and_col (set_keys a ks g) r c = multiple_in_row_and_col g r c.
Proof.
  intros H. unfold multiple_in_row_and_col.
  change (multiple_in_row (set_keys a ks g)) with (multiple_in_row g).
  rewrite (load_byte_set_keys g a ks0 ks _ H). reflexivity.
Qed.

(** ** The sweep, cell by cell *)

Section Sweep.

Variable cfg : config.
Hypothesis cfg_ok : config_ok cfg.

(** The column loop over a row: every key from [off] on takes its
    [cell_step], on its own bit of the row, and nothing else moves. *)
Lemma debounce_cols_spec (g0 : globals) (a : positive) (ks0 : list key_state_t)
    (r : nat) (raw_row cooked0 elapsed : Z) (ghost : nat → bool) :
  heap g0 !! a = Some (KeyStates ks0) →
  0 <= elapsed →
  ∀ (todo col : nat) (col_mask : Z) (off : nat) (ks : list key_state_t) (cr : Z),
    (todo ≠ O → col_mask = 2 ^ Z.of_nat col) →
    Z.of_nat (col + todo) <= ROW_BITS cfg →
    (off + todo <= length ks)%nat →
    counters_ok ks →
    (∀ c, (col <= c < col + todo)%nat →
          multiple_in_row_and_col g0 r c = Some (ghost c)) →
    (∀ c, (col <= c < col + todo)%nat →
          Z.testbit cr (Z.of_nat c) = Z.testbit cooked0 (Z.of_nat c)) →
    ∃ ks' cr',
      debounce_cols cfg r raw_row (Z.lxor cooked0 raw_row) elapsed todo col col_mask
        (Some a, off) (set_keys a ks g0) cr
      = Some ((Some a, (off + todo)%nat), set_keys a ks' g0, cr')
      ∧ length ks' = length ks
      ∧ counters_ok ks'
      ∧ (∀ j, ¬ (off <= j < off + todo)%nat → ks' !! j = ks !! j)
      ∧ (∀ b, 0 <= b → ¬ (Z.of_nat col <= b < Z.of_nat (col + todo)) →
              Z.testbit cr' b = Z.testbit cr b)
      ∧ (∀ i, (i < todo)%nat →
          (ks' !!! (off + i)%nat, Z.testbit cr' (Z.of_nat (col + i)))
          = cell_step cfg (ghost (col + i)%nat)
              (Z.testbit raw_row (Z.of_nat (col + i)))
              (Z.testbit cooked0 (Z.of_nat (col + i))) elapsed
              (ks !!! (off + i)%nat)).
Proof.
  intros Hblk Hel. induction todo as [|todo IH];
    intros col col_mask off ks cr Hmask Hfit Hlen Hks Hghost Hbits.
  - exists ks, cr. simpl. rewrite Nat.add_0_r.
    repeat split; auto. intros i Hi. lia.
  - assert (Hm : col_mask = 2 ^ Z.of_nat col) by (apply Hmask; discriminate).
    subst col_mask.
    assert (Hnext : todo ≠ O →
              wrap (ROW_BITS cfg) (Z.shiftl (2 ^ Z.of_nat col) 1) = 2 ^ Z.of_nat (S col)).
    { intros Hne. unfold wrap. rewrite Z.shiftl_mul_pow2 by lia.
      rewrite Nat2Z.inj_succ, Z.pow_succ_r by lia.
      rewrite Z.mul_comm. apply Z.mod_small. split.
      - pose proof (Z.pow_pos_nonneg 2 (Z.of_nat col)). lia.
      - rewrite <- Z.pow_succ_r by lia. apply Z.pow_lt_mono_r; lia. }
    cbn [debounce_cols].
    rewrite (ghost_set_keys g0 a ks0 ks r col Hblk), (Hghost col) by lia.
    cbn [mbind option_bind].
    destruct (ghost col) eqn:Hg.
    + destruct (IH (S col) _ (S off) ks cr Hnext) as (ks' & cr' & Hrun & Hl & Hc & Hfr & Hbfr & Hcell);
        try assumption; try lia.
      { intros c Hc. apply Hghost. lia. }
      { intros c Hc. apply Hbits. lia. }
      exists ks', cr'. unfold next; cbn [fst snd]. rewrite Hrun.
      replace (S off + todo)%nat with (off + S todo)%nat by lia.
      split; [reflexivity|]. split; [exact Hl|]. split; [exact Hc|].
      split; [intros j Hj; apply Hfr; lia|].
      split; [intros b Hb Hout; apply Hbfr; lia|].
      intros [|i] Hi.
      * rewrite !Nat.add_0_r, Hg. unfold cell_step.
        rewrite Hbfr by lia. rewrite Hbits by lia.
        f_equal. apply list_lookup_total_correct.
        rewrite Hfr by lia. apply list_lookup_lookup_total_lt. lia.
      * replace (off + S i)%nat with (S off + i)%nat by lia.
        replace (col + S i)%nat with (S col + i)%nat by lia.
        apply Hcell. lia.
    + rewrite (load_key_block _ a off ks (set_keys_heap a ks g0)).
      destruct (lookup_lt_is_Some_2 ks off ltac:(lia)) as [k Hk].
      rewrite Hk. cbn [mbind option_bind].
      assert (Hkrem : 0 <= remaining k <= 255).
      { eapply (proj1 (Forall_lookup _ ks) Hks); eassumption. }
      destruct (key_step_fsm cfg cfg_ok raw_row (Z.lxor cooked0 raw_row) cr
                  (Z.of_nat col) elapsed k (Z.testbit cooked0 (Z.of_nat col)))
        as (Hk1 & Hk2 & Hk3); try lia.
      { rewrite Z.lxor_spec. apply xorb_comm. }
      { apply Hbits. lia. }
      destruct (key_step cfg raw_row (Z.lxor cooked0 raw_row) (2 ^ Z.of_nat col) elapsed k cr)
        as [k' cr1] eqn:Hstep.
      cbn [fst snd] in Hk1, Hk2, Hk3.
      rewrite (store_key_block _ a off ks k' (set_keys_heap a ks g0)) by lia.
      cbn [mbind option_bind]. rewrite set_heap_set_keys.
      destruct (IH (S col) _ (S off) (<[off := k']> ks) cr1 Hnext)
        as (ks' & cr' & Hrun & Hl & Hc & Hfr & Hbfr & Hcell); try lia.
      { rewrite length_insert. lia. }
      { apply Forall_insert; [assumption|].
        pose proof (key_step_remaining cfg raw_row (Z.lxor cooked0 raw_row)
                      (2 ^ Z.of_nat col) elapsed cr k Hkrem) as Hr.
        rewrite Hstep in Hr. exact Hr. }
      { intros c Hc. apply Hghost. lia. }
      { intros c Hc. rewrite Hk3 by lia. apply Hbits. lia. }
      exists ks', cr'. unfold next; cbn [fst snd]. rewrite Hrun.
      replace (S off + todo)%nat with (off + S todo)%nat by lia.
      rewrite length_insert in Hl.
      split; [reflexivity|]. split; [exact Hl|]. split; [exact Hc|].
      split; [intros j Hj; rewrite Hfr by lia; apply list_lookup_insert_ne; lia|].
      split; [intros b Hb Hout; rewrite Hbfr by lia; apply Hk3; lia|].
      intros [|i] Hi.
      * rewrite !Nat.add_0_r, Hg. unfold cell_step.
        rewrite Hbfr by lia. rewrite Hk2.
        rewrite (list_lookup_total_correct ks off k Hk).
        rewrite (surjective_pairing (fsm_step _ _ _ _ _)). f_equal.
        rewrite <- Hk1. apply list_lookup_total_correct.
        rewrite Hfr by lia. apply list_lookup_insert_eq. lia.
      * replace (off + S i)%nat with (S off + i)%nat by lia.
        replace (col + S i)%nat with (S col + i)%nat by lia.
        rewrite Hcell by lia. f_equal.
        apply list_lookup_total_insert_ne. lia.
Qed.

Lemma cell_index (r r' c n : nat) :
  (c < n)%nat → (r < r')%nat → (S r * n <= r' * n + c)%nat.
Proof. intros Hc Hr. nia. Qed.

Lemma cell_index_lt (r c n : nat) :
  (c < n)%nat → (r * n + c < S r * n)%nat.
Proof. intros Hc. nia. Qed.

(** The row loop: every cell of the rows from [r] on takes its
    [cell_step]; the bits of a row beyond the last column stay. *)
Lemma debounce_rows_spec (g0 : globals) (a : positive) (ks0 : list key_state_t)
    (raw : list Z) (elapsed : Z) (ghost : nat → nat → bool) :
  heap g0 !! a = Some (KeyStates ks0) →
  0 <= elapsed →
  ∀ (todo r : nat) (ks : list key_state_t) (cooked : list Z),
    (r + todo <= length raw)%nat →
    (r + todo <= length cooked)%nat →
    ((r + todo) * MATRIX_COLS cfg <= length ks)%nat →
    counters_ok ks →
    (∀ r' c, (r <= r' < r + todo)%nat → (c < MATRIX_COLS cfg)%nat →
             multiple_in_row_and_col g0 r' c = Some (ghost r' c)) →
    ∃ ks' cooked',
      debounce_rows cfg raw elapsed todo r (Some a, (r * MATRIX_COLS cfg)%nat)
        (set_keys a ks g0) cooked
      = Some (set_keys a ks' g0, cooked')
      ∧ length ks' = length ks
      ∧ counters_ok ks'
      ∧ length cooked' = length cooked
      ∧ (∀ j, ¬ (r * MATRIX_COLS cfg <= j < (r + todo) * MATRIX_COLS cfg)%nat →
              ks' !! j = ks !! j)
      ∧ (∀ r', ¬ (r <= r' < r + todo)%nat → cooked' !! r' = cooked !! r')
      ∧ (∀ r' b, Z.of_nat (MATRIX_COLS cfg) <= b →
              Z.testbit (cooked' !!! r') b = Z.testbit (cooked !!! r') b)
      ∧ (∀ r' c, (r <= r' < r + todo)%nat → (c < MATRIX_COLS cfg)%nat →
          (ks' !!! (r' * MATRIX_COLS cfg + c)%nat, bit_at cooked' r' c)
          = cell_step cfg (ghost r' c) (bit_at raw r' c) (bit_at cooked r' c)
              elapsed (ks !!! (r' * MATRIX_COLS cfg + c)%nat)).
Proof.
  intros Hblk Hel. set (n := MATRIX_COLS cfg).
  induction todo as [|todo IH]; intros r ks cooked Hraw Hcooked Hlen Hks Hghost.
  - exists ks, cooked. simpl. repeat split; auto. intros r' c Hr'. lia.
  - cbn [debounce_rows].
    destruct (lookup_lt_is_Some_2 raw r ltac:(lia)) as [raw_row Hrr].
    destruct (lookup_lt_is_Some_2 cooked r ltac:(lia)) as [cooked_row Hcr].
    rewrite Hrr, Hcr. cbn [mbind option_bind].
    destruct (debounce_cols_spec g0 a ks0 r raw_row cooked_row elapsed (ghost r)
                Hblk Hel n O 1 (r * n)%nat ks cooked_row)
      as (ks1 & cr1 & Hrun & Hl1 & Hc1 & Hfr1 & Hbfr1 & Hcell1); try assumption.
    { reflexivity. }
    { pose proof (cols_fit cfg cfg_ok). fold n in H. lia. }
    { nia. }
    { intros c Hc. apply Hghost; lia. }
    { reflexivity. }
    fold n. rewrite Hrun. cbn [mbind option_bind].
    replace (r * n + n)%nat with (S r * n)%nat by lia.
    destruct (IH (S r) ks1 (<[r := cr1]> cooked))
      as (ks' & cooked' & Hrun' & Hl & Hc & Hlc & Hfr & Hcfr & Hhigh & Hcell).
    { lia. }
    { rewrite length_insert. lia. }
    { rewrite Hl1. replace (S r + todo)%nat with (r + S todo)%nat by lia. exact Hlen. }
    { exact Hc1. }
    { intros r' c Hr' Hc. apply Hghost; lia. }
    rewrite length_insert in Hlc.
    exists ks', cooked'. rewrite Hrun'.
    split; [reflexivity|]. split; [lia|]. split; [exact Hc|]. split; [exact Hlc|].
    assert (Hrow : cooked' !! r = Some cr1).
    { rewrite Hcfr by lia. apply list_lookup_insert_eq. lia. }
    split; [|split; [|split]].
    + intros j Hj. rewrite Hfr by nia. apply Hfr1. nia.
    + intros r' Hr'. rewrite Hcfr by lia. apply list_lookup_insert_ne. lia.
    + intros r' b Hb. rewrite Hhigh by assumption.
      destruct (decide (r' = r)) as [->|Hne].
      * destruct (decide (r < length cooked)%nat); [|lia].
        rewrite list_lookup_total_insert_eq by assumption.
        rewrite (list_lookup_total_correct cooked r cooked_row Hcr).
        apply Hbfr1; lia.
      * rewrite list_lookup_total_insert_ne by congruence. reflexivity.
    + intros r' c Hr' Hcc.
      destruct (decide (r' = r)) as [->|Hne].
      * specialize (Hcell1 c Hcc). rewrite Nat.add_0_l in Hcell1.
        unfold bit_at.
        rewrite (list_lookup_total_correct cooked' r cr1 Hrow),
                (list_lookup_total_correct cooked r cooked_row Hcr),
                (list_lookup_total_correct raw r raw_row Hrr).
        rewrite <- Hcell1. f_equal.
        apply list_lookup_total_correct. rewrite Hfr.
        -- apply list_lookup_lookup_total_lt. pose proof (cell_index_lt r c n Hcc). nia.
        -- pose proof (cell_index_lt r c n Hcc). lia.
      * rewrite Hcell by lia. unfold bit_at.
        rewrite list_lookup_total_insert_ne by congruence.
        f_equal. apply list_lookup_total_correct.
        rewrite Hfr1.
        -- apply list_lookup_lookup_total_lt.
           assert (r' * n + c < (r + S todo) * n)%nat by nia. lia.
        -- pose proof (cell_index r r' c n Hcc ltac:(lia)). lia.
Qed.

End Sweep.

(** ** The ghost detector *)

(** Two column ranges that differ by one index disagree on a column. *)
Ltac range_clash :=
  match goal with
  | Hn : ¬ (_ ∧ _), Hy : _ ∧ _ |- False =>
      apply Hn; destruct Hy; split; [lia|assumption]
  end.

Lemma ghost_clear_spec : ∀ (todo r : nat) (d : list Z),
  (r + todo <= length d)%nat →
  ∃ d', ghost_clear todo r d = Some d'
        ∧ length d' = length d
        ∧ ∀ c, d' !!! c = if decide (r <= c < r + todo)%nat then 0 else d !!! c.
Proof.
  induction todo as [|todo IH]; intros r d Hlen.
  - exists d. simpl. repeat split; auto.
    intros c. rewrite decide_False by lia. reflexivity.
  - cbn [ghost_clear]. rewrite decide_True by lia.
    destruct (IH (S r) (<[r := 0]> d)) as (d' & Hrun & Hl & Hd).
    { rewrite length_insert. lia. }
    exists d'. rewrite Hrun, Hl, length_insert.
    split; [reflexivity|]. split; [reflexivity|].
    intros c. rewrite Hd.
    destruct (decide (c = r)) as [->|Hne].
    + rewrite decide_False by lia. rewrite decide_True by lia.
      apply list_lookup_total_insert_eq. lia.
    + rewrite list_lookup_total_insert_ne by congruence.
      repeat case_decide; lia || reflexivity.
Qed.

(** One row's bits land on the column counts, one bit per column. *)
Lemma ghost_cols_spec (row0 : Z) : ∀ (todo col : nat) (d : list Z),
  (col + todo <= length d)%nat →
  ∃ d', ghost_cols todo col (Z.shiftr row0 (Z.of_nat col)) d = Some d'
        ∧ length d' = length d
        ∧ ∀ c, d' !!! c =
               if decide ((col <= c < col + todo)%nat
                          ∧ Z.testbit row0 (Z.of_nat c) = true)
               then u8 (d !!! c + 1) else d !!! c.
Proof.
  induction todo as [|todo IH]; intros col d Hlen.
  - exists d. simpl. repeat split; auto.
    intros c. rewrite decide_False by lia. reflexivity.
  - cbn [ghost_cols]. rewrite land_1_eqb, Z.shiftr_spec by lia.
    rewrite Z.add_0_l.
    assert (Hshift : Z.shiftr (Z.shiftr row0 (Z.of_nat col)) 1
                     = Z.shiftr row0 (Z.of_nat (S col))).
    { rewrite Z.shiftr_shiftr by lia. f_equal. lia. }
    rewrite Hshift.
    destruct (Z.testbit row0 (Z.of_nat col)) eqn:Hbit; cbn [negb].
    + destruct (lookup_lt_is_Some_2 d col ltac:(lia)) as [n Hn].
      rewrite Hn. cbn [mbind option_bind].
      destruct (IH (S col) (<[col := u8 (n + 1)]> d)) as (d' & Hrun & Hl & Hd).
      { rewrite length_insert. lia. }
      exists d'. rewrite Hrun, Hl, length_insert.
      split; [reflexivity|]. split; [reflexivity|].
      intros c. rewrite Hd.
      destruct (decide (c = col)) as [->|Hne].
      * rewrite decide_False by lia. rewrite decide_True by (split; [lia|assumption]).
        rewrite list_lookup_total_insert_eq by lia.
        rewrite (list_lookup_total_correct d col n Hn). reflexivity.
      * rewrite list_lookup_total_insert_ne by congruence.
        repeat case_decide; try reflexivity; exfalso; range_clash.
    + cbn [mbind option_bind].
      destruct (IH (S col) d) as (d' & Hrun & Hl & Hd); [lia|].
      exists d'. rewrite Hrun. split; [reflexivity|]. split; [exact Hl|].
      intros c. rewrite Hd.
      destruct (decide (c = col)) as [->|Hne].
      * rewrite decide_False by lia. rewrite decide_False by (rewrite Hbit; intuition discriminate).
        reflexivity.
      * repeat case_decide; try reflexivity; exfalso; range_clash.
Qed.

Lemma down_count_snoc (rows : list Z) (row : Z) (c : nat) :
  down_count (rows ++ [row]) c
  = down_count rows c + Z.b2z (Z.testbit row (Z.of_nat c)).
Proof.
  unfold down_count. rewrite filter_app, length_app, Nat2Z.inj_add. f_equal.
  destruct (Z.testbit row (Z.of_nat c)) eqn:Hb.
  - rewrite filter_cons_True by assumption. reflexivity.
  - rewrite filter_cons_False by (rewrite Hb; discriminate). reflexivity.
Qed.

Lemma down_count_bound (rows : list Z) (c : nat) :
  0 <= down_count rows c <= Z.of_nat (length rows).
Proof.
  unfold down_count. pose proof (length_filter (λ row, Z.testbit row (Z.of_nat c) = true) rows).
  lia.
Qed.

Lemma ghost_state_heap a l d g : heap (ghost_state a l d g) !! a = Some (Bytes l).
Proof. simpl. apply lookup_insert_eq. Qed.

Lemma ghost_state_step a l d l' d' g :
  set_heap (<[a := Bytes l']> (heap (ghost_state a l d g)))
    (set_down_in_col d' (ghost_state a l d g))
  = ghost_state a l' d' g.
Proof.
  unfold ghost_state, set_flags, set_heap, set_down_in_col. simpl.
  rewrite insert_insert_eq. reflexivity.
Qed.

Lemma ghost_state_step_flags a l d l' g :
  set_heap (<[a := Bytes l']> (heap (ghost_state a l d g))) (ghost_state a l d g)
  = ghost_state a l' d g.
Proof.
  unfold ghost_state, set_flags, set_heap, set_down_in_col. simpl.
  rewrite insert_insert_eq. reflexivity.
Qed.

Section Ghost.

Variable cfg : config.

(** The row loop of [ghost_compute]: after [i] rows the counts are those
    of the first [i] rows, exactly, because at most 255 rows are counted in
    an 8-bit cell. *)
Lemma ghost_rows_spec (g0 : globals) (a : positive) (raw : list Z) :
  ∀ (todo i : nat) (l d : list Z),
    (i + todo <= length raw)%nat →
    (i + todo <= length l)%nat →
    length d = MATRIX_COLS cfg →
    (i + todo <= 255)%nat →
    (∀ c, (c < MATRIX_COLS cfg)%nat → d !!! c = down_count (take i raw) c) →
    ∃ l' d',
      ghost_rows cfg raw todo i (Some a, i) (ghost_state a l d g0)
      = Some (ghost_state a l' d' g0)
      ∧ length l' = length l
      ∧ length d' = MATRIX_COLS cfg
      ∧ (∀ j, ¬ (i <= j < i + todo)%nat → l' !! j = l !! j)
      ∧ (∀ j, (i <= j < i + todo)%nat → l' !!! j = flag_of (raw !!! j))
      ∧ (∀ c, (c < MATRIX_COLS cfg)%nat →
              d' !!! c = down_count (take (i + todo) raw) c).
Proof.
  induction todo as [|todo IH]; intros i l d Hraw Hl Hd Hmax Hcount.
  - exists l, d. simpl. rewrite Nat.add_0_r. repeat split; auto. intros j Hj. lia.
  - cbn [ghost_rows].
    destruct (lookup_lt_is_Some_2 raw i ltac:(lia)) as [row Hrow].
    rewrite Hrow. cbn [mbind option_bind].
    pose proof (take_S_r raw i row Hrow) as Htake.
    assert (Hfinish : ∀ l1 d1,
      length l1 = length l → length d1 = MATRIX_COLS cfg →
      l1 !! i = Some (flag_of row) →
      (∀ j, j ≠ i → l1 !! j = l !! j) →
      (∀ c, (c < MATRIX_COLS cfg)%nat → d1 !!! c = down_count (take (S i) raw) c) →
      ∃ l' d',
        ghost_rows cfg raw todo (S i) (next (Some a, i)) (ghost_state a l1 d1 g0)
        = Some (ghost_state a l' d' g0)
        ∧ length l' = length l
        ∧ length d' = MATRIX_COLS cfg
        ∧ (∀ j, ¬ (i <= j < i + S todo)%nat → l' !! j = l !! j)
        ∧ (∀ j, (i <= j < i + S todo)%nat → l' !!! j = flag_of (raw !!! j))
        ∧ (∀ c, (c < MATRIX_COLS cfg)%nat →
                d' !!! c = down_count (take (i + S todo) raw) c)).
    { intros l1 d1 Hl1 Hd1 Hflag Hrest Hcount1.
      destruct (IH (S i) l1 d1) as (l' & d' & Hrun & Hl' & Hd' & Hfr & Hfl & Hcnt);
        try assumption; try lia.
      exists l', d'. unfold next; cbn [fst snd]. rewrite Hrun.
      replace (i + S todo)%nat with (S i + todo)%nat by lia.
      split; [reflexivity|]. split; [lia|]. split; [exact Hd'|].
      split; [intros j Hj; rewrite Hfr by lia; apply Hrest; lia|].
      split; [|exact Hcnt].
      intros j Hj. destruct (decide (j = i)) as [->|Hne].
      - rewrite (list_lookup_total_correct raw i row Hrow).
        apply list_lookup_total_correct. rewrite Hfr by lia. exact Hflag.
      - apply Hfl. lia. }
    destruct (Z.eqb_spec row 0) as [->|Hnz].
    + rewrite (store_byte_block _ a i l 0 (ghost_state_heap a l d g0)) by lia.
      cbn [mbind option_bind]. rewrite ghost_state_step_flags.
      apply Hfinish.
      * apply length_insert.
      * exact Hd.
      * apply list_lookup_insert_eq. lia.
      * intros j Hj. apply list_lookup_insert_ne. congruence.
      * intros c Hc. rewrite Htake, down_count_snoc, Z.bits_0. simpl.
        rewrite Z.add_0_r. apply Hcount. exact Hc.
    + destruct (ghost_cols_spec row (MATRIX_COLS cfg) O d ltac:(lia))
        as (d1 & Hrun1 & Hd1 & Hd1v).
      change (Z.of_nat 0) with 0 in Hrun1. rewrite Z.shiftr_0_r in Hrun1.
      change (down_in_col (ghost_state a l d g0)) with d.
      rewrite Hrun1. cbn [mbind option_bind].
      rewrite (store_byte_block _ a i l _ (ghost_state_heap a l d g0)) by lia.
      cbn [mbind option_bind]. rewrite ghost_state_step.
      apply Hfinish.
      * apply length_insert.
      * lia.
      * apply list_lookup_insert_eq. lia.
      * intros j Hj. apply list_lookup_insert_ne. congruence.
      * intros c Hc. rewrite Htake, down_count_snoc, Hd1v, Hcount by assumption.
        pose proof (down_count_bound (take i raw) c) as Hb.
        rewrite length_take in Hb.
        destruct (Z.testbit row (Z.of_nat c)) eqn:Hbit.
        -- rewrite decide_True by (split; [lia|reflexivity]).
           simpl. apply u8_small. lia.
        -- rewrite decide_False by (intros [_ ?]; discriminate).
           simpl. lia.
Qed.

Lemma list_eq_total {A} `{Inhabited A} (l1 l2 : list A) :
  length l1 = length l2 →
  (∀ i, (i < length l1)%nat → l1 !!! i = l2 !!! i) →
  l1 = l2.
Proof.
  intros Hlen Hall. apply (list_eq_same_length l1 l2 (length l1)); auto.
  intros i x y Hi Hx Hy.
  rewrite <- (list_lookup_total_correct l1 i x Hx),
          <- (list_lookup_total_correct l2 i y Hy).
  apply Hall. exact Hi.
Qed.

(** [ghost_compute] on a live state: the flag of every row and the count
    of every column, and nothing else. *)
Lemma ghost_compute_spec (n : nat) (raw : list Z) (g : globals) :
  wf cfg n g → length raw = n →
  ∃ a, multiple_in_row g = Some a
       ∧ heap g !! a = Some (Bytes (flags_of g))
       ∧ ghost_compute cfg raw n g
         = Some (ghost_state a (flag_of <$> raw)
                   (down_count raw <$> seq 0 (MATRIX_COLS cfg)) g).
Proof.
  intros Hwf Hraw. destruct Hwf as [Hn (a & Hptr & Hblk) Hfl _ _ _ Hcols].
  exists a. split; [exact Hptr|]. split; [exact Hblk|].
  unfold ghost_compute. rewrite Hptr.
  destruct (ghost_clear_spec (MATRIX_COLS cfg) O (down_in_col g) ltac:(lia))
    as (d0 & Hrun0 & Hd0 & Hd0v).
  rewrite Hrun0. cbn [mbind option_bind].
  assert (Hst : set_down_in_col d0 g = ghost_state a (flags_of g) d0 g).
  { unfold ghost_state, set_flags. cbn [heap set_down_in_col].
    rewrite (insert_id (heap g) a _ Hblk). reflexivity. }
  rewrite Hst.
  destruct (ghost_rows_spec g a raw n O (flags_of g) d0)
    as (l' & d' & Hrun & Hl' & Hd' & _ & Hflags & Hcounts); try lia.
  { intros c Hc. rewrite Hd0v, decide_True by lia. reflexivity. }
  rewrite Hrun. do 2 f_equal.
  - apply list_eq_total.
    + rewrite length_fmap. lia.
    + intros i Hi. rewrite Hflags by lia. symmetry.
      apply list_lookup_total_correct.
      rewrite list_lookup_fmap, (list_lookup_lookup_total_lt raw i) by lia.
      reflexivity.
  - apply list_eq_total.
    + rewrite length_fmap, length_seq. lia.
    + intros c Hc. rewrite Hcounts by lia. symmetry.
      apply list_lookup_total_correct.
      rewrite list_lookup_fmap, lookup_seq_lt by lia.
      rewrite Nat.add_0_l, take_ge by lia. reflexivity.
Qed.

End Ghost.

(** ** Initialisation and release *)

Section Lifecycle.

Variable cfg : config.

Lemma init_cols_waiting (g0 : globals) (a : positive) (ks : list key_state_t) :
  Forall (λ k, state k = WAITING) ks →
  ∀ (todo off : nat),
    (off + todo <= length ks)%nat →
    init_cols todo (Some a, off) (set_keys a ks g0)
    = Some ((Some a, (off + todo)%nat), set_keys a ks g0).
Proof.
  intros Hw. induction todo as [|todo IH]; intros off Hlen.
  - simpl. rewrite Nat.add_0_r. reflexivity.
  - cbn [init_cols].
    rewrite (load_key_block _ a off ks (set_keys_heap a ks g0)).
    destruct (lookup_lt_is_Some_2 ks off ltac:(lia)) as [k Hk].
    rewrite Hk. cbn [mbind option_bind].
    rewrite (store_key_block _ a off ks _ (set_keys_heap a ks g0)) by lia.
    cbn [mbind option_bind]. rewrite set_heap_set_keys.
    assert (Hid : <[off := KeyState WAITING (remaining k)]> ks = ks).
    { apply list_insert_id. rewrite Hk. f_equal.
      pose proof (proj1 (Forall_lookup _ ks) Hw off k Hk) as Hst.
      destruct k as [st rem]. simpl in *. subst st. reflexivity. }
    rewrite Hid. unfold next; cbn [fst snd]. rewrite IH by lia.
    do 3 f_equal. lia.
Qed.

Lemma init_rows_waiting (g0 : globals) (a : positive) (ks : list key_state_t) :
  Forall (λ k, state k = WAITING) ks →
  ∀ (todo off : nat),
    (off + todo * MATRIX_COLS cfg <= length ks)%nat →
    init_rows cfg todo (Some a, off) (set_keys a ks g0) = Some (set_keys a ks g0).
Proof.
  intros Hw. induction todo as [|todo IH]; intros off Hlen.
  - reflexivity.
  - cbn [init_rows]. rewrite (init_cols_waiting g0 a ks Hw) by lia.
    cbn [mbind option_bind]. apply IH. lia.
Qed.

(** [debounce_init] always returns, in [init_state]. *)
Lemma debounce_init_spec (n : nat) (g : globals) :
  debounce_init cfg n g = Some (init_state cfg n g).
Proof.
  unfold debounce_init, ghost_init, calloc.
  set (g1 := time_init cfg g).
  assert (Hheap : heap g1 = heap g) by (unfold g1, time_init; case_match; reflexivity).
  cbn [heap set_heap set_multiple_in_row set_key_states key_states]. rewrite Hheap.
  set (a1 := fresh (dom (heap g))).
  set (h1 := <[a1 := Bytes (replicate n 0)]> (heap g)).
  set (a2 := fresh (dom h1)).
  set (ks := replicate (n * MATRIX_COLS cfg) (KeyState WAITING 0)).
  set (g3 := set_heap (<[a2 := KeyStates ks]> h1) _).
  assert (Hg3 : g3 = set_keys a2 ks g3).
  { unfold g3, set_keys, set_heap. cbn. rewrite insert_insert_eq. reflexivity. }
  rewrite Hg3. rewrite (init_rows_waiting g3 a2 ks).
  - rewrite <- Hg3. unfold g3, init_state, g1, time_init, set_heap, set_key_states,
      set_multiple_in_row, set_timer. fold a1 h1 a2 ks.
    destruct (DEBOUNCE_USE_FRAMES cfg); reflexivity.
  - apply Forall_replicate. reflexivity.
  - unfold ks. rewrite length_replicate. lia.
Qed.

Lemma init_state_addresses (n : nat) (g : globals) :
  let a1 := fresh (dom (heap g)) in
  let a2 := fresh (dom (<[a1 := Bytes (replicate n 0)]> (heap g))) in
  heap g !! a1 = None ∧ heap g !! a2 = None ∧ a1 ≠ a2.
Proof.
  intros a1 a2.
  assert (H1 : a1 ∉ dom (heap g)) by apply is_fresh.
  assert (H2 : a2 ∉ dom (<[a1 := Bytes (replicate n 0)]> (heap g))) by apply is_fresh.
  rewrite dom_insert_L in H2.
  split; [apply not_elem_of_dom; exact H1|].
  split; [apply not_elem_of_dom; set_solver|set_solver].
Qed.

Lemma init_state_flags (n : nat) (g : globals) :
  flags_of (init_state cfg n g) = replicate n 0.
Proof.
  destruct (init_state_addresses n g) as (_ & _ & Hne).
  unfold flags_of, init_state. cbn.
  rewrite lookup_insert_ne by congruence. rewrite lookup_insert_eq. reflexivity.
Qed.

Lemma init_state_keys (n : nat) (g : globals) :
  keys_of (init_state cfg n g)
  = replicate (n * MATRIX_COLS cfg) (KeyState WAITING 0).
Proof. unfold keys_of, init_state. cbn. rewrite lookup_insert_eq. reflexivity. Qed.

Lemma init_state_wf (n : nat) (g : globals) :
  (n <= 255)%nat → length (down_in_col g) = MATRIX_COLS cfg →
  wf cfg n (init_state cfg n g).
Proof.
  intros Hn Hcols. destruct (init_state_addresses n g) as (_ & _ & Hne).
  split.
  - exact Hn.
  - eexists. split; [reflexivity|]. rewrite init_state_flags. cbn.
    rewrite lookup_insert_ne by congruence. apply lookup_insert_eq.
  - rewrite init_state_flags. apply length_replicate.
  - eexists. split; [reflexivity|]. rewrite init_state_keys. cbn.
    apply lookup_insert_eq.
  - rewrite init_state_keys. apply length_replicate.
  - rewrite init_state_keys. apply Forall_replicate. simpl. lia.
  - exact Hcols.
Qed.

End Lifecycle.

(** ** One call of [debounce] *)

Section Debounce.

Variable cfg : config.
Hypothesis cfg_ok : config_ok cfg.

(** On a live state the ghost query reads both tables in range. *)
Lemma wf_ghost (n : nat) (g : globals) (r c : nat) :
  wf cfg n g → (r < n)%nat → (c < MATRIX_COLS cfg)%nat →
  multiple_in_row_and_col g r c = Some (is_ambiguous g r c).
Proof.
  intros [_ (a & Hptr & Hblk) Hlen _ _ _ Hcols] Hr Hc.
  unfold multiple_in_row_and_col, is_ambiguous.
  rewrite Hptr, (load_byte_block _ a r _ Hblk).
  rewrite (list_lookup_lookup_total_lt (flags_of g) r) by lia.
  cbn [mbind option_bind].
  destruct (flags_of g !!! r =? 0); [reflexivity|].
  rewrite (list_lookup_lookup_total_lt (down_in_col g) c) by lia.
  reflexivity.
Qed.

Lemma get_elapsed_frame (now : Z) (g : globals) :
  let g1 := (get_elapsed cfg now g).2 in
  multiple_in_row g1 = multiple_in_row g ∧ down_in_col g1 = down_in_col g
  ∧ key_states g1 = key_states g ∧ heap g1 = heap g.
Proof.
  unfold get_elapsed.
  destruct (DEBOUNCE_USE_FRAMES cfg), (last_time_initialized g); simpl; auto.
Qed.

Lemma get_elapsed_wf (now : Z) (n : nat) (g : globals) :
  wf cfg n g →
  wf cfg n (get_elapsed cfg now g).2
  ∧ keys_of (get_elapsed cfg now g).2 = keys_of g
  ∧ flags_of (get_elapsed cfg now g).2 = flags_of g.
Proof.
  intros Hwf. destruct (get_elapsed_frame now g) as (Hm & Hd & Hk & Hh).
  assert (Hkeys : keys_of (get_elapsed cfg now g).2 = keys_of g)
    by (unfold keys_of; rewrite Hk, Hh; reflexivity).
  assert (Hflags : flags_of (get_elapsed cfg now g).2 = flags_of g)
    by (unfold flags_of; rewrite Hm, Hh; reflexivity).
  split; [|auto].
  destruct Hwf as [H1 H2 H3 H4 H5 H6 H7].
  split; rewrite ?Hkeys, ?Hflags, ?Hm, ?Hd, ?Hk, ?Hh; assumption.
Qed.

Lemma get_elapsed_nonneg (now : Z) (g : globals) :
  0 <= u8 (get_elapsed cfg now g).1 <= 255.
Proof. apply u8_range. Qed.

Lemma wf_ghost_state (n : nat) (g : globals) (a : positive) (l d : list Z) :
  wf cfg n g → multiple_in_row g = Some a →
  length l = n → length d = MATRIX_COLS cfg →
  wf cfg n (ghost_state a l d g)
  ∧ keys_of (ghost_state a l d g) = keys_of g
  ∧ flags_of (ghost_state a l d g) = l.
Proof.
  intros Hwf Ha Hl Hd.
  destruct Hwf as [H1 (a' & Hptr & Hblk) H3 (b & Hkptr & Hkblk) H5 H6 H7].
  assert (a' = a) by congruence. subst a'.
  assert (Hne : a ≠ b) by (intros ->; congruence).
  assert (Hkeys : keys_of (ghost_state a l d g) = keys_of g).
  { unfold keys_of. cbn. rewrite Hkptr. cbn.
    rewrite lookup_insert_ne by assumption. reflexivity. }
  assert (Hflags : flags_of (ghost_state a l d g) = l).
  { unfold flags_of. cbn. rewrite Ha. cbn. rewrite lookup_insert_eq. reflexivity. }
  split; [|auto].
  split; rewrite ?Hkeys, ?Hflags; try assumption.
  - exists a. split; [exact Ha|]. cbn. apply lookup_insert_eq.
  - exists b. split; [exact Hkptr|]. cbn.
    rewrite lookup_insert_ne by assumption. exact Hkblk.
Qed.

Lemma wf_set_keys (n : nat) (g : globals) (a : positive) (ks : list key_state_t) :
  wf cfg n g → key_states g = Some a →
  length ks = (n * MATRIX_COLS cfg)%nat → counters_ok ks →
  wf cfg n (set_keys a ks g)
  ∧ keys_of (set_keys a ks g) = ks
  ∧ flags_of (set_keys a ks g) = flags_of g.
Proof.
  intros Hwf Ha Hl Hc.
  destruct Hwf as [H1 (b & Hptr & Hblk) H3 (a' & Hkptr & Hkblk) H5 H6 H7].
  assert (a' = a) by congruence. subst a'.
  assert (Hne : a ≠ b) by (intros ->; congruence).
  assert (Hkeys : keys_of (set_keys a ks g) = ks).
  { unfold keys_of. cbn. rewrite Ha. cbn. rewrite lookup_insert_eq. reflexivity. }
  assert (Hflags : flags_of (set_keys a ks g) = flags_of g).
  { unfold flags_of. cbn. rewrite Hptr. cbn.
    rewrite lookup_insert_ne by assumption. reflexivity. }
  split; [|auto].
  split; rewrite ?Hkeys, ?Hflags; try assumption.
  - exists b. split; [exact Hptr|]. cbn.
    rewrite lookup_insert_ne by assumption. exact Hblk.
  - exists a. split; [exact Ha|]. cbn. apply lookup_insert_eq.
Qed.

Lemma wf_set_keys_id (n : nat) (g : globals) (a : positive) :
  wf cfg n g → key_states g = Some a → set_keys a (keys_of g) g = g.
Proof.
  intros [_ _ _ (a' & Hkptr & Hkblk) _ _ _] Ha.
  assert (a' = a) by congruence. subst a'.
  unfold set_keys, set_heap. rewrite (insert_id (heap g) a _ Hkblk).
  destruct g. reflexivity.
Qed.

(** The whole sweep on a live state: it returns, the state stays live, the
    ghost tables and the timer are not touched, and every cell of the grid
    takes its [cell_step]. *)
Lemma sweep_spec (raw cooked : list Z) (elapsed : Z) (n : nat) (g : globals) :
  wf cfg n g → length raw = n → length cooked = n → 0 <= elapsed →
  ∃ g' cooked',
    debounce_rows cfg raw elapsed n 0 (key_states g, O) g cooked = Some (g', cooked')
    ∧ wf cfg n g' ∧ length cooked' = n
    ∧ flags_of g' = flags_of g
    ∧ down_in_col g' = down_in_col g
    ∧ last_time_initialized g' = last_time_initialized g
    ∧ last_time g' = last_time g
    ∧ (∀ r b, Z.of_nat (MATRIX_COLS cfg) <= b →
          Z.testbit (cooked' !!! r) b = Z.testbit (cooked !!! r) b)
    ∧ ∀ r c, (r < n)%nat → (c < MATRIX_COLS cfg)%nat →
        (key_at cfg g' r c, bit_at cooked' r c)
        = cell_step cfg (is_ambiguous g r c) (bit_at raw r c) (bit_at cooked r c)
            elapsed (key_at cfg g r c).
Proof.
  intros Hwf Hraw Hcooked Hel.
  pose proof Hwf as [_ _ _ (a & Hkptr & Hkblk) Hklen Hkc _].
  destruct (debounce_rows_spec cfg cfg_ok g a (keys_of g) raw elapsed (is_ambiguous g)
              Hkblk Hel n O (keys_of g) cooked)
    as (ks' & cooked' & Hrun & Hl & Hc & Hlc & _ & _ & Hhigh & Hcell);
    try assumption; try lia.
  { intros r c Hr Hc. apply (wf_ghost n); [assumption|lia|assumption]. }
  rewrite (wf_set_keys_id n g a Hwf Hkptr) in Hrun.
  rewrite Hkptr. change (0 * MATRIX_COLS cfg)%nat with O in Hrun.
  destruct (wf_set_keys n g a ks' Hwf Hkptr ltac:(lia) Hc) as (Hwf' & Hkeys' & Hflags').
  exists (set_keys a ks' g), cooked'.
  split; [exact Hrun|]. split; [exact Hwf'|]. split; [lia|].
  split; [exact Hflags'|]. do 3 (split; [reflexivity|]).
  split; [exact Hhigh|].
  intros r c Hr Hcc. unfold key_at. rewrite Hkeys'. apply Hcell; [lia|assumption].
Qed.

(** One call of [debounce] on a live state.  [g_mid] is the state the sweep
    starts from: the timer read, the ghost tables recomputed when [changed]
    is set.  The sweep does not write the ghost tables. *)
Lemma debounce_spec (now : Z) (raw cooked : list Z) (n : nat) (changed : bool)
    (g : globals) :
  wf cfg n g → length raw = n → length cooked = n →
  ∃ g_mid g' cooked',
    (if changed then ghost_compute cfg raw n (get_elapsed cfg now g).2
     else Some (get_elapsed cfg now g).2) = Some g_mid
    ∧ debounce cfg now raw cooked n changed g = Some (g', cooked')
    ∧ wf cfg n g_mid
    ∧ flags_of g_mid = flags_of g' ∧ down_in_col g_mid = down_in_col g'
    ∧ wf cfg n g' ∧ length cooked' = n
    ∧ flags_of g' = (if changed then flag_of <$> raw else flags_of g)
    ∧ down_in_col g'
      = (if changed then down_count raw <$> seq 0 (MATRIX_COLS cfg)
         else down_in_col g)
    ∧ last_time_initialized g' = last_time_initialized (get_elapsed cfg now g).2
    ∧ last_time g' = last_time (get_elapsed cfg now g).2
    ∧ (∀ r b, Z.of_nat (MATRIX_COLS cfg) <= b →
          Z.testbit (cooked' !!! r) b = Z.testbit (cooked !!! r) b)
    ∧ ∀ r c, (r < n)%nat → (c < MATRIX_COLS cfg)%nat →
        (key_at cfg g' r c, bit_at cooked' r c)
        = cell_step cfg (is_ambiguous g_mid r c) (bit_at raw r c) (bit_at cooked r c)
            (u8 (get_elapsed cfg now g).1) (key_at cfg g r c).
Proof.
  intros Hwf Hraw Hcooked.
  destruct (get_elapsed_wf now n g Hwf) as (Hwf1 & Hkeys1 & Hflags1).
  destruct (get_elapsed_frame now g) as (_ & Hd1 & _ & _).
  pose proof (get_elapsed_nonneg now g) as [Hel _].
  unfold debounce.
  destruct (get_elapsed cfg now g) as [e g1]. cbn [fst snd] in *.
  assert (Hpre : ∃ g2,
    (if changed then ghost_compute cfg raw n g1 else Some g1) = Some g2
    ∧ wf cfg n g2 ∧ keys_of g2 = keys_of g
    ∧ flags_of g2 = (if changed then flag_of <$> raw else flags_of g)
    ∧ down_in_col g2
      = (if changed then down_count raw <$> seq 0 (MATRIX_COLS cfg)
         else down_in_col g)
    ∧ last_time_initialized g2 = last_time_initialized g1
    ∧ last_time g2 = last_time g1).
  { destruct changed.
    - destruct (ghost_compute_spec cfg n raw g1 Hwf1 Hraw) as (a & Ha & _ & Hrun).
      destruct (wf_ghost_state n g1 a (flag_of <$> raw)
                  (down_count raw <$> seq 0 (MATRIX_COLS cfg)) Hwf1 Ha)
        as (Hwf2 & Hkeys2 & Hflags2).
      { rewrite length_fmap. exact Hraw. }
      { rewrite length_fmap, length_seq. reflexivity. }
      eexists. split; [exact Hrun|]. split; [exact Hwf2|].
      split; [congruence|]. split; [exact Hflags2|].
      split; [reflexivity|]. split; reflexivity.
    - exists g1. split; [reflexivity|]. split; [exact Hwf1|].
      split; [exact Hkeys1|]. split; [exact Hflags1|].
      split; [exact Hd1|]. split; reflexivity. }
  destruct Hpre as (g2 & Hrun2 & Hwf2 & Hkeys2 & Hflags2 & Hd2 & Ht2 & Hl2).
  rewrite Hrun2. cbn [mbind option_bind].
  destruct (sweep_spec raw cooked (u8 e) n g2 Hwf2 Hraw Hcooked Hel)
    as (g' & cooked' & Hrun & Hwf' & Hlc & Hfl & Hdc & Hti & Hlt & Hhigh & Hcell).
  exists g2, g', cooked'. split; [reflexivity|]. split; [exact Hrun|].
  split; [exact Hwf2|]. split; [congruence|]. split; [congruence|].
  split; [exact Hwf'|].
  split; [exact Hlc|]. split; [congruence|]. split; [congruence|].
  split; [congruence|]. split; [congruence|]. split; [exact Hhigh|].
  intros r c Hr Hc. rewrite (Hcell r c Hr Hc).
  unfold key_at. rewrite Hkeys2. reflexivity.
Qed.

End Debounce.

(** ** The default configuration *)

Lemma default_config_ok : config_ok default_config.
Proof. split; simpl; lia. Qed.

Lemma default_live (n : nat) :
  (n <= 255)%nat → wf default_config n (init_state default_config n (boot default_config)).
Proof. intros Hn. apply init_state_wf; [exact Hn|reflexivity]. Qed.

(** ** The elapsed-time source *)

Section Timer.

Variable cfg : config.
Hypothesis cfg_ok : config_ok cfg.

Lemma timer_diff_range (a b : Z) : 0 <= TIMER_DIFF_FAST cfg a b.
Proof.
  unfold TIMER_DIFF_FAST, wrap. apply Z.mod_pos_bound.
  apply Z.pow_pos_nonneg; [lia|]. pose proof (timer_width cfg cfg_ok). lia.
Qed.

Lemma get_elapsed_range (now : Z) (g : globals) :
  0 <= (get_elapsed cfg now g).1 <= 255.
Proof.
  unfold get_elapsed.
  destruct (DEBOUNCE_USE_FRAMES cfg); [simpl; lia|].
  destruct (last_time_initialized g); cbn [negb fst]; [|lia].
  pose proof (timer_diff_range now (last_time g)).
  destruct (Z.ltb_spec 255 (TIMER_DIFF_FAST cfg now (last_time g))); lia.
Qed.

Hypothesis by_time : DEBOUNCE_USE_FRAMES cfg = false.

Lemma get_elapsed_first (now : Z) (g : globals) :
  last_time_initialized g = false →
  get_elapsed cfg now g = (1, set_timer true now g).
Proof. intros H. unfold get_elapsed. rewrite by_time, H. reflexivity. Qed.

Lemma get_elapsed_later (now : Z) (g : globals) :
  last_time_initialized g = true →
  get_elapsed cfg now g
  = (Z.min 255 (TIMER_DIFF_FAST cfg now (last_time g)), set_timer true now g).
Proof.
  intros H. unfold get_elapsed. rewrite by_time, H. cbn [negb]. f_equal.
  destruct (Z.ltb_spec 255 (TIMER_DIFF_FAST cfg now (last_time g))); lia.
Qed.

(** A gap of at most 63 ms on a timer of at least six bits is returned as
    it is. *)
Lemma elapsed_exact (now : Z) (g : globals) :
  6 <= TIMER_BITS cfg →
  last_time_initialized g = true → 0 <= now - last_time g <= 63 →
  u8 (get_elapsed cfg now g).1 = now - last_time g
  ∧ last_time_initialized (get_elapsed cfg now g).2 = true
  ∧ last_time (get_elapsed cfg now g).2 = now.
Proof.
  intros timer_bits Hinit Hgap. rewrite (get_elapsed_later now g Hinit).
  cbn [fst snd set_timer last_time_initialized last_time].
  split; [|auto]. unfold TIMER_DIFF_FAST, wrap.
  assert (2 ^ 6 <= 2 ^ TIMER_BITS cfg) by (apply Z.pow_le_mono_r; lia).
  rewrite Z.mod_small by lia. rewrite Z.min_r by lia. apply u8_small. lia.
Qed.

Lemma elapsed_trace_later (nows : list Z) : ∀ g,
  last_time_initialized g = true →
  elapsed_trace cfg nows g = saturated_diffs cfg (last_time g) nows.
Proof.
  induction nows as [|now rest IH]; intros g Hinit; [reflexivity|].
  cbn [elapsed_trace saturated_diffs].
  rewrite (get_elapsed_later now g Hinit). f_equal.
  rewrite IH by reflexivity. reflexivity.
Qed.

End Timer.

(** ** Calls that do not recompute the ghost tables *)

Section Idle.

Variable cfg : config.
Hypothesis cfg_ok : config_ok cfg.

Lemma is_ambiguous_tables (g g' : globals) (r c : nat) :
  flags_of g' = flags_of g → down_in_col g' = down_in_col g →
  is_ambiguous g' r c = is_ambiguous g r c.
Proof. intros Hf Hd. unfold is_ambiguous. rewrite Hf, Hd. reflexivity. Qed.

(** With all flags zero the ghost query is false, whatever the counts. *)
Lemma zero_flags_no_ghost (n : nat) (g : globals) (r c : nat) :
  wf cfg n g → flags_of g = replicate n 0 → (r < n)%nat →
  multiple_in_row_and_col g r c = Some false.
Proof.
  intros [_ (a & Hptr & Hblk) _ _ _ _ _] Hzero Hr.
  unfold multiple_in_row_and_col.
  rewrite Hptr, (load_byte_block _ a r _ Hblk), Hzero.
  rewrite lookup_replicate_2 by assumption. reflexivity.
Qed.

(** Two row words with the same bits. *)
Lemma row_eq_bits (cols : nat) (x y : Z) :
  (∀ c, (c < cols)%nat → Z.testbit x (Z.of_nat c) = Z.testbit y (Z.of_nat c)) →
  (∀ b, Z.of_nat cols <= b → Z.testbit x b = Z.testbit y b) →
  x = y.
Proof.
  intros Hlow Hhigh. apply Z.bits_inj'. intros b Hb.
  destruct (Z.lt_ge_cases b (Z.of_nat cols)) as [Hlt|Hge].
  - rewrite <- (Z2Nat.id b Hb). apply Hlow. lia.
  - apply Hhigh. exact Hge.
Qed.

(** A call in which no unmarked cell has a raw bit differing from its
    cooked bit leaves the cooked grid as it is. *)
Lemma debounce_settled (now : Z) (raw cooked : list Z) (n : nat) (g : globals) :
  wf cfg n g → length raw = n → length cooked = n →
  (∀ r c, (r < n)%nat → (c < MATRIX_COLS cfg)%nat →
          bit_at raw r c = bit_at cooked r c
          ∨ multiple_in_row_and_col g r c = Some true) →
  ∀ g' cooked',
    debounce cfg now raw cooked n false g = Some (g', cooked') → cooked' = cooked.
Proof.
  intros Hwf Hraw Hcooked Hsettled g' cooked' Hrun'.
  destruct (debounce_spec cfg cfg_ok now raw cooked n false g Hwf Hraw Hcooked)
    as (g_mid & g1 & cooked1 & _ & Hrun & _ & Hfm & Hdm & _ & Hlen & Hf & Hd & _ & _
        & Hhigh & Hcell).
  rewrite Hrun in Hrun'. injection Hrun' as <- <-.
  apply list_eq_total; [lia|]. intros r Hr. rewrite Hlen in Hr.
  apply (row_eq_bits (MATRIX_COLS cfg)); [|intros b Hb; apply Hhigh; exact Hb].
  intros c Hc. specialize (Hcell r c Hr Hc).
  rewrite (is_ambiguous_tables g g_mid r c) in Hcell by congruence.
  change (bit_at cooked1 r c = bit_at cooked r c).
  destruct (Hsettled r c Hr Hc) as [Hsame|Hghost].
  - unfold cell_step, fsm_step in Hcell. rewrite Hsame in Hcell.
    rewrite xorb_nilpotent in Hcell. cbn [negb] in Hcell.
    destruct (is_ambiguous g r c), (state (key_at cfg g r c));
      try destruct (_ <? _).
    all: injection Hcell as _ Hbit; exact Hbit.
  - rewrite (wf_ghost cfg n g r c Hwf Hr Hc) in Hghost. injection Hghost as Hghost.
    rewrite Hghost in Hcell. injection Hcell as _ Hbit. exact Hbit.
Qed.

(** A run of calls with [changed] false returns and keeps the ghost tables;
    it keeps the cooked grid too when the calls are settled. *)
Lemma debounce_idle_spec (n : nat) (calls : list (Z * list Z)) :
  Forall (λ call, length call.2 = n) calls →
  ∀ (g : globals) (cooked : list Z),
    wf cfg n g → length cooked = n →
    ∃ g' cooked',
      debounce_idle cfg calls cooked n g = Some (g', cooked')
      ∧ wf cfg n g' ∧ length cooked' = n
      ∧ flags_of g' = flags_of g ∧ down_in_col g' = down_in_col g
      ∧ (Forall (λ call, ∀ r c, (r < n)%nat → (c < MATRIX_COLS cfg)%nat →
                   bit_at call.2 r c = bit_at cooked r c
                   ∨ multiple_in_row_and_col g r c = Some true) calls →
         cooked' = cooked).
Proof.
  induction 1 as [|[now raw] rest Hraw _ IH]; intros g cooked Hwf Hcooked.
  - exists g, cooked. simpl. auto 10.
  - cbn [debounce_idle]. cbn [snd] in Hraw.
    destruct (debounce_spec cfg cfg_ok now raw cooked n false g Hwf Hraw Hcooked)
      as (_ & g1 & cooked1 & _ & Hrun & _ & _ & _ & Hwf1 & Hlen1 & Hf1 & Hd1 & _).
    rewrite Hrun. cbn [mbind option_bind].
    destruct (IH g1 cooked1 Hwf1 Hlen1)
      as (g' & cooked' & Hrun' & Hwf' & Hlen' & Hf' & Hd' & Hkeep).
    exists g', cooked'. split; [exact Hrun'|]. split; [exact Hwf'|].
    split; [exact Hlen'|]. split; [congruence|]. split; [congruence|].
    intros Hall. apply Forall_cons in Hall as [Hhead Htail]. cbn [snd] in Hhead.
    assert (Hsame : cooked1 = cooked)
      by exact (debounce_settled now raw cooked n g Hwf Hraw Hcooked Hhead g1 cooked1 Hrun).
    subst cooked1. apply Hkeep.
    eapply Forall_impl; [exact Htail|]. intros call Hcall r c Hr Hc.
    destruct (Hcall r c Hr Hc) as [?|Hghost]; [left; assumption|right].
    rewrite (wf_ghost cfg n g1 r c Hwf1 Hr Hc).
    rewrite (wf_ghost cfg n g r c Hwf Hr Hc) in Hghost.
    rewrite (is_ambiguous_tables g g1 r c) by assumption. exact Hghost.
Qed.

End Idle.

(** ** One key on an otherwise idle matrix *)

Section OneKeyGrid.

Variable n : nat.

Lemma key01_grid_length (down : bool) : length (key01_grid n down) = n.
Proof. unfold key01_grid. rewrite length_insert. apply length_replicate. Qed.

Lemma key01_grid_row (down : bool) (r : nat) :
  (r < n)%nat →
  key01_grid n down !!! r = if decide (r = O) then (if down then 2 else 0) else 0.
Proof.
  intros Hr. unfold key01_grid. case_decide as Hz.
  - subst r. apply list_lookup_total_insert_eq. rewrite length_replicate. lia.
  - rewrite list_lookup_total_insert_ne by congruence.
    apply lookup_total_replicate_2. assumption.
Qed.

Lemma testbit_2 (b : Z) : Z.testbit 2 b = (1 =? b).
Proof.
  destruct (Z.neg_nonneg_cases b) as [Hneg|Hpos].
  - rewrite Z.testbit_neg_r by assumption. symmetry. apply Z.eqb_neq. lia.
  - change 2 with (2 ^ 1). apply Z.pow2_bits_eqb. lia.
Qed.

Lemma key01_grid_bit (down : bool) (r c : nat) :
  (r < n)%nat →
  bit_at (key01_grid n down) r c
  = if decide (r = O ∧ c = 1%nat) then down else false.
Proof.
  intros Hr. unfold bit_at. rewrite (key01_grid_row down r Hr).
  destruct (decide (r = O)) as [->|Hne].
  - destruct down.
    + rewrite testbit_2. case_decide as Hc.
      * destruct Hc as [_ ->]. reflexivity.
      * apply Z.eqb_neq. intros Heq. apply Hc. split; [reflexivity|lia].
    + rewrite Z.bits_0. case_decide; reflexivity.
  - rewrite Z.bits_0. rewrite decide_False by (intros [? _]; contradiction).
    reflexivity.
Qed.

Lemma key01_grid_high (down : bool) (r : nat) (b : Z) :
  (r < n)%nat → 2 <= b → Z.testbit (key01_grid n down !!! r) b = false.
Proof.
  intros Hr Hb. rewrite (key01_grid_row down r Hr).
  destruct (decide (r = O)), down; rewrite ?Z.bits_0, ?testbit_2; try reflexivity.
  apply Z.eqb_neq. lia.
Qed.

Lemma key01_grid_flags (down : bool) :
  flag_of <$> key01_grid n down = replicate n 0.
Proof.
  apply list_eq_total.
  - rewrite length_fmap, key01_grid_length, length_replicate. reflexivity.
  - intros r Hr. rewrite length_fmap, key01_grid_length in Hr.
    rewrite lookup_total_replicate_2 by assumption.
    apply list_lookup_total_correct.
    rewrite list_lookup_fmap,
      (list_lookup_lookup_total_lt (key01_grid n down) r)
      by (rewrite key01_grid_length; assumption).
    rewrite (key01_grid_row down r Hr).
    destruct (decide (r = O)), down; reflexivity.
Qed.

End OneKeyGrid.

Section OneKey.

Variable cfg : config.
Hypothesis cfg_ok : config_ok cfg.
Hypothesis two_cols : (2 <= MATRIX_COLS cfg)%nat.

Variable n : nat.
Hypothesis some_row : (1 <= n)%nat.

Lemma key01_keys_length (k : key_state_t) :
  length (key01_keys cfg n k) = (n * MATRIX_COLS cfg)%nat.
Proof. unfold key01_keys. rewrite length_insert. apply length_replicate. Qed.

Lemma key01_keys_at (k : key_state_t) (r c : nat) :
  (r < n)%nat → (c < MATRIX_COLS cfg)%nat →
  key01_keys cfg n k !!! (r * MATRIX_COLS cfg + c)%nat
  = if decide (r = O ∧ c = 1%nat) then k else KeyState WAITING 0.
Proof.
  intros Hr Hc. unfold key01_keys. case_decide as Hrc.
  - destruct Hrc as [-> ->]. apply list_lookup_total_insert_eq.
    rewrite length_replicate. nia.
  - rewrite list_lookup_total_insert_ne.
    + apply lookup_total_replicate_2. nia.
    + intros Heq. apply Hrc. destruct r as [|r]; [split; [reflexivity|lia]|nia].
Qed.

(** One call on the one-key matrix: the key takes its automaton step, all
    else rests, and no cell is ever marked as a ghost. *)
Lemma key01_step (now : Z) (changed raw_bit cooked_bit : bool)
    (k : key_state_t) (g : globals) :
  wf cfg n g → flags_of g = replicate n 0 → keys_of g = key01_keys cfg n k →
  let e := u8 (get_elapsed cfg now g).1 in
  ∃ g',
    debounce cfg now (key01_grid n raw_bit) (key01_grid n cooked_bit) n changed g
    = Some (g', key01_grid n (fsm_step cfg raw_bit cooked_bit e k).2)
    ∧ wf cfg n g'
    ∧ flags_of g' = replicate n 0
    ∧ keys_of g' = key01_keys cfg n (fsm_step cfg raw_bit cooked_bit e k).1
    ∧ last_time_initialized g' = last_time_initialized (get_elapsed cfg now g).2
    ∧ last_time g' = last_time (get_elapsed cfg now g).2.
Proof.
  intros Hwf Hflags Hkeys e.
  destruct (debounce_spec cfg cfg_ok now (key01_grid n raw_bit)
              (key01_grid n cooked_bit) n changed g Hwf
              (key01_grid_length n _) (key01_grid_length n _))
    as (g_mid & g' & cooked' & _ & Hrun & Hwfm & Hfm & _ & Hwf' & Hlen & Hf' & _
        & Hti & Hlt & Hhigh & Hcell).
  assert (Hzero : flags_of g' = replicate n 0).
  { rewrite Hf'. destruct changed; [apply key01_grid_flags|exact Hflags]. }
  assert (Hcells : ∀ r c, (r < n)%nat → (c < MATRIX_COLS cfg)%nat →
    key_at cfg g' r c
    = (if decide (r = O ∧ c = 1%nat)
       then (fsm_step cfg raw_bit cooked_bit e k).1 else KeyState WAITING 0)
    ∧ bit_at cooked' r c
      = (if decide (r = O ∧ c = 1%nat)
         then (fsm_step cfg raw_bit cooked_bit e k).2 else false)).
  { intros r c Hr Hc. specialize (Hcell r c Hr Hc).
    assert (Hno : is_ambiguous g_mid r c = false).
    { unfold is_ambiguous. rewrite Hfm, Hzero.
      rewrite lookup_total_replicate_2 by assumption. reflexivity. }
    rewrite Hno in Hcell. unfold cell_step in Hcell.
    rewrite !key01_grid_bit in Hcell by assumption.
    unfold key_at in Hcell at 2. rewrite Hkeys, key01_keys_at in Hcell by assumption.
    fold e in Hcell. case_decide.
    - rewrite (surjective_pairing (fsm_step _ _ _ _ _)) in Hcell.
      injection Hcell as -> ->. auto.
    - injection Hcell as -> ->. auto. }
  assert (Hcooked : cooked' = key01_grid n (fsm_step cfg raw_bit cooked_bit e k).2).
  { apply list_eq_total; [rewrite key01_grid_length; exact Hlen|].
    intros r Hr. rewrite Hlen in Hr.
    apply (row_eq_bits (MATRIX_COLS cfg)).
    - intros c Hc. destruct (Hcells r c Hr Hc) as [_ Hb].
      change (bit_at cooked' r c = bit_at (key01_grid n (fsm_step cfg raw_bit cooked_bit e k).2) r c).
      rewrite Hb, key01_grid_bit by assumption. reflexivity.
    - intros b Hb. rewrite Hhigh by assumption.
      rewrite !key01_grid_high by (assumption || lia). reflexivity. }
  assert (Hkeys' : keys_of g' = key01_keys cfg n (fsm_step cfg raw_bit cooked_bit e k).1).
  { apply list_eq_total.
    - rewrite key01_keys_length. apply (wf_keys_len cfg n g' Hwf').
    - intros j Hj. rewrite (wf_keys_len cfg n g' Hwf') in Hj.
      assert (Hsplit : ∃ r c, (r < n)%nat ∧ (c < MATRIX_COLS cfg)%nat
                              ∧ j = (r * MATRIX_COLS cfg + c)%nat).
      { exists (j / MATRIX_COLS cfg)%nat, (j mod MATRIX_COLS cfg)%nat.
        split; [apply Nat.Div0.div_lt_upper_bound; lia|].
        split; [apply Nat.mod_upper_bound; lia|].
        rewrite Nat.mul_comm. apply Nat.div_mod_eq. }
      destruct Hsplit as (r & c & Hr & Hc & ->).
      destruct (Hcells r c Hr Hc) as [Hk _]. unfold key_at in Hk.
      rewrite Hk, key01_keys_at by assumption. reflexivity. }
  exists g'. rewrite Hrun, Hcooked. auto 10.
Qed.

Hypothesis by_time : DEBOUNCE_USE_FRAMES cfg = false.
Hypothesis timer_bits : 6 <= TIMER_BITS cfg.

(** A later call on the one-key matrix, [now - t] milliseconds after the
    previous one. *)
Lemma key01_tick (now t : Z) (changed raw_bit cooked_bit : bool)
    (k : key_state_t) (g : globals) :
  key01_state cfg n g k t → 0 <= now - t <= 63 →
  ∃ g',
    debounce cfg now (key01_grid n raw_bit) (key01_grid n cooked_bit) n changed g
    = Some (g', key01_grid n (fsm_step cfg raw_bit cooked_bit (now - t) k).2)
    ∧ key01_state cfg n g' (fsm_step cfg raw_bit cooked_bit (now - t) k).1 now.
Proof.
  intros (Hwf & Hflags & Hkeys & Hinit & Hlast) Hgap. subst t.
  destruct (elapsed_exact cfg by_time now g timer_bits Hinit Hgap) as (He & Hi & Hl).
  destruct (key01_step now changed raw_bit cooked_bit k g Hwf Hflags Hkeys)
    as (g' & Hrun & Hwf' & Hflags' & Hkeys' & Hti & Hlt).
  rewrite He in Hrun, Hkeys'.
  exists g'. split; [exact Hrun|].
  split; [exact Hwf'|]. split; [exact Hflags'|]. split; [exact Hkeys'|].
  split; congruence.
Qed.

(** The first call after [debounce_init]: the timer starts, one unit
    elapses. *)
Lemma key01_first (now : Z) (changed raw_bit : bool) (g0 : globals) :
  (n <= 255)%nat → length (down_in_col g0) = MATRIX_COLS cfg →
  ∃ g',
    debounce cfg now (key01_grid n raw_bit) (replicate n 0) n changed
      (init_state cfg n g0)
    = Some (g', key01_grid n (fsm_step cfg raw_bit false 1 (KeyState WAITING 0)).2)
    ∧ key01_state cfg n g' (fsm_step cfg raw_bit false 1 (KeyState WAITING 0)).1 now.
Proof.
  intros Hn Hcols.
  set (g := init_state cfg n g0).
  assert (Hfresh : last_time_initialized g = false)
    by (cbn; rewrite by_time; reflexivity).
  assert (Hclear : replicate n 0 = key01_grid n false).
  { unfold key01_grid. symmetry. apply list_insert_id.
    apply lookup_replicate_2. lia. }
  assert (Hrest : keys_of g = key01_keys cfg n (KeyState WAITING 0)).
  { unfold g. rewrite init_state_keys. unfold key01_keys. symmetry.
    apply list_insert_id. apply lookup_replicate_2. nia. }
  destruct (key01_step now changed raw_bit false (KeyState WAITING 0) g
              (init_state_wf cfg n g0 Hn Hcols) (init_state_flags cfg n g0) Hrest)
    as (g' & Hrun & Hwf' & Hflags' & Hkeys' & Hti & Hlt).
  rewrite (get_elapsed_first cfg by_time now g Hfresh) in Hrun, Hkeys', Hti, Hlt.
  cbn [fst snd] in Hrun, Hkeys', Hti, Hlt.
  change (u8 1) with 1 in Hrun, Hkeys'.
  exists g'. rewrite Hclear. split; [exact Hrun|].
  split; [exact Hwf'|]. split; [exact Hflags'|]. split; [exact Hkeys'|].
  split; assumption.
Qed.

End OneKey.

(** ** The scenarios of fancy_tests.cpp on the embedding

    Three rows of the default configuration; bit [c] of row [r] is key
    [(r, c)]. *)

Example ShortBounceIgnored :
  run_events default_config 3
    [(0, [2; 0; 0], true); (1, [0; 0; 0], true); (2, [0; 0; 0], false)]
    [0; 0; 0] (init_state default_config 3 (boot default_config))
  = Some [[0; 0; 0]; [0; 0; 0]; [0; 0; 0]].
Proof. vm_compute. reflexivity. Qed.

Example FastBounceOnPress :
  run_events default_config 3
    [(0, [2; 0; 0], true); (1, [0; 0; 0], true); (2, [2; 0; 0], true);
     (7, [2; 0; 0], false)]
    [0; 0; 0] (init_state default_config 3 (boot default_config))
  = Some [[0; 0; 0]; [0; 0; 0]; [0; 0; 0]; [2; 0; 0]].
Proof. vm_compute. reflexivity. Qed.

Example SlowBounceOnRelease :
  run_events default_config 3
    [(0, [2; 0; 0], true); (5, [2; 0; 0], false); (15, [0; 0; 0], true);
     (20, [2; 0; 0], true)]
    [0; 0; 0] (init_state default_config 3 (boot default_config))
  = Some [[0; 0; 0]; [2; 0; 0]; [2; 0; 0]; [2; 0; 0]].
Proof. vm_compute. reflexivity. Qed.

Example MultipleInColumnDontGhost :
  run_events default_config 3
    [(0, [1; 0; 0], true); (5, [1; 0; 0], false); (10, [1; 1; 0], true);
     (15, [1; 1; 0], false); (20, [1; 1; 1], true); (25, [1; 1; 1], false)]
    [0; 0; 0] (init_state default_config 3 (boot default_config))
  = Some [[0; 0; 0]; [1; 0; 0]; [1; 0; 0]; [1; 1; 0]; [1; 1; 0]; [1; 1; 1]].
Proof. vm_compute. reflexivity. Qed.

Example RowGhostsAreIgnored :
  run_events default_config 3
    [(0, [1; 0; 0], true); (5, [3; 0; 0], true); (10, [3; 0; 0], false);
     (15, [3; 3; 0], true)]
    [0; 0; 0] (init_state default_config 3 (boot default_config))
  = Some [[0; 0; 0]; [1; 0; 0]; [3; 0; 0]; [3; 0; 0]].
Proof. vm_compute. reflexivity. Qed.

Example ColOffsetGhostingIsIgnored :
  run_events default_config 3
    [(0, [1; 0; 0], true); (5, [1; 1; 0], true); (10, [1; 1; 0], false);
     (15, [3; 1; 0], true); (16, [3; 3; 0], true); (25, [1; 3; 0], true);
     (26, [1; 1; 0], true)]
    [0; 0; 0] (init_state default_config 3 (boot default_config))
  = Some [[0; 0; 0]; [1; 0; 0]; [1; 1; 0]; [1; 1; 0]; [1; 1; 0]; [1; 1; 0];
          [1; 1; 0]].
Proof. vm_compute. reflexivity. Qed.

(** Releasing twice after one initialisation, evaluated. *)
Example free_twice_after_init :
  (g ← debounce_init default_config 4 (boot default_config);
   g ← debounce_free default_config g;
   debounce_free default_config g)
  = None.
Proof. vm_compute. reflexivity. Qed.

(** Releasing without any initialisation frees two null pointers. *)
Example free_before_init :
  debounce_free default_config (boot default_config) = Some (boot default_config).
Proof. vm_compute. reflexivity. Qed.

(** * The claims *)

(** C1.  [debounce] on a live state returns, and every cell that the ghost
    query does not mark when the sweep starts (in [g_mid], after the
    conditional [ghost_compute]) takes exactly one step of the three-state
    machine [fsm_step]: WAITING with differing bits goes to DEBOUNCING with
    the press threshold when the raw bit is 1 and the release threshold when
    it is 0; DEBOUNCING returns to WAITING when the bits agree again, else
    counts [elapsed] down while [remaining > elapsed], else sets the cooked
    bit to the raw bit and goes to QUIESCING with [DEBOUNCE_QUIESCE];
    QUIESCING ignores the raw bit, counts down while [remaining > elapsed]
    and then returns to WAITING. *)
Theorem debounce_follows_fsm (cfg : config) (now : Z) (raw cooked : list Z)
    (n : nat) (changed : bool) (g : globals) :
  config_ok cfg → wf cfg n g → length raw = n → length cooked = n →
  ∃ g_mid g' cooked',
    (if changed then ghost_compute cfg raw n (get_elapsed cfg now g).2
     else Some (get_elapsed cfg now g).2) = Some g_mid
    ∧ debounce cfg now raw cooked n changed g = Some (g', cooked')
    ∧ ∀ r c, (r < n)%nat → (c < MATRIX_COLS cfg)%nat →
        multiple_in_row_and_col g_mid r c = Some false →
        (key_at cfg g' r c, bit_at cooked' r c)
        = fsm_step cfg (bit_at raw r c) (bit_at cooked r c)
            (u8 (get_elapsed cfg now g).1) (key_at cfg g r c).
Proof.
  intros Hok Hwf Hraw Hcooked.
  destruct (debounce_spec cfg Hok now raw cooked n changed g Hwf Hraw Hcooked)
    as (g_mid & g' & cooked' & Hpre & Hrun & Hwfm & _ & _ & _ & _ & _ & _ & _ & _ & _ & Hcell).
  exists g_mid, g', cooked'. split; [exact Hpre|]. split; [exact Hrun|].
  intros r c Hr Hc Hghost.
  rewrite (wf_ghost cfg n g_mid r c Hwfm Hr Hc) in Hghost.
  injection Hghost as Hghost.
  rewrite (Hcell r c Hr Hc), Hghost. reflexivity.
Qed.

Lemma debounce_follows_fsm_witness :
  let g := init_state default_config 1 (boot default_config) in
  ∃ g_mid g' cooked',
    ghost_compute default_config [2] 1 (get_elapsed default_config 0 g).2 = Some g_mid
    ∧ debounce default_config 0 [2] [0] 1 true g = Some (g', cooked')
    ∧ ∀ r c, (r < 1)%nat → (c < MATRIX_COLS default_config)%nat →
        multiple_in_row_and_col g_mid r c = Some false →
        (key_at default_config g' r c, bit_at cooked' r c)
        = fsm_step default_config (bit_at [2] r c) (bit_at [0] r c)
            (u8 (get_elapsed default_config 0 g).1) (key_at default_config g r c).
Proof.
  apply (debounce_follows_fsm default_config 0 [2] [0] 1 true
           (init_state default_config 1 (boot default_config))).
  - exact default_config_ok.
  - apply default_live. lia.
  - reflexivity.
  - reflexivity.
Defined.

(** C2.  [ghost_compute] on a grid of [n] rows returns; afterwards the flag
    of row [r] is nonzero exactly when [row & (row - 1)] is nonzero, which
    is exactly when the row has at least two bits set; the count of column
    [c] is the number of rows whose bit [c] is set; and the ghost query
    [multiple_in_row_and_col r c] holds exactly when the flag of [r] is
    nonzero and the count of [c] exceeds 1. *)
Theorem ghost_compute_tables (cfg : config) (raw : list Z) (n : nat) (g : globals) :
  wf cfg n g → length raw = n → Forall (λ row, 0 <= row) raw →
  ∃ g',
    ghost_compute cfg raw n g = Some g'
    ∧ (∀ r, (r < n)%nat →
         (flags_of g' !!! r ≠ 0 ↔ Z.land (raw !!! r) (raw !!! r - 1) ≠ 0)
         ∧ (flags_of g' !!! r ≠ 0 ↔ two_bits_set (raw !!! r)))
    ∧ (∀ c, (c < MATRIX_COLS cfg)%nat → down_in_col g' !!! c = down_count raw c)
    ∧ (∀ r c, (r < n)%nat → (c < MATRIX_COLS cfg)%nat →
         ∃ b, multiple_in_row_and_col g' r c = Some b
              ∧ (b = true ↔ flags_of g' !!! r ≠ 0 ∧ 1 < down_in_col g' !!! c)).
Proof.
  intros Hwf Hraw Hpos.
  destruct (ghost_compute_spec cfg n raw g Hwf Hraw) as (a & Ha & _ & Hrun).
  destruct (wf_ghost_state cfg n g a (flag_of <$> raw)
              (down_count raw <$> seq 0 (MATRIX_COLS cfg)) Hwf Ha)
    as (Hwf' & _ & Hflags).
  { rewrite length_fmap. exact Hraw. }
  { rewrite length_fmap, length_seq. reflexivity. }
  eexists. split; [exact Hrun|].
  assert (Hflag : ∀ r, (r < n)%nat →
            flags_of (ghost_state a (flag_of <$> raw)
                        (down_count raw <$> seq 0 (MATRIX_COLS cfg)) g) !!! r
            = flag_of (raw !!! r)).
  { intros r Hr. rewrite Hflags. apply list_lookup_total_correct.
    rewrite list_lookup_fmap, (list_lookup_lookup_total_lt raw r) by lia.
    reflexivity. }
  split; [|split].
  - intros r Hr. rewrite (Hflag r Hr). split.
    + unfold flag_of.
      destruct (Z.eqb_spec (Z.land (raw !!! r) (raw !!! r - 1)) 0); split;
        congruence || discriminate.
    + apply flag_of_two_bits.
      apply (proj1 (Forall_lookup _ raw) Hpos r).
      apply list_lookup_lookup_total_lt. lia.
  - intros c Hc. cbn [down_in_col ghost_state set_flags set_heap set_down_in_col].
    apply list_lookup_total_correct.
    rewrite list_lookup_fmap, lookup_seq_lt by lia. reflexivity.
  - intros r c Hr Hc. eexists. split; [apply (wf_ghost cfg n); assumption|].
    unfold is_ambiguous. rewrite andb_true_iff, negb_true_iff, Z.eqb_neq, Z.ltb_lt.
    reflexivity.
Qed.

Lemma ghost_compute_tables_witness :
  let g := init_state default_config 2 (boot default_config) in
  ∃ g',
    ghost_compute default_config [3; 6] 2 g = Some g'
    ∧ (∀ r, (r < 2)%nat →
         (flags_of g' !!! r ≠ 0 ↔ Z.land ([3; 6] !!! r) ([3; 6] !!! r - 1) ≠ 0)
         ∧ (flags_of g' !!! r ≠ 0 ↔ two_bits_set ([3; 6] !!! r)))
    ∧ (∀ c, (c < MATRIX_COLS default_config)%nat →
         down_in_col g' !!! c = down_count [3; 6] c)
    ∧ (∀ r c, (r < 2)%nat → (c < MATRIX_COLS default_config)%nat →
         ∃ b, multiple_in_row_and_col g' r c = Some b
              ∧ (b = true ↔ flags_of g' !!! r ≠ 0 ∧ 1 < down_in_col g' !!! c)).
Proof.
  apply (ghost_compute_tables default_config [3; 6] 2
           (init_state default_config 2 (boot default_config))).
  - apply default_live. lia.
  - reflexivity.
  - repeat constructor; lia.
Defined.

(** C3.  A cell that the ghost query marks when the sweep starts is
    skipped: its state, its counter and its cooked bit are what they were
    before the call, whatever the state and however much time elapsed. *)
Theorem ghost_cell_frozen (cfg : config) (now : Z) (raw cooked : list Z)
    (n : nat) (changed : bool) (g : globals) :
  config_ok cfg → wf cfg n g → length raw = n → length cooked = n →
  ∃ g_mid g' cooked',
    (if changed then ghost_compute cfg raw n (get_elapsed cfg now g).2
     else Some (get_elapsed cfg now g).2) = Some g_mid
    ∧ debounce cfg now raw cooked n changed g = Some (g', cooked')
    ∧ ∀ r c, (r < n)%nat → (c < MATRIX_COLS cfg)%nat →
        multiple_in_row_and_col g_mid r c = Some true →
        state (key_at cfg g' r c) = state (key_at cfg g r c)
        ∧ remaining (key_at cfg g' r c) = remaining (key_at cfg g r c)
        ∧ bit_at cooked' r c = bit_at cooked r c.
Proof.
  intros Hok Hwf Hraw Hcooked.
  destruct (debounce_spec cfg Hok now raw cooked n changed g Hwf Hraw Hcooked)
    as (g_mid & g' & cooked' & Hpre & Hrun & Hwfm & _ & _ & _ & _ & _ & _ & _ & _ & _ & Hcell).
  exists g_mid, g', cooked'. split; [exact Hpre|]. split; [exact Hrun|].
  intros r c Hr Hc Hghost.
  rewrite (wf_ghost cfg n g_mid r c Hwfm Hr Hc) in Hghost.
  injection Hghost as Hghost.
  specialize (Hcell r c Hr Hc). rewrite Hghost in Hcell.
  unfold cell_step in Hcell. injection Hcell as Hk Hb.
  rewrite Hk, Hb. auto.
Qed.

Lemma ghost_cell_frozen_witness :
  let g := init_state default_config 2 (boot default_config) in
  ∃ g_mid g' cooked',
    ghost_compute default_config [3; 3] 2 (get_elapsed default_config 0 g).2 = Some g_mid
    ∧ debounce default_config 0 [3; 3] [0; 0] 2 true g = Some (g', cooked')
    ∧ ∀ r c, (r < 2)%nat → (c < MATRIX_COLS default_config)%nat →
        multiple_in_row_and_col g_mid r c = Some true →
        state (key_at default_config g' r c) = state (key_at default_config g r c)
        ∧ remaining (key_at default_config g' r c)
          = remaining (key_at default_config g r c)
        ∧ bit_at cooked' r c = bit_at [0; 0] r c.
Proof.
  apply (ghost_cell_frozen default_config 0 [3; 3] [0; 0] 2 true
           (init_state default_config 2 (boot default_config))).
  - exact default_config_ok.
  - apply default_live. lia.
  - reflexivity.
  - reflexivity.
Defined.

(** C4.  The one-key scenario of the test OneKeyShort1, with the default
    thresholds (press and release 5, quiesce 30, milliseconds), on any
    matrix with at least one row and two columns, from the state
    [debounce_init] leaves and an all-clear cooked grid, whatever [changed]
    flags the caller passes: key (0,1) goes down at 0 ms; the calls at 0 ms
    and 5 ms make the cooked grid show exactly that key pressed at 5 ms and
    not before; after a call at 40 ms the key is released at 57 ms, and the
    calls at 57 ms and 62 ms make the cooked grid show it released at 62 ms
    and not before. *)
Theorem one_key_short (cfg : config) (n : nat) (g0 : globals)
    (c1 c2 c3 c4 c5 : bool) :
  config_ok cfg → DEBOUNCE_USE_FRAMES cfg = false →
  DEBOUNCE_DOWN cfg = 5 → DEBOUNCE_UP cfg = 5 → DEBOUNCE_QUIESCE cfg = 30 →
  (2 <= MATRIX_COLS cfg)%nat → 6 <= TIMER_BITS cfg → (1 <= n <= 255)%nat →
  length (down_in_col g0) = MATRIX_COLS cfg →
  let clear := replicate n 0 in
  let pressed := <[O := 2]> (replicate n 0) in
  ∃ g gA gB gC gD gE,
    debounce_init cfg n g0 = Some g
    ∧ keys_of g = replicate (n * MATRIX_COLS cfg) (KeyState WAITING 0)
    ∧ debounce cfg 0 pressed clear n c1 g = Some (gA, clear)
    ∧ debounce cfg 5 pressed clear n c2 gA = Some (gB, pressed)
    ∧ debounce cfg 40 pressed pressed n c3 gB = Some (gC, pressed)
    ∧ debounce cfg 57 clear pressed n c4 gC = Some (gD, pressed)
    ∧ debounce cfg 62 clear pressed n c5 gD = Some (gE, clear)
    ∧ ∀ r c, (r < n)%nat →
        bit_at clear r c = false
        ∧ (bit_at pressed r c = true ↔ r = O ∧ c = 1%nat).
Proof.
  intros Hok Htime Hdown Hup Hq Hcols Htimer [Hrow Hmax] Hlen. cbv zeta.
  change (<[O := 2]> (replicate n 0)) with (key01_grid n true).
  assert (Hclear : key01_grid n false = replicate n 0).
  { unfold key01_grid. apply list_insert_id. apply lookup_replicate_2. lia. }
  assert (E1 : fsm_step cfg true false 1 (KeyState WAITING 0)
               = (KeyState DEBOUNCING 5, false))
    by (unfold fsm_step; cbn; rewrite Hdown; reflexivity).
  assert (E2 : fsm_step cfg true false (5 - 0) (KeyState DEBOUNCING 5)
               = (KeyState QUIESCING 30, true))
    by (unfold fsm_step; cbn; rewrite Hq; reflexivity).
  assert (E3 : fsm_step cfg true true (40 - 5) (KeyState QUIESCING 30)
               = (KeyState WAITING 30, true)) by reflexivity.
  assert (E4 : fsm_step cfg false true (57 - 40) (KeyState WAITING 30)
               = (KeyState DEBOUNCING 5, true))
    by (unfold fsm_step; cbn; rewrite Hup; reflexivity).
  assert (E5 : fsm_step cfg false true (62 - 57) (KeyState DEBOUNCING 5)
               = (KeyState QUIESCING 30, false))
    by (unfold fsm_step; cbn; rewrite Hq; reflexivity).
  destruct (key01_first cfg Hok Hcols n Hrow Htime 0 c1 true g0 Hmax Hlen)
    as (gA & HrunA & HstA).
  rewrite E1 in HrunA, HstA. cbn [fst snd] in HrunA, HstA.
  destruct (key01_tick cfg Hok Hcols n Hrow Htime Htimer 5 0 c2 true false _ gA HstA
              ltac:(lia)) as (gB & HrunB & HstB).
  rewrite E2 in HrunB, HstB. cbn [fst snd] in HrunB, HstB.
  destruct (key01_tick cfg Hok Hcols n Hrow Htime Htimer 40 5 c3 true true _ gB HstB
              ltac:(lia)) as (gC & HrunC & HstC).
  rewrite E3 in HrunC, HstC. cbn [fst snd] in HrunC, HstC.
  destruct (key01_tick cfg Hok Hcols n Hrow Htime Htimer 57 40 c4 false true _ gC HstC
              ltac:(lia)) as (gD & HrunD & HstD).
  rewrite E4 in HrunD, HstD. cbn [fst snd] in HrunD, HstD.
  destruct (key01_tick cfg Hok Hcols n Hrow Htime Htimer 62 57 c5 false true _ gD HstD
              ltac:(lia)) as (gE & HrunE & _).
  rewrite E5 in HrunE. cbn [fst snd] in HrunE.
  rewrite Hclear in HrunA, HrunB, HrunD, HrunE.
  exists (init_state cfg n g0), gA, gB, gC, gD, gE.
  split; [apply debounce_init_spec|]. split; [apply init_state_keys|].
  split; [exact HrunA|].
  split; [exact HrunB|]. split; [exact HrunC|]. split; [exact HrunD|].
  split; [exact HrunE|].
  intros r c Hr. rewrite <- Hclear. rewrite !key01_grid_bit by assumption.
  split; [case_decide; reflexivity|].
  case_decide; split; auto; discriminate.
Qed.

Lemma one_key_short_witness :
  let clear := replicate 4 0 in
  let pressed := <[O := 2]> (replicate 4 0) in
  ∃ g gA gB gC gD gE,
    debounce_init default_config 4 (boot default_config) = Some g
    ∧ keys_of g = replicate (4 * MATRIX_COLS default_config) (KeyState WAITING 0)
    ∧ debounce default_config 0 pressed clear 4 true g = Some (gA, clear)
    ∧ debounce default_config 5 pressed clear 4 false gA = Some (gB, pressed)
    ∧ debounce default_config 40 pressed pressed 4 false gB = Some (gC, pressed)
    ∧ debounce default_config 57 clear pressed 4 true gC = Some (gD, pressed)
    ∧ debounce default_config 62 clear pressed 4 false gD = Some (gE, clear)
    ∧ ∀ r c, (r < 4)%nat →
        bit_at clear r c = false
        ∧ (bit_at pressed r c = true ↔ r = O ∧ c = 1%nat).
Proof.
  apply (one_key_short default_config 4 (boot default_config) true false false true false).
  - exact default_config_ok.
  - reflexivity.
  - reflexivity.
  - reflexivity.
  - reflexivity.
  - simpl. lia.
  - simpl. lia.
  - lia.
  - reflexivity.
Defined.

(** C5, as the specification words it, fails: a change that is pending
    completes during a call with [changed] false on an unchanged raw grid.
    One key goes down and is reported at 0 ms with [changed] set; the raw
    grid then stays as it is, and the call at 5 ms with [changed] false
    sets the key's cooked bit. *)
Lemma idle_keeps_cooked_fails : ¬ idle_keeps_cooked default_config.
Proof.
  intros Hclaim.
  set (g0 := init_state default_config 1 (boot default_config)).
  destruct (debounce_spec default_config default_config_ok 0 [2] [0] 1 true g0
              (default_live 1 ltac:(lia)) eq_refl eq_refl)
    as (_ & g & cooked & _ & Hpress & _ & _ & _ & Hwf & _).
  assert (Hcooked : cooked = [0]).
  { assert (Hc : snd <$> debounce default_config 0 [2] [0] 1 true g0 = Some [0])
      by (vm_compute; reflexivity).
    rewrite Hpress in Hc. injection Hc as Hc. exact Hc. }
  subst cooked.
  assert (Hrun : ∃ g',
            debounce_idle default_config ((λ now, (now, [2])) <$> [5]) [0] 1 g
            = Some (g', [2])).
  { assert (Hc : (debounce default_config 0 [2] [0] 1 true g0
                  ≫= λ st, snd <$> debounce_idle default_config [(5, [2])] st.2 1 st.1)
                 = Some [2])
      by (vm_compute; reflexivity).
    rewrite Hpress in Hc. cbn [mbind option_bind fst snd] in Hc.
    cbn [fmap list_fmap].
    destruct (debounce_idle default_config [(5, [2])] [0] 1 g) as [[g' c']|];
      cbn in Hc; [|discriminate Hc].
    injection Hc as ->. exists g'. reflexivity. }
  destruct Hrun as [g' Hrun].
  destruct (Hclaim 1%nat g g' [2] [0] [2] [5] Hwf eq_refl eq_refl Hrun) as [Heq _].
  discriminate Heq.
Qed.

(** C5, amended.  Calls with [changed] false on an unchanged raw grid
    return and never rewrite the ghost tables; they never change the cooked
    grid when every cell whose raw bit differs from its cooked bit is one
    the (stale) ghost tables mark. *)
Theorem idle_keeps_settled_cooked (cfg : config) (n : nat) (g : globals)
    (raw cooked : list Z) (nows : list Z) :
  config_ok cfg → wf cfg n g → length raw = n → length cooked = n →
  ∃ g' cooked',
    debounce_idle cfg ((λ now, (now, raw)) <$> nows) cooked n g = Some (g', cooked')
    ∧ flags_of g' = flags_of g
    ∧ down_in_col g' = down_in_col g
    ∧ ((∀ r c, (r < n)%nat → (c < MATRIX_COLS cfg)%nat →
          bit_at raw r c = bit_at cooked r c
          ∨ multiple_in_row_and_col g r c = Some true) →
       cooked' = cooked).
Proof.
  intros Hok Hwf Hraw Hcooked.
  destruct (debounce_idle_spec cfg Hok n ((λ now, (now, raw)) <$> nows)) with
    (g := g) (cooked := cooked)
    as (g' & cooked' & Hrun & _ & _ & Hf & Hd & Hkeep); try assumption.
  { apply Forall_fmap, Forall_true. intros now. exact Hraw. }
  exists g', cooked'. split; [exact Hrun|]. split; [exact Hf|]. split; [exact Hd|].
  intros Hsettled. apply Hkeep.
  apply Forall_fmap, Forall_true. intros now. exact Hsettled.
Qed.

Lemma idle_keeps_settled_cooked_witness :
  let g := init_state default_config 1 (boot default_config) in
  ∃ g' cooked',
    debounce_idle default_config ((λ now, (now, [0])) <$> [0; 5]) [0] 1 g
    = Some (g', cooked')
    ∧ flags_of g' = flags_of g
    ∧ down_in_col g' = down_in_col g
    ∧ ((∀ r c, (r < 1)%nat → (c < MATRIX_COLS default_config)%nat →
          bit_at [0] r c = bit_at [0] r c
          ∨ multiple_in_row_and_col g r c = Some true) →
       cooked' = [0]).
Proof.
  apply (idle_keeps_settled_cooked default_config 1
           (init_state default_config 1 (boot default_config)) [0] [0] [0; 5]).
  - exact default_config_ok.
  - apply default_live. lia.
  - reflexivity.
  - reflexivity.
Defined.

(** C6.  [debounce_free] after [debounce_init] releases both blocks: the
    heap is what it was before the initialisation.  It clears [key_states]
    but leaves [multiple_in_row] pointing at the released block, so a second
    [debounce_free] frees that block again: undefined behaviour. *)
Theorem debounce_free_twice (cfg : config) (n : nat) (g0 : globals) :
  ∃ g1 g2,
    debounce_init cfg n g0 = Some g1
    ∧ debounce_free cfg g1 = Some g2
    ∧ heap g2 = heap g0
    ∧ key_states g2 = None
    ∧ multiple_in_row g2 = multiple_in_row g1
    ∧ debounce_free cfg g2 = None.
Proof.
  destruct (init_state_addresses n g0) as (H1 & H2 & Hne).
  set (a1 := fresh (dom (heap g0))) in *.
  set (h1 := <[a1 := Bytes (replicate n 0)]> (heap g0)) in *.
  set (a2 := fresh (dom h1)) in *.
  set (ks := KeyStates (replicate (n * MATRIX_COLS cfg) (KeyState WAITING 0))).
  assert (Hfree1 : ∃ g2,
    debounce_free cfg (init_state cfg n g0) = Some g2
    ∧ heap g2 = heap g0 ∧ key_states g2 = None ∧ multiple_in_row g2 = Some a1).
  { unfold debounce_free, ghost_free, free, init_state.
    cbn [key_states heap multiple_in_row set_heap set_key_states].
    fold a1 h1 a2 ks. rewrite lookup_insert_eq. cbn [mbind option_bind].
    rewrite delete_insert_eq.
    assert (Hl : delete a2 h1 !! a1 = Some (Bytes (replicate n 0)))
      by (rewrite lookup_delete_ne by congruence; apply lookup_insert_eq).
    rewrite Hl. cbn [mbind option_bind]. eexists. split; [reflexivity|].
    split; [|split].
    - unfold time_free. assert (Hh : delete a1 (delete a2 h1) = heap g0).
      { unfold h1. rewrite delete_insert_ne by congruence.
        rewrite delete_insert_eq.
        rewrite (delete_id (heap g0) a2 H2). apply delete_id. exact H1. }
      destruct (DEBOUNCE_USE_FRAMES cfg); cbn [heap set_timer set_heap]; exact Hh.
    - unfold time_free. destruct (DEBOUNCE_USE_FRAMES cfg); reflexivity.
    - unfold time_free. destruct (DEBOUNCE_USE_FRAMES cfg); reflexivity. }
  destruct Hfree1 as (g2 & Hfree & Hheap & Hkeys & Hflags).
  exists (init_state cfg n g0), g2.
  split; [apply debounce_init_spec|]. split; [exact Hfree|].
  split; [exact Hheap|]. split; [exact Hkeys|]. split; [exact Hflags|].
  unfold debounce_free, ghost_free, free. rewrite Hkeys.
  cbn [mbind option_bind multiple_in_row heap set_heap set_key_states].
  rewrite Hflags, Hheap, H1. reflexivity.
Qed.

(** C7.  Under the time-based policy the first [get_elapsed] after
    [debounce_init] returns 1, every later call returns the wraparound-safe
    difference to the previous timestamp saturated at 255, and no call, in
    any state, returns more than 255. *)
Theorem get_elapsed_saturates (cfg : config) (n : nat) (g0 : globals)
    (now : Z) (nows : list Z) :
  config_ok cfg → DEBOUNCE_USE_FRAMES cfg = false →
  ∃ g,
    debounce_init cfg n g0 = Some g
    ∧ (get_elapsed cfg now g).1 = 1
    ∧ elapsed_trace cfg (now :: nows) g = 1 :: saturated_diffs cfg now nows
    ∧ ∀ g' now', 0 <= (get_elapsed cfg now' g').1 <= 255.
Proof.
  intros Hok Htime. exists (init_state cfg n g0).
  split; [apply debounce_init_spec|].
  assert (Hfresh : last_time_initialized (init_state cfg n g0) = false)
    by (cbn; rewrite Htime; reflexivity).
  split; [rewrite (get_elapsed_first cfg Htime now _ Hfresh); reflexivity|].
  split; [|intros g' now'; apply get_elapsed_range; assumption].
  cbn [elapsed_trace]. rewrite (get_elapsed_first cfg Htime now _ Hfresh).
  f_equal. rewrite (elapsed_trace_later cfg Htime) by reflexivity. reflexivity.
Qed.

Lemma get_elapsed_saturates_witness :
  ∃ g,
    debounce_init default_config 4 (boot default_config) = Some g
    ∧ (get_elapsed default_config 7 g).1 = 1
    ∧ elapsed_trace default_config [7; 12; 1000; 3] g = [1; 5; 255; 255]
    ∧ ∀ g' now', 0 <= (get_elapsed default_config now' g').1 <= 255.
Proof.
  apply (get_elapsed_saturates default_config 4 (boot default_config) 7 [12; 1000; 3]).
  - split; simpl; lia.
  - reflexivity.
Defined.

(** C8.  The 8-bit counter never underflows.  In the two counting branches
    of the switch (DEBOUNCING with the bits still differing, QUIESCING) the
    stored [uint8_t] difference is the exact difference and stays positive
    when [remaining > elapsed]; when [remaining <= elapsed], so also when
    they are equal, the transition fires instead; and outside
    [remaining > elapsed] in a counting branch nothing is subtracted: the
    counter is kept or reloaded with a threshold. *)
Theorem remaining_never_wraps (cfg : config)
    (raw_row delta col_mask elapsed cooked_row : Z) (k : key_state_t) :
  0 <= remaining k <= 255 → 0 <= elapsed <= 255 →
  let k' := (key_step cfg raw_row delta col_mask elapsed k cooked_row).1 in
  let counting :=
    (state k = DEBOUNCING ∧ Z.land delta col_mask ≠ 0) ∨ state k = QUIESCING in
  (counting → elapsed < remaining k →
     state k' = state k
     ∧ remaining k' = remaining k - elapsed
     ∧ 0 < remaining k' <= 255)
  ∧ (counting → remaining k <= elapsed →
     state k' = match state k with DEBOUNCING => QUIESCING | _ => WAITING end)
  ∧ (¬ (counting ∧ elapsed < remaining k) →
     remaining k' = remaining k
     ∨ remaining k' = u8 (DEBOUNCE_DOWN cfg)
     ∨ remaining k' = u8 (DEBOUNCE_UP cfg)
     ∨ remaining k' = u8 (DEBOUNCE_QUIESCE cfg)).
Proof.
  intros Hrem Hel. cbv zeta. unfold key_step.
  destruct k as [st rem]. cbn [state remaining] in *.
  destruct st;
    destruct (Z.eqb_spec (Z.land delta col_mask) 0) as [Hz|Hnz];
    try destruct (Z.eqb_spec (Z.land raw_row col_mask) 0);
    destruct (Z.ltb_spec elapsed rem) as [Hlt|Hge];
    cbn [fst state remaining];
    rewrite ?(u8_small (rem - elapsed)) by lia;
    (split; [intros [[? ?]|?] ?; try congruence; try lia; repeat split; lia|]);
    (split; [intros [[? ?]|?] ?; try congruence; try lia; reflexivity|]);
    intros Hno; auto;
    exfalso; apply Hno; split; auto.
Qed.

Lemma remaining_never_wraps_witness :
  let k := KeyState DEBOUNCING 5 in
  let k' := (key_step default_config 2 2 2 5 k 0).1 in
  state k' = QUIESCING.
Proof.
  pose proof (remaining_never_wraps default_config 2 2 2 5 0 (KeyState DEBOUNCING 5)
                ltac:(simpl; lia) ltac:(lia)) as (_ & Hfire & _).
  apply Hfire.
  - left. split; [reflexivity|]. vm_compute. discriminate.
  - simpl. lia.
Defined.

(** C9.  Between [debounce_init] and the first call with [changed] set the
    flag block is all zeros, whatever counts [down_in_col] kept from
    before: the ghost query is false for every row of the grid and any
    column, and every cell of every call takes its automaton step, none is
    skipped. *)
Theorem no_ghost_before_first_change (cfg : config) (n : nat) (g0 : globals)
    (calls : list (Z * list Z)) (cooked : list Z) :
  config_ok cfg → (n <= 255)%nat →
  length (down_in_col g0) = MATRIX_COLS cfg →
  length cooked = n → Forall (λ call, length call.2 = n) calls →
  ∃ g1 g cooked',
    debounce_init cfg n g0 = Some g1
    ∧ debounce_idle cfg calls cooked n g1 = Some (g, cooked')
    ∧ flags_of g = replicate n 0
    ∧ down_in_col g = down_in_col g0
    ∧ (∀ r c, (r < n)%nat → multiple_in_row_and_col g r c = Some false)
    ∧ ∀ now raw, length raw = n →
        ∃ g' cooked'',
          debounce cfg now raw cooked' n false g = Some (g', cooked'')
          ∧ ∀ r c, (r < n)%nat → (c < MATRIX_COLS cfg)%nat →
              (key_at cfg g' r c, bit_at cooked'' r c)
              = fsm_step cfg (bit_at raw r c) (bit_at cooked' r c)
                  (u8 (get_elapsed cfg now g).1) (key_at cfg g r c).
Proof.
  intros Hok Hn Hcols Hcooked Hcalls.
  pose proof (init_state_wf cfg n g0 Hn Hcols) as Hwf1.
  destruct (debounce_idle_spec cfg Hok n calls Hcalls (init_state cfg n g0) cooked
              Hwf1 Hcooked)
    as (g & cooked' & Hrun & Hwf & Hlen & Hf & Hd & _).
  rewrite init_state_flags in Hf.
  exists (init_state cfg n g0), g, cooked'.
  split; [apply debounce_init_spec|]. split; [exact Hrun|].
  split; [exact Hf|]. split; [exact Hd|].
  split; [intros r c Hr; apply (zero_flags_no_ghost cfg n); assumption|].
  intros now raw Hraw.
  destruct (debounce_spec cfg Hok now raw cooked' n false g Hwf Hraw Hlen)
    as (g_mid & g' & cooked'' & _ & Hrun' & Hwfm & Hfm & _ & _ & _ & Hf' & _ & _ & _
        & _ & Hcell).
  exists g', cooked''. split; [exact Hrun'|].
  intros r c Hr Hc. rewrite (Hcell r c Hr Hc).
  assert (Hno : multiple_in_row_and_col g_mid r c = Some false)
    by (apply (zero_flags_no_ghost cfg n); [assumption|congruence|assumption]).
  rewrite (wf_ghost cfg n g_mid r c Hwfm Hr Hc) in Hno. injection Hno as ->.
  reflexivity.
Qed.

Lemma no_ghost_before_first_change_witness :
  let stale := set_down_in_col [3; 3; 0; 2; 0; 0; 0; 0; 0; 0] (boot default_config) in
  ∃ g1 g cooked',
    debounce_init default_config 2 stale = Some g1
    ∧ debounce_idle default_config [(0, [3; 3]); (9, [3; 3])] [0; 0] 2 g1
      = Some (g, cooked')
    ∧ flags_of g = replicate 2 0
    ∧ down_in_col g = down_in_col stale
    ∧ (∀ r c, (r < 2)%nat → multiple_in_row_and_col g r c = Some false)
    ∧ ∀ now raw, length raw = 2%nat →
        ∃ g' cooked'',
          debounce default_config now raw cooked' 2 false g = Some (g', cooked'')
          ∧ ∀ r c, (r < 2)%nat → (c < MATRIX_COLS default_config)%nat →
              (key_at default_config g' r c, bit_at cooked'' r c)
              = fsm_step default_config (bit_at raw r c) (bit_at cooked' r c)
                  (u8 (get_elapsed default_config now g).1)
                  (key_at default_config g r c).
Proof.
  apply (no_ghost_before_first_change default_config 2
           (set_down_in_col [3; 3; 0; 2; 0; 0; 0; 0; 0; 0] (boot default_config))
           [(0, [3; 3]); (9, [3; 3])] [0; 0]).
  - split; simpl; lia.
  - lia.
  - reflexivity.
  - reflexivity.
  - repeat constructor.
Defined.

(** C10.  In a sweep a cell's cooked bit changes only in the acceptance
    step: the cell is not marked as a ghost, it is DEBOUNCING, its raw bit
    still differs from its cooked bit and [remaining <= elapsed].  Then the
    cooked bit becomes the raw bit, the state QUIESCING and the counter
    [DEBOUNCE_QUIESCE].  In every other case (a marked cell, WAITING,
    QUIESCING, DEBOUNCING with time left or with the bits agreeing again)
    the cooked bit is unchanged. *)
Theorem cooked_changes_only_on_accept (cfg : config) (now : Z)
    (raw cooked : list Z) (n : nat) (changed : bool) (g : globals) :
  config_ok cfg → wf cfg n g → length raw = n → length cooked = n →
  ∃ g_mid g' cooked',
    (if changed then ghost_compute cfg raw n (get_elapsed cfg now g).2
     else Some (get_elapsed cfg now g).2) = Some g_mid
    ∧ debounce cfg now raw cooked n changed g = Some (g', cooked')
    ∧ ∀ r c, (r < n)%nat → (c < MATRIX_COLS cfg)%nat →
        let k := key_at cfg g r c in
        let k' := key_at cfg g' r c in
        let elapsed := u8 (get_elapsed cfg now g).1 in
        let accept :=
          multiple_in_row_and_col g_mid r c = Some false
          ∧ state k = DEBOUNCING
          ∧ bit_at raw r c ≠ bit_at cooked r c
          ∧ remaining k <= elapsed in
        (bit_at cooked' r c ≠ bit_at cooked r c → accept)
        ∧ (accept →
             bit_at cooked' r c = bit_at raw r c
             ∧ state k' = QUIESCING
             ∧ remaining k' = DEBOUNCE_QUIESCE cfg)
        ∧ (multiple_in_row_and_col g_mid r c = Some true
           ∨ state k = WAITING
           ∨ state k = QUIESCING
           ∨ (state k = DEBOUNCING
              ∧ (elapsed < remaining k ∨ bit_at raw r c = bit_at cooked r c)) →
           bit_at cooked' r c = bit_at cooked r c).
Proof.
  intros Hok Hwf Hraw Hcooked.
  destruct (debounce_spec cfg Hok now raw cooked n changed g Hwf Hraw Hcooked)
    as (g_mid & g' & cooked' & Hpre & Hrun & Hwfm & _ & _ & _ & _ & _ & _ & _ & _ & _ & Hcell).
  exists g_mid, g', cooked'. split; [exact Hpre|]. split; [exact Hrun|].
  intros r c Hr Hc. cbv zeta.
  rewrite (wf_ghost cfg n g_mid r c Hwfm Hr Hc).
  specialize (Hcell r c Hr Hc). revert Hcell.
  generalize (u8 (get_elapsed cfg now g).1) as elapsed.
  generalize (key_at cfg g' r c) as k'.
  destruct (key_at cfg g r c) as [st rem].
  intros k' elapsed Hcell.
  unfold cell_step, fsm_step in Hcell. cbn [state remaining] in *.
  destruct (is_ambiguous g_mid r c), st, (bit_at raw r c), (bit_at cooked r c);
    cbn [xorb negb] in Hcell;
    try destruct (Z.ltb_spec elapsed rem);
    injection Hcell as -> ->; cbn [state remaining];
    (split; [intros Hch; try congruence; repeat split; congruence || lia|]);
    (split; [intros (Hg & Hs & Hb & Hle); try congruence; try lia; auto|]);
    intros Hcases; try reflexivity; exfalso;
    destruct Hcases as [?|[?|[?|[_ [?|?]]]]]; congruence || lia.
Qed.

Lemma cooked_changes_only_on_accept_witness :
  let g := init_state default_config 1 (boot default_config) in
  ∃ g_mid g' cooked',
    Some (get_elapsed default_config 0 g).2 = Some g_mid
    ∧ debounce default_config 0 [2] [0] 1 false g = Some (g', cooked')
    ∧ ∀ r c, (r < 1)%nat → (c < MATRIX_COLS default_config)%nat →
        let k := key_at default_config g r c in
        let k' := key_at default_config g' r c in
        let elapsed := u8 (get_elapsed default_config 0 g).1 in
        let accept :=
          multiple_in_row_and_col g_mid r c = Some false
          ∧ state k = DEBOUNCING
          ∧ bit_at [2] r c ≠ bit_at [0] r c
          ∧ remaining k <= elapsed in
        (bit_at cooked' r c ≠ bit_at [0] r c → accept)
        ∧ (accept →
             bit_at cooked' r c = bit_at [2] r c
             ∧ state k' = QUIESCING
             ∧ remaining k' = DEBOUNCE_QUIESCE default_config)
        ∧ (multiple_in_row_and_col g_mid r c = Some true
           ∨ state k = WAITING
           ∨ state k = QUIESCING
           ∨ (state k = DEBOUNCING
              ∧ (elapsed < remaining k ∨ bit_at [2] r c = bit_at [0] r c)) →
           bit_at cooked' r c = bit_at [0] r c).
Proof.
  apply (cooked_changes_only_on_accept default_config 0 [2] [0] 1 false
           (init_state default_config 1 (boot default_config))).
  - exact default_config_ok.
  - apply default_live. lia.
  - reflexivity.
  - reflexivity.
Defined.

(** * Further properties of the debounce core *)

(** ** Memory: what a call touches *)

Section Memory.

Variable cfg : config.
Hypothesis cfg_ok : config_ok cfg.

(** The state a call of [debounce] leaves, block by block: the key block
    rewritten, the flag block rewritten when [changed] is set, every pointer
    and every other block as before. *)
Lemma debounce_heap (now : Z) (raw cooked : list Z) (n : nat) (changed : bool)
    (g : globals) :
  wf cfg n g → length raw = n → length cooked = n →
  ∃ g' cooked' ka fa ks' l',
    debounce cfg now raw cooked n changed g = Some (g', cooked')
    ∧ key_states g = Some ka ∧ multiple_in_row g = Some fa
    ∧ key_states g' = Some ka ∧ multiple_in_row g' = Some fa
    ∧ heap g' = <[ka := KeyStates ks']> (<[fa := Bytes l']> (heap g)).
Proof.
  intros Hwf Hraw Hcooked.
  destruct (get_elapsed_wf cfg now n g Hwf) as (Hwf1 & _ & Hflags1).
  destruct (get_elapsed_frame cfg now g) as (Hm1 & _ & Hk1 & Hh1).
  pose proof (get_elapsed_nonneg cfg now g) as [Hel _].
  pose proof Hwf as [_ (fa & Hfa & Hfblk) _ (ka & Hka & Hkblk) _ _ _].
  unfold debounce.
  destruct (get_elapsed cfg now g) as [e g1]. cbn [fst snd] in *.
  assert (Hpre : ∃ g2 l',
    (if changed then ghost_compute cfg raw n g1 else Some g1) = Some g2
    ∧ wf cfg n g2 ∧ key_states g2 = Some ka ∧ multiple_in_row g2 = Some fa
    ∧ heap g2 = <[fa := Bytes l']> (heap g)).
  { destruct changed.
    - destruct (ghost_compute_spec cfg n raw g1 Hwf1 Hraw) as (a & Ha & _ & Hrun).
      assert (a = fa) by congruence. subst a.
      destruct (wf_ghost_state cfg n g1 fa (flag_of <$> raw)
                  (down_count raw <$> seq 0 (MATRIX_COLS cfg)) Hwf1 Ha)
        as (Hwf2 & _ & _).
      { rewrite length_fmap. exact Hraw. }
      { rewrite length_fmap, length_seq. reflexivity. }
      eexists _, (flag_of <$> raw). split; [exact Hrun|]. split; [exact Hwf2|].
      cbn. rewrite Hk1, Hm1, Hh1. auto.
    - exists g1, (flags_of g). split; [reflexivity|]. split; [exact Hwf1|].
      rewrite Hk1, Hm1, Hh1, (insert_id (heap g) fa _ Hfblk). auto. }
  destruct Hpre as (g2 & l' & Hrun2 & Hwf2 & Hk2 & Hm2 & Hh2).
  rewrite Hrun2. cbn [mbind option_bind].
  pose proof Hwf2 as [_ _ _ (ka' & Hka' & Hkblk2) Hklen Hkc _].
  assert (ka' = ka) by congruence. subst ka'.
  destruct (debounce_rows_spec cfg cfg_ok g2 ka (keys_of g2) raw (u8 e)
              (is_ambiguous g2) Hkblk2 Hel n O (keys_of g2) cooked)
    as (ks' & cooked' & Hrun & _); try assumption; try lia.
  { intros r c Hr Hc. apply (wf_ghost cfg n); [assumption|lia|assumption]. }
  rewrite (wf_set_keys_id cfg n g2 ka Hwf2 Hk2) in Hrun.
  rewrite Hk2. change (0 * MATRIX_COLS cfg)%nat with O in Hrun.
  exists (set_keys ka ks' g2), cooked', ka, fa, ks', l'.
  split; [exact Hrun|]. cbn. rewrite Hk2, Hm2, Hh2. auto 10.
Qed.

End Memory.

(** On a live state, with caller arrays of [num_rows] rows, [debounce]
    stays inside its two blocks: it returns, leaves the state live, keeps
    both pointers, allocates and frees nothing and leaves every other block
    of the heap as it was. *)
Theorem debounce_memory_safe (cfg : config) (now : Z) (raw cooked : list Z)
    (n : nat) (changed : bool) (g : globals) :
  config_ok cfg → wf cfg n g → length raw = n → length cooked = n →
  ∃ g' cooked',
    debounce cfg now raw cooked n changed g = Some (g', cooked')
    ∧ wf cfg n g' ∧ length cooked' = n
    ∧ key_states g' = key_states g
    ∧ multiple_in_row g' = multiple_in_row g
    ∧ dom (heap g') = dom (heap g)
    ∧ ∀ a, key_states g ≠ Some a → multiple_in_row g ≠ Some a →
        heap g' !! a = heap g !! a.
Proof.
  intros Hok Hwf Hraw Hcooked.
  destruct (debounce_heap cfg Hok now raw cooked n changed g Hwf Hraw Hcooked)
    as (g' & cooked' & ka & fa & ks' & l' & Hrun & Hka & Hfa & Hka' & Hfa' & Hheap).
  destruct (debounce_spec cfg Hok now raw cooked n changed g Hwf Hraw Hcooked)
    as (_ & g'' & cooked'' & _ & Hrun' & _ & _ & _ & Hwf' & Hlen & _).
  rewrite Hrun in Hrun'. injection Hrun' as <- <-.
  exists g', cooked'. split; [exact Hrun|]. split; [exact Hwf'|].
  split; [exact Hlen|]. split; [congruence|]. split; [congruence|].
  pose proof Hwf as [_ (fa0 & Hfa0 & Hfblk) _ (ka0 & Hka0 & Hkblk) _ _ _].
  assert (fa0 = fa) by congruence. assert (ka0 = ka) by congruence. subst fa0 ka0.
  split.
  - rewrite Hheap, !dom_insert_L.
    assert (Hkin : ka ∈ dom (heap g)) by (apply elem_of_dom; eauto).
    assert (Hfin : fa ∈ dom (heap g)) by (apply elem_of_dom; eauto).
    apply set_eq. intros a. rewrite !elem_of_union, !elem_of_singleton.
    split; [intros [->|[->|?]]; assumption|auto].
  - intros a Hnk Hnf. rewrite Hheap.
    rewrite !lookup_insert_ne by congruence. reflexivity.
Qed.

Lemma debounce_memory_safe_witness :
  let g := init_state default_config 2 (boot default_config) in
  ∃ g' cooked',
    debounce default_config 3 [3; 3] [0; 0] 2 true g = Some (g', cooked')
    ∧ wf default_config 2 g' ∧ length cooked' = 2%nat
    ∧ key_states g' = key_states g
    ∧ multiple_in_row g' = multiple_in_row g
    ∧ dom (heap g') = dom (heap g)
    ∧ ∀ a, key_states g ≠ Some a → multiple_in_row g ≠ Some a →
        heap g' !! a = heap g !! a.
Proof.
  apply (debounce_memory_safe default_config 3 [3; 3] [0; 0] 2 true
           (init_state default_config 2 (boot default_config))).
  - exact default_config_ok.
  - apply default_live. lia.
  - reflexivity.
  - reflexivity.
Defined.

(** [debounce] never changes a bit of the cooked grid at or beyond column
    [MATRIX_COLS]. *)
Theorem debounce_keeps_high_bits (cfg : config) (now : Z) (raw cooked : list Z)
    (n : nat) (changed : bool) (g : globals) :
  config_ok cfg → wf cfg n g → length raw = n → length cooked = n →
  ∃ g' cooked',
    debounce cfg now raw cooked n changed g = Some (g', cooked')
    ∧ ∀ r b, (r < n)%nat → Z.of_nat (MATRIX_COLS cfg) <= b →
        Z.testbit (cooked' !!! r) b = Z.testbit (cooked !!! r) b.
Proof.
  intros Hok Hwf Hraw Hcooked.
  destruct (debounce_spec cfg Hok now raw cooked n changed g Hwf Hraw Hcooked)
    as (_ & g' & cooked' & _ & Hrun & _ & _ & _ & _ & _ & _ & _ & _ & _ & Hhigh & _).
  exists g', cooked'. split; [exact Hrun|]. intros r b _ Hb. apply Hhigh. exact Hb.
Qed.

Lemma debounce_keeps_high_bits_witness :
  ∃ g' cooked',
    debounce default_config 9 [2047] [1024] 1 true
      (init_state default_config 1 (boot default_config)) = Some (g', cooked')
    ∧ ∀ r b, (r < 1)%nat → Z.of_nat (MATRIX_COLS default_config) <= b →
        Z.testbit (cooked' !!! r) b = Z.testbit ([1024] !!! r) b.
Proof.
  apply (debounce_keeps_high_bits default_config 9 [2047] [1024] 1 true
           (init_state default_config 1 (boot default_config))).
  - exact default_config_ok.
  - apply default_live. lia.
  - reflexivity.
  - reflexivity.
Defined.

(** ** The life cycle: initialisation, release, use *)



(** The release after an initialisation: both blocks go, the heap is what
    it was, [key_states] is null and [multiple_in_row] still holds the
    address of its released block. *)
Lemma debounce_free_released (cfg : config) (n : nat) (g0 : globals) :
  ∃ g2,
    debounce_free cfg (init_state cfg n g0) = Some g2
    ∧ heap g2 = heap g0 ∧ key_states g2 = None
    ∧ multiple_in_row g2 = Some (fresh (dom (heap g0))).
Proof.
  destruct (init_state_addresses n g0) as (H1 & H2 & Hne).
  set (a1 := fresh (dom (heap g0))) in *.
  set (h1 := <[a1 := Bytes (replicate n 0)]> (heap g0)) in *.
  set (a2 := fresh (dom h1)) in *.
  unfold debounce_free, ghost_free, free, init_state.
  cbn [key_states heap multiple_in_row set_heap set_key_states].
  fold a1 h1 a2. rewrite lookup_insert_eq. cbn [mbind option_bind].
  rewrite delete_insert_eq.
  assert (Hl : delete a2 h1 !! a1 = Some (Bytes (replicate n 0)))
    by (rewrite lookup_delete_ne by congruence; apply lookup_insert_eq).
  rewrite Hl. cbn [mbind option_bind]. eexists. split; [reflexivity|].
  assert (Hh : delete a1 (delete a2 h1) = heap g0).
  { unfold h1. rewrite delete_insert_ne by congruence.
    rewrite delete_insert_eq.
    rewrite (delete_id (heap g0) a2 H2). apply delete_id. exact H1. }
  unfold time_free. destruct (DEBOUNCE_USE_FRAMES cfg);
    cbn [heap key_states multiple_in_row set_timer set_heap]; auto.
Qed.

Section Dead.

Variable cfg : config.

Lemma flags_dead_load (g : globals) (off : nat) :
  flags_dead g → load_byte (heap g) (multiple_in_row g, off) = None.
Proof.
  unfold flags_dead, load_byte. cbn [fst snd].
  destruct (multiple_in_row g) as [a|]; [|reflexivity].
  intros Hgone. cbn [mbind option_bind]. rewrite Hgone. reflexivity.
Qed.

Lemma flags_dead_store (g : globals) (off : nat) (v : Z) (d : list Z) :
  flags_dead g →
  store_byte (heap (set_down_in_col d g)) (multiple_in_row g, off) v = None.
Proof.
  unfold flags_dead, store_byte. cbn [fst snd heap set_down_in_col].
  destruct (multiple_in_row g) as [a|]; [|reflexivity].
  intros Hgone. cbn [mbind option_bind]. rewrite Hgone. reflexivity.
Qed.

(** With a dead flag pointer a sweep over at least one row and one column
    dereferences it, whatever the arrays and the flag. *)
Lemma debounce_flags_dead (now : Z) (raw cooked : list Z) (n : nat)
    (changed : bool) (g : globals) :
  (1 <= n)%nat → (1 <= MATRIX_COLS cfg)%nat → flags_dead g →
  debounce cfg now raw cooked n changed g = None.
Proof.
  intros Hn Hcols Hdead. unfold debounce.
  destruct (get_elapsed_frame cfg now g) as (Hm & _ & _ & Hh).
  destruct (get_elapsed cfg now g) as [e g1]. cbn [fst snd] in *.
  assert (Hdead1 : flags_dead g1) by (unfold flags_dead; rewrite Hm, Hh; exact Hdead).
  clear Hdead Hm Hh.
  destruct n as [|n]; [lia|].
  destruct (MATRIX_COLS cfg) as [|cols] eqn:Hc; [lia|].
  destruct changed.
  - unfold ghost_compute. rewrite Hc.
    destruct (ghost_clear (S cols) 0 (down_in_col g1)) as [d|]; [|reflexivity].
    cbn [mbind option_bind ghost_rows].
    destruct (raw !! O) as [row|]; [|reflexivity]. cbn [mbind option_bind].
    destruct (row =? 0).
    + rewrite (flags_dead_store g1 O 0 d Hdead1). reflexivity.
    + change (down_in_col (set_down_in_col d g1)) with d.
      destruct (ghost_cols (MATRIX_COLS cfg) 0 row d) as [d'|]; [|reflexivity].
      cbn [mbind option_bind].
      rewrite (flags_dead_store g1 O _ d Hdead1). reflexivity.
  - cbn [mbind option_bind debounce_rows].
    destruct (raw !! O) as [raw_row|]; [|reflexivity]. cbn [mbind option_bind].
    destruct (cooked !! O) as [cooked_row|]; [|reflexivity]. cbn [mbind option_bind].
    rewrite Hc. cbn [debounce_cols]. unfold multiple_in_row_and_col.
    rewrite (flags_dead_load g1 O Hdead1). reflexivity.
Qed.

End Dead.

(** Use before initialisation and use after release: on a matrix with at
    least one row and one column, [debounce] on the boot state and
    [debounce] after [debounce_init] and [debounce_free] dereference a null
    or released pointer, whatever arguments they get. *)
Theorem debounce_needs_init (cfg : config) (n : nat) (g0 : globals) :
  (1 <= n)%nat → (1 <= MATRIX_COLS cfg)%nat →
  (∀ now raw cooked changed,
     debounce cfg now raw cooked n changed (boot cfg) = None)
  ∧ ∃ g1 g2,
      debounce_init cfg n g0 = Some g1
      ∧ debounce_free cfg g1 = Some g2
      ∧ ∀ now raw cooked changed,
          debounce cfg now raw cooked n changed g2 = None.
Proof.
  intros Hn Hcols. split.
  - intros now raw cooked changed.
    apply debounce_flags_dead; [assumption..|exact I].
  - destruct (debounce_free_released cfg n g0) as (g2 & Hfree & Hheap & _ & Hflags).
    exists (init_state cfg n g0), g2.
    split; [apply debounce_init_spec|]. split; [exact Hfree|].
    intros now raw cooked changed.
    apply debounce_flags_dead; [assumption..|].
    unfold flags_dead. rewrite Hflags, Hheap.
    apply (init_state_addresses n g0).
Qed.

Lemma debounce_needs_init_witness :
  (∀ now raw cooked changed,
     debounce default_config now raw cooked 4 changed (boot default_config) = None)
  ∧ ∃ g1 g2,
      debounce_init default_config 4 (boot default_config) = Some g1
      ∧ debounce_free default_config g1 = Some g2
      ∧ ∀ now raw cooked changed,
          debounce default_config now raw cooked 4 changed g2 = None.
Proof.
  apply (debounce_needs_init default_config 4 (boot default_config)).
  - lia.
  - simpl. lia.
Defined.

(** With [num_rows] zero [debounce] reads and writes no block and no grid:
    on any state, also before initialisation, it returns the cooked grid as
    it is and leaves heap and pointers alone. *)
Theorem debounce_no_rows (cfg : config) (now : Z) (raw cooked : list Z)
    (changed : bool) (g : globals) :
  (MATRIX_COLS cfg <= length (down_in_col g))%nat →
  ∃ g',
    debounce cfg now raw cooked 0 changed g = Some (g', cooked)
    ∧ heap g' = heap g
    ∧ key_states g' = key_states g
    ∧ multiple_in_row g' = multiple_in_row g.
Proof.
  intros Hcols. unfold debounce.
  destruct (get_elapsed_frame cfg now g) as (Hm & Hd & Hk & Hh).
  destruct (get_elapsed cfg now g) as [e g1]. cbn [fst snd] in *.
  destruct changed.
  - unfold ghost_compute.
    destruct (ghost_clear_spec (MATRIX_COLS cfg) O (down_in_col g1))
      as (d & Hclear & _); [rewrite Hd; lia|].
    rewrite Hclear. cbn [mbind option_bind ghost_rows debounce_rows].
    eexists. split; [reflexivity|]. cbn. auto.
  - cbn [mbind option_bind debounce_rows]. eexists. split; [reflexivity|]. auto.
Qed.

Lemma debounce_no_rows_witness :
  ∃ g',
    debounce default_config 7 [] [] 0 true (boot default_config) = Some (g', [])
    ∧ heap g' = heap (boot default_config)
    ∧ key_states g' = key_states (boot default_config)
    ∧ multiple_in_row g' = multiple_in_row (boot default_config).
Proof.
  apply (debounce_no_rows default_config 7 [] [] true (boot default_config)).
  simpl. lia.
Defined.

(** ** Runs, cell by cell *)

Section Runs.

Variable cfg : config.
Hypothesis cfg_ok : config_ok cfg.

(** What [get_elapsed] returns, and the timer it leaves, depend on the
    timer alone. *)
Lemma get_elapsed_timer (now : Z) (g g' : globals) :
  last_time_initialized g = last_time_initialized g' → last_time g = last_time g' →
  (get_elapsed cfg now g).1 = (get_elapsed cfg now g').1
  ∧ last_time_initialized (get_elapsed cfg now g).2
    = last_time_initialized (get_elapsed cfg now g').2
  ∧ last_time (get_elapsed cfg now g).2 = last_time (get_elapsed cfg now g').2.
Proof.
  intros Hi Hl. unfold get_elapsed. rewrite <- Hi, <- Hl.
  destruct (DEBOUNCE_USE_FRAMES cfg), (last_time_initialized g) eqn:E;
    cbn [negb fst snd set_timer last_time_initialized last_time];
    repeat split; congruence.
Qed.

Lemma elapsed_trace_timer (nows : list Z) : ∀ g g',
  last_time_initialized g = last_time_initialized g' → last_time g = last_time g' →
  elapsed_trace cfg nows g = elapsed_trace cfg nows g'.
Proof.
  induction nows as [|now rest IH]; intros g g' Hi Hl; [reflexivity|].
  cbn [elapsed_trace].
  destruct (get_elapsed_timer now g g' Hi Hl) as (He & Hi' & Hl').
  destruct (get_elapsed cfg now g) as [e g1], (get_elapsed cfg now g') as [e' g1'].
  cbn [fst snd] in *. subst e'. f_equal. apply IH; assumption.
Qed.

Lemma elapsed_trace_length (nows : list Z) : ∀ g,
  length (elapsed_trace cfg nows g) = length nows.
Proof.
  induction nows as [|now rest IH]; intros g; [reflexivity|].
  cbn [elapsed_trace]. destruct (get_elapsed cfg now g) as [e g1].
  cbn [length]. rewrite IH. reflexivity.
Qed.

Lemma elapsed_trace_bounds (nows : list Z) : ∀ g,
  Forall (λ e, 0 <= e <= 255) (elapsed_trace cfg nows g).
Proof.
  induction nows as [|now rest IH]; intros g; [constructor|].
  cbn [elapsed_trace]. pose proof (get_elapsed_range cfg cfg_ok now g) as Hr.
  destruct (get_elapsed cfg now g) as [e g1]. constructor; [exact Hr|apply IH].
Qed.

Lemma elapsed_trace_app (l1 l2 : list Z) : ∀ g,
  ∃ g', elapsed_trace cfg (l1 ++ l2) g
        = elapsed_trace cfg l1 g ++ elapsed_trace cfg l2 g'.
Proof.
  induction l1 as [|now rest IH]; intros g; [exists g; reflexivity|].
  cbn [app elapsed_trace]. destruct (get_elapsed cfg now g) as [e g1].
  destruct (IH g1) as [g' Hg']. exists g'. rewrite Hg'. reflexivity.
Qed.

(** A run of calls with [changed] false, seen from one cell: the cell takes
    its [cell_step] once per call, with the raw bit of that call and the
    time [get_elapsed] measured for it, under the ghost mark it had when the
    run began.  No other cell and no other bit of the raw grids matters. *)
Lemma idle_run_cellwise (n : nat) (calls : list (Z * list Z)) :
  Forall (λ call, length call.2 = n) calls →
  ∀ (g : globals) (cooked : list Z),
    wf cfg n g → length cooked = n →
    ∃ g' cooked',
      debounce_idle cfg calls cooked n g = Some (g', cooked')
      ∧ ∀ r c, (r < n)%nat → (c < MATRIX_COLS cfg)%nat →
          (key_at cfg g' r c, bit_at cooked' r c)
          = cell_run cfg (is_ambiguous g r c)
              (zip ((λ call, bit_at call.2 r c) <$> calls)
                   (elapsed_trace cfg (fst <$> calls) g))
              (key_at cfg g r c) (bit_at cooked r c).
Proof.
  induction 1 as [|[now raw] rest Hraw _ IH]; intros g cooked Hwf Hcooked.
  - exists g, cooked. split; [reflexivity|]. reflexivity.
  - cbn [debounce_idle]. cbn [snd] in Hraw.
    destruct (debounce_spec cfg cfg_ok now raw cooked n false g Hwf Hraw Hcooked)
      as (g_mid & g1 & cooked1 & _ & Hrun & _ & Hfm & Hdm & Hwf1 & Hlen1 & Hf1 & Hd1
          & Hti & Hlt & _ & Hcell).
    rewrite Hrun. cbn [mbind option_bind].
    destruct (IH g1 cooked1 Hwf1 Hlen1) as (g' & cooked' & Hrun' & Hcells).
    exists g', cooked'. split; [exact Hrun'|].
    intros r c Hr Hc. rewrite (Hcells r c Hr Hc).
    cbn [fmap list_fmap fst snd elapsed_trace].
    pose proof (get_elapsed_range cfg cfg_ok now g) as Hrange.
    rewrite (u8_small _ Hrange) in Hcell.
    destruct (get_elapsed cfg now g) as [e g2]. cbn [fst snd] in *.
    cbn [zip zip_with cell_run].
    specialize (Hcell r c Hr Hc).
    rewrite (is_ambiguous_tables g g_mid r c) in Hcell by congruence.
    rewrite <- Hcell.
    rewrite (is_ambiguous_tables g g1 r c) by assumption.
    rewrite (elapsed_trace_timer (fst <$> rest) g1 g2) by assumption.
    reflexivity.
Qed.

End Runs.

(** ** Timing of one cell *)

Lemma total_nonneg (es : list Z) : Forall (λ e, 0 <= e) es → 0 <= total es.
Proof.
  induction 1 as [|e es He _ IH]; [reflexivity|]. unfold total in *. cbn. lia.
Qed.

Lemma total_app (l1 l2 : list Z) : total (l1 ++ l2) = total l1 + total l2.
Proof.
  induction l1 as [|e l1 IH]; [reflexivity|].
  unfold total in *. cbn. rewrite IH. lia.
Qed.

Lemma xorb_differ (a b : bool) : a ≠ b → xorb a b = true.
Proof. destruct a, b; simpl; congruence. Qed.

Lemma cell_run_app (cfg : config) (ghost : bool) (l1 l2 : list (bool * Z)) :
  ∀ k b,
    cell_run cfg ghost (l1 ++ l2) k b
    = cell_run cfg ghost l2 (cell_run cfg ghost l1 k b).1 (cell_run cfg ghost l1 k b).2.
Proof.
  induction l1 as [|[raw_bit e] l1 IH]; intros k b; [reflexivity|].
  cbn [app cell_run]. destruct (cell_step cfg ghost raw_bit b e k) as [k' b'].
  apply IH.
Qed.

(** A pending change is held, counting down, as long as the elapsed times
    add up to less than what remains. *)
Lemma cell_run_hold (cfg : config) (raw_bit b : bool) :
  raw_bit ≠ b →
  ∀ (es : list Z) (k : key_state_t),
    state k = DEBOUNCING → Forall (λ e, 0 <= e) es → total es < remaining k →
    cell_run cfg false ((λ e, (raw_bit, e)) <$> es) k b
    = (KeyState DEBOUNCING (remaining k - total es), b).
Proof.
  intros Hne. induction es as [|e es IH]; intros k Hst Hpos Hsum.
  - destruct k as [st rem]. cbn in *. subst st. f_equal. f_equal. unfold total. cbn. lia.
  - apply Forall_cons in Hpos as [He Hpos].
    pose proof (total_nonneg es Hpos) as Hrest.
    change (total (e :: es)) with (e + total es) in *.
    cbn [fmap list_fmap cell_run]. unfold cell_step, fsm_step. rewrite Hst.
    rewrite (xorb_differ raw_bit b Hne).
    cbn [negb]. replace (e <? remaining k) with true by (symmetry; apply Z.ltb_lt; lia).
    rewrite IH; cbn [state remaining]; try assumption; try reflexivity; try lia.
    f_equal. f_equal. lia.
Qed.

Lemma zip_const_l {A} (b : bool) (l : list A) : ∀ es : list Z,
  length l = length es →
  zip ((λ _, b) <$> l) es = (λ e, (b, e)) <$> es.
Proof.
  induction l as [|x l IH]; intros [|e es] Hlen; try discriminate; [reflexivity|].
  cbn. f_equal. apply IH. cbn in Hlen. lia.
Qed.

Section Timing.

Variable cfg : config.
Hypothesis cfg_ok : config_ok cfg.

(** A run on an unchanged raw grid, seen from one cell. *)
Lemma steady_run_cellwise (n : nat) (raw cooked : list Z) (nows : list Z)
    (g : globals) :
  wf cfg n g → length raw = n → length cooked = n →
  ∃ g' cooked',
    debounce_idle cfg ((λ now, (now, raw)) <$> nows) cooked n g = Some (g', cooked')
    ∧ ∀ r c, (r < n)%nat → (c < MATRIX_COLS cfg)%nat →
        (key_at cfg g' r c, bit_at cooked' r c)
        = cell_run cfg (is_ambiguous g r c)
            ((λ e, (bit_at raw r c, e)) <$> elapsed_trace cfg nows g)
            (key_at cfg g r c) (bit_at cooked r c).
Proof.
  intros Hwf Hraw Hcooked.
  destruct (idle_run_cellwise cfg cfg_ok n ((λ now, (now, raw)) <$> nows)) with
    (g := g) (cooked := cooked) as (g' & cooked' & Hrun & Hcells); try assumption.
  { apply Forall_fmap, Forall_true. intros now. exact Hraw. }
  exists g', cooked'. split; [exact Hrun|].
  intros r c Hr Hc. rewrite (Hcells r c Hr Hc).
  rewrite <- !list_fmap_compose.
  assert (Hnows : fst ∘ (λ now : Z, (now, raw)) <$> nows = nows).
  { clear. induction nows as [|x l IH]; [reflexivity|]. cbn. f_equal. exact IH. }
  rewrite Hnows.
  change ((λ call : Z * list Z, bit_at call.2 r c) ∘ (λ now : Z, (now, raw)))
    with (λ _ : Z, bit_at raw r c).
  rewrite zip_const_l by (rewrite elapsed_trace_length; reflexivity).
  reflexivity.
Qed.

End Timing.

(** The timing of an acceptance, for both timer policies. *)
Lemma accepted_on_time (cfg : config) (n : nat) (g : globals)
    (raw cooked : list Z) (r c : nat) (now0 now_last : Z) (nows : list Z)
    (e0 e_last : Z) (es : list Z) :
  config_ok cfg → wf cfg n g → length raw = n → length cooked = n →
  (r < n)%nat → (c < MATRIX_COLS cfg)%nat →
  multiple_in_row_and_col g r c = Some false →
  state (key_at cfg g r c) = WAITING →
  bit_at raw r c ≠ bit_at cooked r c →
  elapsed_trace cfg (now0 :: nows ++ [now_last]) g = e0 :: es ++ [e_last] →
  total es < threshold cfg (bit_at raw r c) <= total es + e_last →
  ∃ g1 cooked1 g2 cooked2,
    debounce_idle cfg ((λ now, (now, raw)) <$> now0 :: nows) cooked n g
    = Some (g1, cooked1)
    ∧ bit_at cooked1 r c = bit_at cooked r c
    ∧ key_at cfg g1 r c
      = KeyState DEBOUNCING (threshold cfg (bit_at raw r c) - total es)
    ∧ debounce_idle cfg ((λ now, (now, raw)) <$> now0 :: nows ++ [now_last]) cooked n g
      = Some (g2, cooked2)
    ∧ bit_at cooked2 r c = bit_at raw r c
    ∧ key_at cfg g2 r c = KeyState QUIESCING (DEBOUNCE_QUIESCE cfg).
Proof.
  intros Hok Hwf Hraw Hcooked Hr Hc Hghost Hst Hne Htrace Hsum.
  rewrite (wf_ghost cfg n g r c Hwf Hr Hc) in Hghost. injection Hghost as Hghost.
  pose proof (elapsed_trace_bounds cfg Hok (now0 :: nows ++ [now_last]) g) as Hb.
  rewrite Htrace in Hb.
  apply Forall_cons in Hb as [_ Hb]. apply Forall_app in Hb as [Hes _].
  assert (Hpos : Forall (λ e, 0 <= e) es)
    by (eapply Forall_impl; [exact Hes|]; intros e He; cbv beta in He; lia).
  assert (Hprefix : elapsed_trace cfg (now0 :: nows) g = e0 :: es).
  { destruct (elapsed_trace_app cfg (now0 :: nows) [now_last] g) as [g' Happ].
    change ((now0 :: nows) ++ [now_last]) with (now0 :: nows ++ [now_last]) in Happ.
    rewrite Htrace in Happ.
    assert (Hone : ∃ x, elapsed_trace cfg [now_last] g' = [x]).
    { cbn. destruct (get_elapsed cfg now_last g') as [x ?]. eauto. }
    destruct Hone as [x Hx]. rewrite Hx in Happ.
    change (e0 :: es ++ [e_last]) with ((e0 :: es) ++ [e_last]) in Happ.
    apply app_inj_tail in Happ as [Happ _]. symmetry. exact Happ. }
  assert (Hfirst : ∀ e,
    cell_step cfg false (bit_at raw r c) (bit_at cooked r c) e (key_at cfg g r c)
    = (KeyState DEBOUNCING (threshold cfg (bit_at raw r c)), bit_at cooked r c)).
  { intros e. unfold cell_step, fsm_step, threshold. rewrite Hst.
    rewrite (xorb_differ _ _ Hne). reflexivity. }
  destruct (steady_run_cellwise cfg Hok n raw cooked (now0 :: nows) g Hwf Hraw Hcooked)
    as (g1 & cooked1 & Hrun1 & Hcells1).
  destruct (steady_run_cellwise cfg Hok n raw cooked (now0 :: nows ++ [now_last]) g
              Hwf Hraw Hcooked) as (g2 & cooked2 & Hrun2 & Hcells2).
  specialize (Hcells1 r c Hr Hc). specialize (Hcells2 r c Hr Hc).
  rewrite Hghost, Hprefix in Hcells1. rewrite Hghost, Htrace in Hcells2.
  cbn [fmap list_fmap cell_run] in Hcells1, Hcells2.
  rewrite Hfirst in Hcells1, Hcells2.
  rewrite cell_run_hold in Hcells1 by (cbn [state remaining]; assumption || reflexivity || lia).
  rewrite fmap_app, cell_run_app in Hcells2.
  rewrite (cell_run_hold cfg _ _ Hne es) in Hcells2
    by (cbn [state remaining]; assumption || reflexivity || lia).
  cbn [fst snd fmap list_fmap cell_run state remaining] in Hcells1, Hcells2.
  unfold cell_step, fsm_step in Hcells2. cbn [state remaining] in Hcells2.
  rewrite (xorb_differ _ _ Hne) in Hcells2.
  cbn [negb] in Hcells2.
  replace (e_last <? threshold cfg (bit_at raw r c) - total es) with false in Hcells2
    by (symmetry; apply Z.ltb_ge; lia).
  injection Hcells1 as Hk1 Hb1. injection Hcells2 as Hk2 Hb2.
  exists g1, cooked1, g2, cooked2. auto 10.
Qed.

(** Acceptance timing.  A cell at rest whose raw bit differs from its cooked
    bit, not marked as a ghost, on a raw grid that stays as it is: the first
    call starts the countdown whatever time it measures; the cooked bit
    stays while the times measured by the following calls add up to less
    than the threshold, and the call with which they reach the threshold
    sets the cooked bit to the raw bit and starts the quiescence. *)
Theorem change_accepted_on_time (cfg : config) (n : nat) (g : globals)
    (raw cooked : list Z) (r c : nat) (now0 now_last : Z) (nows : list Z)
    (e0 e_last : Z) (es : list Z) :
  config_ok cfg → wf cfg n g → length raw = n → length cooked = n →
  (r < n)%nat → (c < MATRIX_COLS cfg)%nat →
  multiple_in_row_and_col g r c = Some false →
  state (key_at cfg g r c) = WAITING →
  bit_at raw r c ≠ bit_at cooked r c →
  elapsed_trace cfg (now0 :: nows ++ [now_last]) g = e0 :: es ++ [e_last] →
  total es < threshold cfg (bit_at raw r c) <= total es + e_last →
  ∃ g1 cooked1 g2 cooked2,
    debounce_idle cfg ((λ now, (now, raw)) <$> now0 :: nows) cooked n g
    = Some (g1, cooked1)
    ∧ bit_at cooked1 r c = bit_at cooked r c
    ∧ key_at cfg g1 r c
      = KeyState DEBOUNCING (threshold cfg (bit_at raw r c) - total es)
    ∧ debounce_idle cfg ((λ now, (now, raw)) <$> now0 :: nows ++ [now_last]) cooked n g
      = Some (g2, cooked2)
    ∧ bit_at cooked2 r c = bit_at raw r c
    ∧ key_at cfg g2 r c = KeyState QUIESCING (DEBOUNCE_QUIESCE cfg).
Proof.
  exact (accepted_on_time cfg n g raw cooked r c now0 now_last nows e0 e_last es).
Qed.

Lemma change_accepted_on_time_witness :
  let g := init_state default_config 1 (boot default_config) in
  ∃ g1 cooked1 g2 cooked2,
    debounce_idle default_config ((λ now, (now, [2])) <$> [100; 102; 104]) [0] 1 g
    = Some (g1, cooked1)
    ∧ bit_at cooked1 0 1 = bit_at [0] 0 1
    ∧ key_at default_config g1 0 1
      = KeyState DEBOUNCING (threshold default_config (bit_at [2] 0 1) - total [2; 2])
    ∧ debounce_idle default_config ((λ now, (now, [2])) <$> [100; 102; 104; 1000]) [0] 1 g
      = Some (g2, cooked2)
    ∧ bit_at cooked2 0 1 = bit_at [2] 0 1
    ∧ key_at default_config g2 0 1
      = KeyState QUIESCING (DEBOUNCE_QUIESCE default_config).
Proof.
  apply (change_accepted_on_time default_config 1
           (init_state default_config 1 (boot default_config))
           [2] [0] 0 1 100 1000 [102; 104] 1 255 [2; 2]).
  - exact default_config_ok.
  - apply default_live. lia.
  - reflexivity.
  - reflexivity.
  - lia.
  - simpl. lia.
  - reflexivity.
  - reflexivity.
  - discriminate.
  - reflexivity.
  - vm_compute. split; [reflexivity|discriminate].
Defined.

(** ** Any run, cell by cell *)

Section AnyRun.

Variable cfg : config.
Hypothesis cfg_ok : config_ok cfg.

(** A run of calls with any [changed] flags, seen from one cell: the run
    returns, and the cell takes its [cell_step] once per call, with the raw
    bit of that call and the time [get_elapsed] measured for it; only the
    ghost marks depend on the rest of the grids. *)
Lemma run_cellwise (n : nat) (calls : list (Z * list Z * bool)) :
  Forall (λ call, length call.1.2 = n) calls →
  ∀ (g : globals) (cooked : list Z),
    wf cfg n g → length cooked = n →
    ∃ g' cooked',
      debounce_run cfg calls cooked n g = Some (g', cooked')
      ∧ wf cfg n g' ∧ length cooked' = n
      ∧ ∀ r c, (r < n)%nat → (c < MATRIX_COLS cfg)%nat →
          ∃ ghosts : list bool,
            length ghosts = length calls
            ∧ (key_at cfg g' r c, bit_at cooked' r c)
              = cell_trace cfg
                  (zip (zip ghosts ((λ call, bit_at call.1.2 r c) <$> calls))
                       (elapsed_trace cfg ((λ call, call.1.1) <$> calls) g))
                  (key_at cfg g r c) (bit_at cooked r c).
Proof.
  induction 1 as [|[[now raw] changed] rest Hraw _ IH]; intros g cooked Hwf Hcooked.
  - exists g, cooked. split; [reflexivity|]. split; [exact Hwf|]. split; [exact Hcooked|].
    intros r c _ _. exists []. split; reflexivity.
  - cbn [debounce_run]. cbn [fst snd] in Hraw.
    destruct (debounce_spec cfg cfg_ok now raw cooked n changed g Hwf Hraw Hcooked)
      as (g_mid & g1 & cooked1 & _ & Hrun & _ & _ & _ & Hwf1 & Hlen1 & _ & _
          & Hti & Hlt & _ & Hcell).
    rewrite Hrun. cbn [mbind option_bind].
    destruct (IH g1 cooked1 Hwf1 Hlen1) as (g' & cooked' & Hrun' & Hwf' & Hlen' & Hcells).
    exists g', cooked'. split; [exact Hrun'|]. split; [exact Hwf'|]. split; [exact Hlen'|].
    intros r c Hr Hc. destruct (Hcells r c Hr Hc) as (ghosts & Hglen & Hres).
    exists (is_ambiguous g_mid r c :: ghosts). split; [cbn; lia|].
    rewrite Hres. cbn [fmap list_fmap fst snd elapsed_trace].
    pose proof (get_elapsed_range cfg cfg_ok now g) as Hrange.
    rewrite (u8_small _ Hrange) in Hcell.
    destruct (get_elapsed cfg now g) as [e g2]. cbn [fst snd] in *.
    cbn [zip zip_with cell_trace].
    rewrite <- (Hcell r c Hr Hc).
    rewrite (elapsed_trace_timer cfg ((λ call, call.1.1) <$> rest) g1 g2) by assumption.
    reflexivity.
Qed.

End AnyRun.

(** ** The automaton over time *)

Section Automaton.

Variable cfg : config.

(** While the elapsed times add up to less than its counter, a QUIESCING
    cell stays QUIESCING and keeps its cooked bit, whatever the raw bits and
    the ghost marks. *)
Lemma cell_trace_quiescing (steps : list (bool * bool * Z)) :
  ∀ (k : key_state_t) (b : bool),
    state k = QUIESCING → Forall (λ e, 0 <= e) (snd <$> steps) →
    total (snd <$> steps) < remaining k →
    state (cell_trace cfg steps k b).1 = QUIESCING
    ∧ (cell_trace cfg steps k b).2 = b.
Proof.
  induction steps as [|[[ghost raw_bit] e] rest IH]; intros k b Hst Hpos Hsum.
  - split; [exact Hst|reflexivity].
  - cbn [fmap list_fmap snd] in Hpos, Hsum.
    apply Forall_cons in Hpos as [He Hpos].
    pose proof (total_nonneg _ Hpos) as Hrest.
    change (total (e :: (snd <$> rest))) with (e + total (snd <$> rest)) in Hsum.
    cbn [cell_trace]. unfold cell_step, fsm_step. rewrite Hst.
    destruct ghost.
    + apply IH; [assumption..|lia].
    + replace (e <? remaining k) with true by (symmetry; apply Z.ltb_lt; lia).
      apply IH; cbn [state remaining]; [reflexivity|assumption|lia].
Qed.

(** A cell that is WAITING, or DEBOUNCING with more on its counter than
    the run will measure, does not change its cooked bit in a run whose
    elapsed times, the first call's apart, add up to less than both
    thresholds. *)
Lemma cell_trace_no_early_accept (steps : list (bool * bool * Z)) :
  ∀ (k : key_state_t) (b : bool),
    Forall (λ e, 0 <= e) (snd <$> steps) →
    (state k = WAITING
     ∧ total (tail (snd <$> steps)) < Z.min (DEBOUNCE_DOWN cfg) (DEBOUNCE_UP cfg))
    ∨ (state k = DEBOUNCING
       ∧ total (snd <$> steps) < remaining k
       ∧ total (snd <$> steps) < Z.min (DEBOUNCE_DOWN cfg) (DEBOUNCE_UP cfg)) →
    (cell_trace cfg steps k b).2 = b
    ∧ state (cell_trace cfg steps k b).1 ≠ QUIESCING.
Proof.
  induction steps as [|[[ghost raw_bit] e] rest IH]; intros k b Hpos Hinv.
  - split; [reflexivity|]. cbn. destruct Hinv as [[-> _]|[-> _]]; discriminate.
  - cbn [fmap list_fmap snd tail] in Hpos, Hinv.
    apply Forall_cons in Hpos as [He Hpos].
    pose proof (total_nonneg _ Hpos) as Hrest.
    assert (Htail : total (tail (snd <$> rest)) <= total (snd <$> rest)).
    { destruct (snd <$> rest) as [|x l] eqn:E; [reflexivity|].
      apply Forall_cons in Hpos as [Hx Hl]. pose proof (total_nonneg _ Hl).
      change (total (x :: l)) with (x + total l). cbn [tail]. lia. }
    change (total (e :: (snd <$> rest))) with (e + total (snd <$> rest)) in Hinv.
    cbn [cell_trace]. unfold cell_step, fsm_step.
    destruct Hinv as [[Hst Hsum]|(Hst & Hsum & Hmin)]; rewrite Hst; destruct ghost.
    + apply IH; [assumption|]. left. split; [assumption|lia].
    + destruct (xorb raw_bit b).
      * apply IH; [assumption|]. right. cbn [state remaining].
        split; [reflexivity|]. destruct raw_bit; lia.
      * apply IH; [assumption|]. left. split; [assumption|lia].
    + apply IH; [assumption|]. right. split; [assumption|lia].
    + destruct (negb (xorb raw_bit b)).
      * apply IH; [assumption|]. left. cbn [state]. split; [reflexivity|lia].
      * replace (e <? remaining k) with true by (symmetry; apply Z.ltb_lt; lia).
        apply IH; [assumption|]. right. cbn [state remaining].
        split; [reflexivity|lia].
Qed.

End Automaton.

Lemma zip_snd_length {A B} (l : list A) (es : list B) :
  length l = length es → snd <$> zip l es = es.
Proof.
  revert es. induction l as [|x l IH]; intros [|e es] Hlen; try discriminate;
    [reflexivity|].
  cbn. f_equal. apply IH. cbn in Hlen. lia.
Qed.

Lemma run_steps_elapsed {A} (ghosts : list bool) (bits : list bool) (es : list A) :
  length ghosts = length es → length bits = length es →
  snd <$> zip (zip ghosts bits) es = es.
Proof.
  intros Hg Hb. apply zip_snd_length. rewrite length_zip_with. lia.
Qed.



(** Quiesce suppression.  A QUIESCING cell keeps its cooked bit and stays
    QUIESCING through any run of calls whose measured times add up to less
    than its counter, whatever the raw grids and [changed] flags are. *)
Theorem quiescing_ignores_raw (cfg : config) (n : nat)
    (calls : list (Z * list Z * bool)) (g : globals) (cooked : list Z) (r c : nat) :
  config_ok cfg → wf cfg n g → length cooked = n →
  Forall (λ call, length call.1.2 = n) calls →
  (r < n)%nat → (c < MATRIX_COLS cfg)%nat →
  state (key_at cfg g r c) = QUIESCING →
  total (elapsed_trace cfg ((λ call, call.1.1) <$> calls) g)
    < remaining (key_at cfg g r c) →
  ∃ g' cooked',
    debounce_run cfg calls cooked n g = Some (g', cooked')
    ∧ bit_at cooked' r c = bit_at cooked r c
    ∧ state (key_at cfg g' r c) = QUIESCING.
Proof.
  intros Hok Hwf Hcooked Hcalls Hr Hc Hst Hsum.
  destruct (run_cellwise cfg Hok n calls Hcalls g cooked Hwf Hcooked)
    as (g' & cooked' & Hrun & _ & _ & Hcells).
  exists g', cooked'. split; [exact Hrun|].
  destruct (Hcells r c Hr Hc) as (ghosts & Hglen & Hres).
  set (steps := zip _ _) in Hres.
  assert (Hes : snd <$> steps = elapsed_trace cfg ((λ call, call.1.1) <$> calls) g).
  { apply run_steps_elapsed; rewrite elapsed_trace_length, !length_fmap; auto. }
  destruct (cell_trace_quiescing cfg steps (key_at cfg g r c) (bit_at cooked r c) Hst)
    as [Hq Hb].
  - rewrite Hes. eapply Forall_impl; [apply (elapsed_trace_bounds cfg Hok)|].
    intros e He. cbv beta in He. lia.
  - rewrite Hes. exact Hsum.
  - rewrite <- Hres in Hq, Hb. cbn [fst snd] in Hq, Hb. auto.
Qed.

(** No early acceptance.  The cooked bit of a cell at rest does not change
    in any run of calls in which the times measured after the first call
    add up to less than both thresholds, whatever the raw grids and
    [changed] flags are: a change shorter than the threshold never reaches
    the cooked grid. *)
Theorem no_early_acceptance (cfg : config) (n : nat)
    (calls : list (Z * list Z * bool)) (g : globals) (cooked : list Z) (r c : nat) :
  config_ok cfg → wf cfg n g → length cooked = n →
  Forall (λ call, length call.1.2 = n) calls →
  (r < n)%nat → (c < MATRIX_COLS cfg)%nat →
  state (key_at cfg g r c) = WAITING →
  total (tail (elapsed_trace cfg ((λ call, call.1.1) <$> calls) g))
    < Z.min (DEBOUNCE_DOWN cfg) (DEBOUNCE_UP cfg) →
  ∃ g' cooked',
    debounce_run cfg calls cooked n g = Some (g', cooked')
    ∧ bit_at cooked' r c = bit_at cooked r c
    ∧ state (key_at cfg g' r c) ≠ QUIESCING.
Proof.
  intros Hok Hwf Hcooked Hcalls Hr Hc Hst Hsum.
  destruct (run_cellwise cfg Hok n calls Hcalls g cooked Hwf Hcooked)
    as (g' & cooked' & Hrun & _ & _ & Hcells).
  exists g', cooked'. split; [exact Hrun|].
  destruct (Hcells r c Hr Hc) as (ghosts & Hglen & Hres).
  set (steps := zip _ _) in Hres.
  assert (Hes : snd <$> steps = elapsed_trace cfg ((λ call, call.1.1) <$> calls) g).
  { apply run_steps_elapsed; rewrite elapsed_trace_length, !length_fmap; auto. }
  destruct (cell_trace_no_early_accept cfg steps (key_at cfg g r c) (bit_at cooked r c))
    as [Hb Hq].
  - rewrite Hes. eapply Forall_impl; [apply (elapsed_trace_bounds cfg Hok)|].
    intros e He. cbv beta in He. lia.
  - left. rewrite Hes. auto.
  - rewrite <- Hres in Hq, Hb. cbn [fst snd] in Hq, Hb. auto.
Qed.

Lemma quiescing_ignores_raw_witness :
  let g := from_option fst (boot default_config)
             (debounce_run default_config [(0, [2], true); (5, [2], false)] [0] 1
                (init_state default_config 1 (boot default_config))) in
  let calls := [(10, [0], true); (20, [2], true); (34, [0], true)] in
  ∃ g' cooked',
    debounce_run default_config calls [2] 1 g = Some (g', cooked')
    ∧ bit_at cooked' 0 1 = bit_at [2] 0 1
    ∧ state (key_at default_config g' 0 1) = QUIESCING.
Proof.
  cbv zeta.
  destruct (run_cellwise default_config default_config_ok 1
              [(0, [2], true); (5, [2], false)] ltac:(repeat constructor)
              (init_state default_config 1 (boot default_config)) [0]
              (default_live 1 ltac:(lia)) eq_refl)
    as (g & cooked & Hrun & Hwf & _ & _).
  rewrite Hrun. cbn [from_option fst].
  assert (Hst : state (key_at default_config g 0 1) = QUIESCING
                ∧ total (elapsed_trace default_config
                           ((λ call : Z * list Z * bool, call.1.1)
                              <$> [(10, [0], true); (20, [2], true); (34, [0], true)]) g)
                  < remaining (key_at default_config g 0 1)).
  { assert (Hg : g = from_option fst (boot default_config)
               (debounce_run default_config [(0, [2], true); (5, [2], false)] [0] 1
                  (init_state default_config 1 (boot default_config))))
      by (rewrite Hrun; reflexivity).
    rewrite Hg. vm_compute. split; reflexivity. }
  apply (quiescing_ignores_raw default_config 1
           [(10, [0], true); (20, [2], true); (34, [0], true)] g [2] 0 1).
  - exact default_config_ok.
  - exact Hwf.
  - reflexivity.
  - repeat constructor.
  - lia.
  - simpl. lia.
  - apply Hst.
  - apply Hst.
Defined.

Lemma no_early_acceptance_witness :
  let g := init_state default_config 1 (boot default_config) in
  let calls := [(0, [2], true); (1, [0], true); (2, [2], true); (4, [2], false)] in
  ∃ g' cooked',
    debounce_run default_config calls [0] 1 g = Some (g', cooked')
    ∧ bit_at cooked' 0 1 = bit_at [0] 0 1
    ∧ state (key_at default_config g' 0 1) ≠ QUIESCING.
Proof.
  apply (no_early_acceptance default_config 1
           [(0, [2], true); (1, [0], true); (2, [2], true); (4, [2], false)]
           (init_state default_config 1 (boot default_config)) [0] 0 1).
  - exact default_config_ok.
  - apply default_live. lia.
  - reflexivity.
  - repeat constructor.
  - lia.
  - simpl. lia.
  - reflexivity.
  - vm_compute. reflexivity.
Defined.

(** ** Counters stay within what they were loaded with *)

Section Bounded.

Variable cfg : config.
Hypothesis cfg_ok : config_ok cfg.

Lemma cell_step_bounded (ghost raw_bit b : bool) (e : Z) (k : key_state_t) :
  0 <= e →
  match state k with
  | WAITING => True
  | DEBOUNCING => remaining k <= Z.max (DEBOUNCE_DOWN cfg) (DEBOUNCE_UP cfg)
  | QUIESCING => remaining k <= DEBOUNCE_QUIESCE cfg
  end →
  match state (cell_step cfg ghost raw_bit b e k).1 with
  | WAITING => True
  | DEBOUNCING =>
      remaining (cell_step cfg ghost raw_bit b e k).1
      <= Z.max (DEBOUNCE_DOWN cfg) (DEBOUNCE_UP cfg)
  | QUIESCING => remaining (cell_step cfg ghost raw_bit b e k).1 <= DEBOUNCE_QUIESCE cfg
  end.
Proof.
  intros He Hk. unfold cell_step, fsm_step.
  destruct k as [st rem]. cbn [state remaining] in *.
  destruct ghost; [exact Hk|].
  destruct st, raw_bit, b; cbn [xorb negb];
    try destruct (Z.ltb_spec e rem); cbn [fst state remaining];
    try exact I; lia.
Qed.

Lemma debounce_counters_bounded (now : Z) (raw cooked : list Z) (n : nat)
    (changed : bool) (g : globals) :
  wf cfg n g → length raw = n → length cooked = n →
  counters_bounded cfg (keys_of g) →
  ∀ g' cooked',
    debounce cfg now raw cooked n changed g = Some (g', cooked') →
    counters_bounded cfg (keys_of g').
Proof.
  intros Hwf Hraw Hcooked Hb g' cooked' Hrun'.
  destruct (debounce_spec cfg cfg_ok now raw cooked n changed g Hwf Hraw Hcooked)
    as (g_mid & g1 & cooked1 & _ & Hrun & _ & _ & _ & Hwf' & _ & _ & _ & _ & _ & _
        & Hcell).
  rewrite Hrun in Hrun'. injection Hrun' as <- <-.
  apply Forall_lookup. intros j k Hj.
  pose proof (lookup_lt_Some _ _ _ Hj) as Hlt.
  rewrite (wf_keys_len cfg n g1 Hwf') in Hlt.
  assert (Hsplit : ∃ r c, (r < n)%nat ∧ (c < MATRIX_COLS cfg)%nat
                          ∧ j = (r * MATRIX_COLS cfg + c)%nat).
  { exists (j / MATRIX_COLS cfg)%nat, (j mod MATRIX_COLS cfg)%nat.
    assert (MATRIX_COLS cfg ≠ O) by (intros Hz; rewrite Hz in Hlt; lia).
    split; [apply Nat.Div0.div_lt_upper_bound; lia|].
    split; [apply Nat.mod_upper_bound; assumption|].
    rewrite Nat.mul_comm. apply Nat.div_mod_eq. }
  destruct Hsplit as (r & c & Hr & Hc & ->).
  specialize (Hcell r c Hr Hc). unfold key_at in Hcell.
  rewrite (list_lookup_total_correct _ _ _ Hj) in Hcell.
  apply (f_equal fst) in Hcell. cbn [fst] in Hcell. rewrite Hcell.
  apply cell_step_bounded; [apply (get_elapsed_nonneg cfg)|].
  apply (proj1 (Forall_lookup _ _) Hb (r * MATRIX_COLS cfg + c)%nat).
  apply list_lookup_lookup_total_lt. rewrite (wf_keys_len cfg n g Hwf). nia.
Qed.

Lemma run_counters_bounded (n : nat) (calls : list (Z * list Z * bool)) :
  Forall (λ call, length call.1.2 = n) calls →
  ∀ (g : globals) (cooked : list Z),
    wf cfg n g → length cooked = n → counters_bounded cfg (keys_of g) →
    ∃ g' cooked',
      debounce_run cfg calls cooked n g = Some (g', cooked')
      ∧ counters_bounded cfg (keys_of g').
Proof.
  induction 1 as [|[[now raw] changed] rest Hraw _ IH]; intros g cooked Hwf Hcooked Hb.
  - exists g, cooked. split; [reflexivity|exact Hb].
  - cbn [debounce_run]. cbn [fst snd] in Hraw.
    destruct (debounce_spec cfg cfg_ok now raw cooked n changed g Hwf Hraw Hcooked)
      as (_ & g1 & cooked1 & _ & Hrun & _ & _ & _ & Hwf1 & Hlen1 & _).
    pose proof (debounce_counters_bounded now raw cooked n changed g Hwf Hraw Hcooked
                  Hb g1 cooked1 Hrun) as Hb1.
    rewrite Hrun. cbn [mbind option_bind]. apply IH; assumption.
Qed.

End Bounded.

(** From [debounce_init] on, through any run of calls, no DEBOUNCING key
    has more on its counter than the larger threshold and no QUIESCING key
    more than [DEBOUNCE_QUIESCE]: a pending change is decided, and a
    quiescence is over, within that much measured time. *)
Theorem counters_stay_bounded (cfg : config) (n : nat) (g0 : globals)
    (calls : list (Z * list Z * bool)) (cooked : list Z) :
  config_ok cfg → (n <= 255)%nat → length (down_in_col g0) = MATRIX_COLS cfg →
  length cooked = n → Forall (λ call, length call.1.2 = n) calls →
  ∃ g1 g' cooked',
    debounce_init cfg n g0 = Some g1
    ∧ debounce_run cfg calls cooked n g1 = Some (g', cooked')
    ∧ counters_bounded cfg (keys_of g').
Proof.
  intros Hok Hn Hcols Hcooked Hcalls.
  destruct (run_counters_bounded cfg Hok n calls Hcalls (init_state cfg n g0) cooked)
    as (g' & cooked' & Hrun & Hb).
  - apply init_state_wf; assumption.
  - exact Hcooked.
  - rewrite init_state_keys. apply Forall_replicate. exact I.
  - exists (init_state cfg n g0), g', cooked'.
    split; [apply debounce_init_spec|]. split; assumption.
Qed.

Lemma counters_stay_bounded_witness :
  ∃ g1 g' cooked',
    debounce_init default_config 2 (boot default_config) = Some g1
    ∧ debounce_run default_config
        [(0, [3; 0], true); (5, [3; 3], true); (9, [0; 0], false)] [0; 0] 2 g1
      = Some (g', cooked')
    ∧ counters_bounded default_config (keys_of g').
Proof.
  apply (counters_stay_bounded default_config 2 (boot default_config)
           [(0, [3; 0], true); (5, [3; 3], true); (9, [0; 0], false)] [0; 0]).
  - exact default_config_ok.
  - lia.
  - reflexivity.
  - reflexivity.
  - repeat constructor.
Defined.

(** ** Which key patterns the ghost detector marks *)

Lemma down_count_app (l1 l2 : list Z) (c : nat) :
  down_count (l1 ++ l2) c = down_count l1 c + down_count l2 c.
Proof. unfold down_count. rewrite filter_app, length_app. lia. Qed.

Lemma down_count_cons (row : Z) (l : list Z) (c : nat) :
  down_count (row :: l) c = Z.b2z (Z.testbit row (Z.of_nat c)) + down_count l c.
Proof.
  unfold down_count. destruct (Z.testbit row (Z.of_nat c)) eqn:Hb.
  - rewrite filter_cons_True by assumption. cbn [length Z.b2z]. lia.
  - rewrite filter_cons_False by (rewrite Hb; discriminate). cbn [Z.b2z]. lia.
Qed.

Lemma down_count_nonneg (l : list Z) (c : nat) : 0 <= down_count l c.
Proof. unfold down_count. lia. Qed.

(** The count of a column, split at a row. *)
Lemma down_count_at (raw : list Z) (r : nat) (row : Z) (c : nat) :
  raw !! r = Some row →
  down_count raw c
  = down_count (take r raw) c + Z.b2z (Z.testbit row (Z.of_nat c))
    + down_count (drop (S r) raw) c.
Proof.
  intros Hr. rewrite <- (take_drop_middle raw r row Hr) at 1.
  rewrite down_count_app, down_count_cons. lia.
Qed.

Lemma down_count_clear (l : list Z) (c : nat) :
  Forall (λ row, Z.testbit row (Z.of_nat c) = false) l → down_count l c = 0.
Proof.
  induction 1 as [|row l Hrow _ IH]; [reflexivity|].
  rewrite down_count_cons, Hrow, IH. reflexivity.
Qed.

(** Two rows with the key of a column down make its count at least 2. *)
Lemma down_count_two (raw : list Z) (r1 r2 : nat) (c : nat) :
  (r1 < r2)%nat → (r2 < length raw)%nat →
  bit_at raw r1 c = true → bit_at raw r2 c = true →
  2 <= down_count raw c.
Proof.
  intros Hlt Hlen H1 H2. unfold bit_at in *.
  assert (Hr2 : raw !! r2 = Some (raw !!! r2))
    by (apply list_lookup_lookup_total_lt; lia).
  assert (Hr1 : take r2 raw !! r1 = Some (raw !!! r1)).
  { rewrite lookup_take_lt by lia. apply list_lookup_lookup_total_lt. lia. }
  rewrite (down_count_at raw r2 _ c Hr2), H2.
  rewrite (down_count_at (take r2 raw) r1 _ c Hr1), H1.
  pose proof (down_count_nonneg (take r1 (take r2 raw)) c).
  pose proof (down_count_nonneg (drop (S r1) (take r2 raw)) c).
  pose proof (down_count_nonneg (drop (S r2) raw) c).
  cbn [Z.b2z]. lia.
Qed.

(** With the keys of one row only, no column counts more than 1. *)
Lemma down_count_one_row (raw : list Z) (r0 : nat) (c : nat) :
  (∀ r, r ≠ r0 → (r < length raw)%nat → raw !!! r = 0) →
  down_count raw c <= 1.
Proof.
  intros Hother.
  assert (Hclear : ∀ l : list Z, Forall (λ row, row = 0) l → down_count l c = 0).
  { intros l Hl. apply down_count_clear. eapply Forall_impl; [exact Hl|].
    intros row ->. apply Z.bits_0. }
  destruct (decide (r0 < length raw)%nat) as [Hin|Hout].
  - rewrite (down_count_at raw r0 (raw !!! r0) c)
      by (apply list_lookup_lookup_total_lt; exact Hin).
    rewrite !Hclear.
    + destruct (Z.testbit (raw !!! r0) (Z.of_nat c)); cbn; lia.
    + apply Forall_lookup. intros i x Hi.
      pose proof (lookup_lt_Some _ _ _ Hi) as Hlt. rewrite length_drop in Hlt.
      rewrite lookup_drop in Hi.
      rewrite <- (list_lookup_total_correct _ _ _ Hi). apply Hother; lia.
    + apply Forall_lookup. intros i x Hi.
      pose proof (lookup_lt_Some _ _ _ Hi) as Hlt. rewrite length_take in Hlt.
      rewrite lookup_take_lt in Hi by lia.
      rewrite <- (list_lookup_total_correct _ _ _ Hi). apply Hother; lia.
  - rewrite Hclear; [lia|].
    apply Forall_lookup. intros i x Hi.
    pose proof (lookup_lt_Some _ _ _ Hi) as Hlt.
    rewrite <- (list_lookup_total_correct _ _ _ Hi). apply Hother; lia.
Qed.

Section Patterns.

Variable cfg : config.

(** The ghost query after [ghost_compute], in terms of the raw grid. *)
Lemma ghost_compute_query (raw : list Z) (n : nat) (g : globals) :
  wf cfg n g → length raw = n →
  ∃ g',
    ghost_compute cfg raw n g = Some g'
    ∧ ∀ r c, (r < n)%nat → (c < MATRIX_COLS cfg)%nat →
        multiple_in_row_and_col g' r c
        = Some (negb (flag_of (raw !!! r) =? 0) && (1 <? down_count raw c)).
Proof.
  intros Hwf Hraw.
  destruct (ghost_compute_spec cfg n raw g Hwf Hraw) as (a & Ha & _ & Hrun).
  destruct (wf_ghost_state cfg n g a (flag_of <$> raw)
              (down_count raw <$> seq 0 (MATRIX_COLS cfg)) Hwf Ha)
    as (Hwf' & _ & Hflags).
  { rewrite length_fmap. exact Hraw. }
  { rewrite length_fmap, length_seq. reflexivity. }
  eexists. split; [exact Hrun|]. intros r c Hr Hc.
  rewrite (wf_ghost cfg n _ r c Hwf' Hr Hc). unfold is_ambiguous. rewrite Hflags.
  cbn [down_in_col ghost_state set_flags set_heap set_down_in_col].
  assert (Hf : (flag_of <$> raw) !!! r = flag_of (raw !!! r)).
  { apply list_lookup_total_correct.
    rewrite list_lookup_fmap, (list_lookup_lookup_total_lt raw r) by lia. reflexivity. }
  assert (Hd : (down_count raw <$> seq 0 (MATRIX_COLS cfg)) !!! c = down_count raw c).
  { apply list_lookup_total_correct.
    rewrite list_lookup_fmap, lookup_seq_lt by lia. reflexivity. }
  rewrite Hf, Hd. reflexivity.
Qed.

End Patterns.

(** The ghost pattern is caught.  When the four corners of a rectangle of
    the matrix (two rows, two columns) are down in the raw grid,
    [ghost_compute] marks all four cells. *)
Theorem ghost_rectangle_marked (cfg : config) (raw : list Z) (n : nat)
    (g : globals) (r1 r2 c1 c2 : nat) :
  wf cfg n g → length raw = n → Forall (λ row, 0 <= row) raw →
  (r1 < r2)%nat → (r2 < n)%nat →
  c1 ≠ c2 → (c1 < MATRIX_COLS cfg)%nat → (c2 < MATRIX_COLS cfg)%nat →
  bit_at raw r1 c1 = true → bit_at raw r1 c2 = true →
  bit_at raw r2 c1 = true → bit_at raw r2 c2 = true →
  ∃ g',
    ghost_compute cfg raw n g = Some g'
    ∧ multiple_in_row_and_col g' r1 c1 = Some true
    ∧ multiple_in_row_and_col g' r1 c2 = Some true
    ∧ multiple_in_row_and_col g' r2 c1 = Some true
    ∧ multiple_in_row_and_col g' r2 c2 = Some true.
Proof.
  intros Hwf Hraw Hpos Hr Hr2 Hc Hc1 Hc2 H11 H12 H21 H22.
  destruct (ghost_compute_query cfg raw n g Hwf Hraw) as (g' & Hrun & Hq).
  exists g'. split; [exact Hrun|].
  assert (Hrow : ∀ r, (r < n)%nat → bit_at raw r c1 = true → bit_at raw r c2 = true →
                      negb (flag_of (raw !!! r) =? 0) = true).
  { intros r Hrn Ha Hb. apply negb_true_iff, Z.eqb_neq.
    apply flag_of_two_bits.
    - apply (proj1 (Forall_lookup _ raw) Hpos r).
      apply list_lookup_lookup_total_lt. lia.
    - exists (Z.of_nat c1), (Z.of_nat c2). split; [lia|]. split; assumption. }
  assert (Hcol : ∀ c, bit_at raw r1 c = true → bit_at raw r2 c = true →
                      (1 <? down_count raw c) = true).
  { intros c Ha Hb. apply Z.ltb_lt.
    pose proof (down_count_two raw r1 r2 c Hr ltac:(lia) Ha Hb). lia. }
  rewrite !Hq by lia.
  rewrite !Hrow, !Hcol by (assumption || lia). auto.
Qed.

Lemma ghost_rectangle_marked_witness :
  ∃ g',
    ghost_compute default_config [5; 0; 5] 3
      (init_state default_config 3 (boot default_config)) = Some g'
    ∧ multiple_in_row_and_col g' 0 0 = Some true
    ∧ multiple_in_row_and_col g' 0 2 = Some true
    ∧ multiple_in_row_and_col g' 2 0 = Some true
    ∧ multiple_in_row_and_col g' 2 2 = Some true.
Proof.
  apply (ghost_rectangle_marked default_config [5; 0; 5] 3
           (init_state default_config 3 (boot default_config)) 0 2 0 2).
  - apply default_live. lia.
  - reflexivity.
  - repeat constructor; lia.
  - lia.
  - lia.
  - lia.
  - simpl. lia.
  - simpl. lia.
  - reflexivity.
  - reflexivity.
  - reflexivity.
  - reflexivity.
Defined.

(** Rollover within one row or one column is never blocked.  When all the
    keys that are down lie in one row, or all in one column,
    [ghost_compute] marks no cell, however many keys are down. *)
Theorem one_line_never_marked (cfg : config) (raw : list Z) (n : nat)
    (g : globals) (r0 c0 : nat) :
  wf cfg n g → length raw = n → Forall (λ row, 0 <= row) raw →
  (∀ r, r ≠ r0 → (r < n)%nat → raw !!! r = 0)
  ∨ (∀ r i, (r < n)%nat → Z.testbit (raw !!! r) i = true → i = Z.of_nat c0) →
  ∃ g',
    ghost_compute cfg raw n g = Some g'
    ∧ ∀ r c, (r < n)%nat → (c < MATRIX_COLS cfg)%nat →
        multiple_in_row_and_col g' r c = Some false.
Proof.
  intros Hwf Hraw Hpos Hline.
  destruct (ghost_compute_query cfg raw n g Hwf Hraw) as (g' & Hrun & Hq).
  exists g'. split; [exact Hrun|]. intros r c Hr Hc. rewrite (Hq r c Hr Hc).
  f_equal. destruct Hline as [Hrow|Hcol].
  - apply andb_false_intro2. apply Z.ltb_ge.
    apply (down_count_one_row raw r0 c). intros r' Hne Hlt. apply Hrow; lia.
  - apply andb_false_intro1. apply negb_false_iff, Z.eqb_eq.
    destruct (Z.eq_dec (flag_of (raw !!! r)) 0) as [|Hnz]; [assumption|exfalso].
    apply flag_of_two_bits in Hnz.
    + destruct Hnz as (i & j & Hij & Hi & Hj).
      apply (Hcol r _ Hr) in Hi. apply (Hcol r _ Hr) in Hj. lia.
    + apply (proj1 (Forall_lookup _ raw) Hpos r).
      apply list_lookup_lookup_total_lt. lia.
Qed.

Lemma one_line_never_marked_witness :
  ∃ g',
    ghost_compute default_config [0; 1023; 0] 3
      (init_state default_config 3 (boot default_config)) = Some g'
    ∧ ∀ r c, (r < 3)%nat → (c < MATRIX_COLS default_config)%nat →
        multiple_in_row_and_col g' r c = Some false.
Proof.
  apply (one_line_never_marked default_config [0; 1023; 0] 3
           (init_state default_config 3 (boot default_config)) 1 0).
  - apply default_live. lia.
  - reflexivity.
  - repeat constructor; lia.
  - left. intros [|[|[|r]]] Hne Hr; try reflexivity; [contradiction|lia].
Defined.

(** ** The frame-counting policy *)

Lemma frames_elapsed_trace (cfg : config) (nows : list Z) :
  DEBOUNCE_USE_FRAMES cfg = true →
  ∀ g, elapsed_trace cfg nows g = replicate (length nows) 1.
Proof.
  intros Hframes. induction nows as [|now rest IH]; intros g; [reflexivity|].
  cbn [elapsed_trace length replicate]. unfold get_elapsed. rewrite Hframes.
  rewrite IH. reflexivity.
Qed.

Lemma total_ones (m : nat) : total (replicate m 1) = Z.of_nat m.
Proof.
  induction m as [|m IH]; [reflexivity|].
  change (total (replicate (S m) 1)) with (1 + total (replicate m 1)). lia.
Qed.

(** Under the frame-counting policy time is counted in calls.  A cell at
    rest whose raw bit differs from its cooked bit, not marked as a ghost,
    on a raw grid that stays as it is, with a threshold of [T >= 1]: after
    [T] calls the cooked bit is still the old one, and the call after them
    sets it to the raw bit, whatever the timer reads. *)
Theorem frames_accept_after_threshold_calls (cfg : config) (n : nat) (g : globals)
    (raw cooked : list Z) (r c : nat) (now0 now_last : Z) (nows : list Z) :
  config_ok cfg → DEBOUNCE_USE_FRAMES cfg = true →
  wf cfg n g → length raw = n → length cooked = n →
  (r < n)%nat → (c < MATRIX_COLS cfg)%nat →
  multiple_in_row_and_col g r c = Some false →
  state (key_at cfg g r c) = WAITING →
  bit_at raw r c ≠ bit_at cooked r c →
  Z.of_nat (length (now0 :: nows)) = threshold cfg (bit_at raw r c) →
  ∃ g1 cooked1 g2 cooked2,
    debounce_idle cfg ((λ now, (now, raw)) <$> now0 :: nows) cooked n g
    = Some (g1, cooked1)
    ∧ bit_at cooked1 r c = bit_at cooked r c
    ∧ debounce_idle cfg ((λ now, (now, raw)) <$> now0 :: nows ++ [now_last]) cooked n g
      = Some (g2, cooked2)
    ∧ bit_at cooked2 r c = bit_at raw r c.
Proof.
  intros Hok Hframes Hwf Hraw Hcooked Hr Hc Hghost Hst Hne Hlen.
  destruct (accepted_on_time cfg n g raw cooked r c now0 now_last nows 1 1
              (replicate (length nows) 1))
    as (g1 & cooked1 & g2 & cooked2 & Hrun1 & Hb1 & _ & Hrun2 & Hb2 & _);
    try assumption.
  - rewrite (frames_elapsed_trace cfg _ Hframes).
    cbn [length replicate]. rewrite length_app. cbn [length].
    rewrite replicate_add. reflexivity.
  - rewrite total_ones. cbn [length] in Hlen. lia.
  - exists g1, cooked1, g2, cooked2. auto.
Qed.

Lemma frames_accept_after_threshold_calls_witness :
  let cfg := Config 10 16 16 true 3 3 30 in
  let g := init_state cfg 1 (boot cfg) in
  ∃ g1 cooked1 g2 cooked2,
    debounce_idle cfg ((λ now, (now, [2])) <$> [0; 900; 901]) [0] 1 g
    = Some (g1, cooked1)
    ∧ bit_at cooked1 0 1 = bit_at [0] 0 1
    ∧ debounce_idle cfg ((λ now, (now, [2])) <$> [0; 900; 901; 7]) [0] 1 g
      = Some (g2, cooked2)
    ∧ bit_at cooked2 0 1 = bit_at [2] 0 1.
Proof.
  apply (frames_accept_after_threshold_calls (Config 10 16 16 true 3 3 30) 1
           (init_state (Config 10 16 16 true 3 3 30) 1 (boot (Config 10 16 16 true 3 3 30)))
           [2] [0] 0 1 0 7 [900; 901]).
  - split; simpl; lia.
  - reflexivity.
  - apply init_state_wf; [lia|reflexivity].
  - reflexivity.
  - reflexivity.
  - lia.
  - simpl. lia.
  - reflexivity.
  - reflexivity.
  - discriminate.
  - reflexivity.
Defined.

(** ** The clock of the transition log *)

(** [get_time] measures intervals: the results of two successive calls
    differ, modulo the timer width, by what the timer advanced between
    them, whatever the epoch is; and the epoch, once taken, stays. *)
Theorem get_time_measures_intervals (cfg : config) (s : time_statics)
    (a1 a2 b1 b2 : Z) :
  let r1 := get_time cfg a1 a2 s in
  let r2 := get_time cfg b1 b2 r1.2 in
  wrap (TIMER_BITS cfg) (r2.1 - r1.1) = wrap (TIMER_BITS cfg) (b2 - a2)
  ∧ first_time_initialized r1.2 = true
  ∧ r2.2 = r1.2.
Proof.
  cbv zeta. unfold get_time.
  destruct (first_time_initialized s) eqn:Hs; cbn [negb fst snd first_time
    first_time_initialized]; rewrite ?Hs; cbn [negb first_time];
    (split; [|split; [reflexivity || assumption|destruct s; cbn in *; congruence]]);
    unfold wrap; rewrite <- Zminus_mod; f_equal; lia.
Qed.

(** * The diagnostic variant: the event log *)

Section DebugLog.

Import DebounceDebug.

Variable size : nat.

Lemma ring_length (s : statics) : length (ring s) = length (debounce_event_log s).
Proof.
  unfold ring. rewrite length_app, length_drop, length_take. lia.
Qed.

(** [record_event] on the ring: the oldest entry goes, the event comes in
    as the newest. *)
Lemma record_event_spec (evt : debounce_event_t) (s : statics) :
  log_ok size s →
  ∃ s', record_event size evt s = Some s' ∧ log_ok size s'
        ∧ ring s' = drop 1 (ring s) ++ [evt].
Proof.
  destruct s as [log wpos]. unfold log_ok, record_event, ring. cbn.
  intros (Hlen & Hsize & Hw).
  destruct (decide (0 <= wpos < Z.of_nat (length log))) as [_|Hn]; [|lia].
  eexists. split; [reflexivity|]. cbn.
  assert (Hwl : (Z.to_nat wpos < length log)%nat) by lia.
  destruct (lookup_lt_is_Some_2 log (Z.to_nat wpos) Hwl) as [x Hx].
  rewrite (drop_S log x (Z.to_nat wpos) Hx). cbn. rewrite drop_0.
  destruct (Z.eqb_spec wpos (Z.of_nat size - 1)) as [Hlast|Hnot].
  - split.
    { rewrite length_insert. lia. }
    change (Z.to_nat 0) with O. rewrite drop_0, take_0, app_nil_r.
    rewrite (drop_ge log (S (Z.to_nat wpos))), app_nil_l by lia.
    rewrite insert_take_drop by lia.
    rewrite (drop_ge log (S (Z.to_nat wpos))) by lia. reflexivity.
  - assert (Hu : u16 (wpos + 1) = wpos + 1).
    { unfold u16. apply Z.mod_small. lia. }
    rewrite Hu. split.
    { rewrite length_insert. lia. }
    replace (Z.to_nat (wpos + 1)) with (S (Z.to_nat wpos)) by lia.
    rewrite drop_insert_lt by lia.
    rewrite (take_S_r _ _ evt).
    + rewrite take_insert_ge by lia. rewrite app_assoc. reflexivity.
    + apply list_lookup_insert_eq. lia.
Qed.

Lemma record_events_spec (evts : list debounce_event_t) (s : statics) :
  log_ok size s →
  ∃ s', record_events size evts s = Some s' ∧ log_ok size s'
        ∧ ring s' = drop (length evts) (ring s ++ evts).
Proof.
  revert s. induction evts as [|evt evts IH]; intros s Hs.
  - exists s. cbn. rewrite app_nil_r. auto.
  - destruct (record_event_spec evt s Hs) as (s1 & Hrun1 & Hs1 & Hring1).
    destruct (IH s1 Hs1) as (s' & Hrun & Hs' & Hring).
    exists s'. cbn [record_events]. rewrite Hrun1. cbn [mbind option_bind].
    split; [exact Hrun|]. split; [exact Hs'|].
    rewrite Hring, Hring1.
    assert (Hne : length (ring s) ≠ O).
    { rewrite ring_length. destruct Hs as (-> & ? & _). lia. }
    destruct (ring s) as [|x l]; [done|].
    cbn. rewrite drop_0, <- app_assoc. reflexivity.
Qed.

Lemma record_events_app (es1 es2 : list debounce_event_t) (s : statics) :
  record_events size (es1 ++ es2) s
  = s' ← record_events size es1 s; record_events size es2 s'.
Proof.
  revert s. induction es1 as [|e es1 IH]; intros s; [reflexivity|].
  cbn [app record_events]. destruct (record_event size e s) as [s1|]; [|reflexivity].
  cbn [mbind option_bind]. apply IH.
Qed.

(** ** Printing *)

Lemma print_range_spec (log : list debounce_event_t) (todo i : nat) :
  (i + todo <= length log)%nat →
  print_range todo i log = Some (take todo (drop i log) ≫= print_event).
Proof.
  revert i. induction todo as [|todo IH]; intros i Hi; [reflexivity|].
  assert (Hil : (i < length log)%nat) by lia.
  destruct (lookup_lt_is_Some_2 log i Hil) as [x Hx].
  cbn [print_range]. rewrite Hx. cbn [mbind option_bind].
  rewrite IH by lia. cbn [mbind option_bind].
  rewrite (drop_S log x i Hx). reflexivity.
Qed.

(** [debounce_debug] prints the ring from the oldest entry to the newest. *)
Lemma debug_prints_ring (s : statics) :
  log_ok size s → debounce_debug size s = Some (ring s ≫= print_event).
Proof.
  destruct s as [log wpos]. unfold log_ok, debounce_debug, ring. cbn.
  intros (Hlen & Hsize & Hw).
  rewrite !print_range_spec by lia. cbn [mbind option_bind].
  rewrite drop_0, take_ge by (rewrite length_drop; lia).
  rewrite bind_app. reflexivity.
Qed.

Lemma print_unset (l : list debounce_event_t) :
  Forall (λ e, row e = 255) l → l ≫= print_event = [].
Proof.
  induction 1 as [|e l He _ IH]; [reflexivity|].
  rewrite bind_cons, IH. unfold print_event. rewrite He. reflexivity.
Qed.

Lemma print_set (l : list debounce_event_t) :
  Forall (λ e, row e ≠ 255) l → l ≫= print_event = line_of <$> l.
Proof.
  induction 1 as [|e l He _ IH]; [reflexivity|].
  rewrite bind_cons, IH. unfold print_event.
  destruct (Z.eqb_spec (row e) 255) as [Heq|_]; [contradiction|]. reflexivity.
Qed.

(** ** Initialisation *)

Lemma init_log_spec (todo i : nat) (log : list debounce_event_t) :
  (i + todo <= length log)%nat →
  ∃ log', init_log todo i log = Some log' ∧ length log' = length log
    ∧ ∀ j, log' !! j
           = if decide (i <= j < i + todo)%nat then unset <$> log !! j else log !! j.
Proof.
  revert i log. induction todo as [|todo IH]; intros i log Hi.
  - exists log. split; [reflexivity|]. split; [reflexivity|].
    intros j. destruct (decide _); [lia|reflexivity].
  - assert (Hil : (i < length log)%nat) by lia.
    destruct (lookup_lt_is_Some_2 log i Hil) as [x Hx].
    destruct (IH (S i) (<[i := unset x]> log)) as (log' & Hrun & Hlen & Hlook).
    { rewrite length_insert. lia. }
    exists log'. cbn [init_log]. rewrite Hx. cbn [mbind option_bind].
    split; [exact Hrun|]. split; [rewrite Hlen; apply length_insert|].
    intros j. rewrite Hlook.
    destruct (decide (i = j)) as [<-|Hne].
    + rewrite list_lookup_insert_eq by lia. rewrite Hx.
      destruct (decide (S i <= i < S i + todo)%nat); [lia|].
      destruct (decide (i <= i < i + S todo)%nat); [reflexivity|lia].
    + rewrite list_lookup_insert_ne by exact Hne.
      destruct (decide (S i <= j < S i + todo)%nat),
               (decide (i <= j < i + S todo)%nat); try lia; reflexivity.
Qed.

(** [debounce_init] marks every entry and keeps the write position. *)
Lemma debug_init_log (num_rows : nat) (s : statics) :
  log_ok size s →
  ∃ s', debounce_init size num_rows s = Some s' ∧ log_ok size s'
    ∧ debounce_event_log s' = unset <$> debounce_event_log s
    ∧ debounce_event_log_wpos s' = debounce_event_log_wpos s.
Proof.
  intros (Hlen & Hsize & Hw). unfold debounce_init.
  destruct (init_log_spec size 0 (debounce_event_log s)) as (log' & Hrun & Hlen' & Hlook);
    [lia|].
  rewrite Hrun. cbn [mbind option_bind]. eexists. split; [reflexivity|]. cbn.
  split; [unfold log_ok; cbn; split; [congruence|auto]|].
  split; [|reflexivity].
  apply list_eq. intros j. rewrite Hlook, list_lookup_fmap.
  destruct (decide (0 <= j < 0 + size)%nat) as [_|Hout]; [reflexivity|].
  rewrite lookup_ge_None_2 by lia. reflexivity.
Qed.

Lemma ring_unset (s s' : statics) :
  debounce_event_log s' = unset <$> debounce_event_log s →
  debounce_event_log_wpos s' = debounce_event_log_wpos s →
  Forall (λ e, row e = 255) (ring s').
Proof.
  intros Hlog Hw. unfold ring. rewrite Hlog, Hw.
  apply Forall_app. split; [apply Forall_drop|apply Forall_take];
    apply Forall_fmap, Forall_true; reflexivity.
Qed.

(** After [debounce_init], recorded events that name a row are printed:
    the newest [size] of them, oldest first. *)
Lemma init_record_print (num_rows : nat) (evts : list debounce_event_t) (s : statics) :
  log_ok size s → Forall (λ e, row e ≠ 255) evts →
  ∃ s0 s', debounce_init size num_rows s = Some s0
    ∧ log_ok size s0
    ∧ record_events size evts s0 = Some s'
    ∧ log_ok size s'
    ∧ debounce_debug size s' = Some (line_of <$> drop (length evts - size) evts).
Proof.
  intros Hs Hevts.
  destruct (debug_init_log num_rows s Hs) as (s0 & Hinit & Hs0 & Hlog & Hw).
  destruct (record_events_spec evts s0 Hs0) as (s' & Hrec & Hs' & Hring).
  exists s0, s'. do 4 (split; [assumption|]).
  rewrite (debug_prints_ring s' Hs'), Hring. f_equal.
  pose proof (ring_unset s s0 Hlog Hw) as Hun.
  assert (Hrl : length (ring s0) = size).
  { rewrite ring_length. destruct Hs0 as (-> & _). reflexivity. }
  rewrite drop_app, Hrl, bind_app.
  rewrite print_unset by (apply Forall_drop; exact Hun).
  rewrite app_nil_l. apply print_set. apply Forall_drop. exact Hevts.
Qed.

End DebugLog.

(** * The diagnostic variant: what [debounce] logs *)

Lemma lor_top_bit (j : Z) : 0 <= j <= 127 → Z.land j 128 = 0 ∧ Z.lor j 128 = j + 128.
Proof.
  intros Hj.
  assert (Hbit : Z.testbit j 7 = false).
  { rewrite <- (Z.mod_small j (2 ^ 7)) by lia.
    apply Z.mod_pow2_bits_high. lia. }
  assert (Hland : Z.land j 128 = 0).
  { change 128 with (2 ^ 7). rewrite land_pow2 by lia. rewrite Hbit. reflexivity. }
  split; [exact Hland|].
  rewrite <- Z.lxor_lor by exact Hland. symmetry.
  apply Z.add_nocarry_lxor. exact Hland.
Qed.

Lemma land_low_bits (j : Z) : 0 <= j <= 127 → Z.land j 127 = j.
Proof.
  intros Hj. change 127 with (Z.ones 7). rewrite Z.land_ones by lia.
  apply Z.mod_small. lia.
Qed.

Section DebugEvents.

Import DebounceDebug.

(** The event of a cell decodes to the line of the cell: the column fits
    below the top bit, the row is not the marker of an unset entry. *)
Lemma line_of_event (t : Z) (raw : list Z) (cell : nat * nat) :
  (cell.1 <= 254)%nat → (cell.2 <= 127)%nat →
  row (event_of t raw cell) ≠ 255
  ∧ line_of (event_of t raw cell) = line_at t raw cell.
Proof.
  intros Hr Hc. unfold event_of, line_of, line_at. cbn [now row col].
  split; [lia|].
  destruct (lor_top_bit (Z.of_nat cell.2)) as [Hland Hlor]; [lia|].
  pose proof (land_low_bits (Z.of_nat cell.2)) as Hlow.
  destruct (bit_at raw cell.1 cell.2).
  - rewrite !Z.land_lor_distr_l, Hlow, Hland by lia.
    change (Z.land 128 127) with 0. change (Z.land 128 128) with 128.
    rewrite Z.lor_0_r. reflexivity.
  - rewrite Z.lor_0_r, Hlow, Hland by lia. reflexivity.
Qed.

Lemma event_byte (j : nat) (b : bool) :
  (j <= 127)%nat →
  u8 (Z.lor (Z.of_nat j) (if b then 128 else 0))
  = Z.lor (Z.of_nat j) (if b then 128 else 0).
Proof.
  intros Hj. apply u8_small. destruct b.
  - destruct (lor_top_bit (Z.of_nat j)) as [_ ->]; lia.
  - rewrite Z.lor_0_r. lia.
Qed.

Variable cfg : config.
Variable size : nat.

(** The column loop of one row records the changed cells of the row, from
    the lowest column up. *)
Lemma debug_cols_spec (t : Z) (i : nat) (raw cooked : list Z) (raw_i cooked_i : Z) :
  raw !! i = Some raw_i → cooked !! i = Some cooked_i → (i <= 255)%nat →
  ∀ (todo j : nat) (col_mask : Z) (s : statics),
    (j + todo <= 128)%nat → Z.of_nat (j + todo) <= ROW_BITS cfg →
    (todo ≠ O → col_mask = 2 ^ Z.of_nat j) →
    debounce_cols cfg size t i raw_i (Z.lxor raw_i cooked_i) todo j col_mask s
    = record_events size
        (event_of t raw
           <$> filter (changed_cell raw cooked) ((λ c, (i, c)) <$> seq j todo)) s.
Proof.
  intros Hraw Hcooked Hi.
  induction todo as [|todo IH]; intros j col_mask s Hj Hfit Hmask; [reflexivity|].
  rewrite (Hmask ltac:(lia)).
  cbn [debounce_cols seq fmap list_fmap]. rewrite filter_cons.
  rewrite land_pow2_eqb, Z.lxor_spec by lia.
  rewrite Z.land_comm, land_pow2_eqb by lia.
  assert (Hbr : bit_at raw i j = Z.testbit raw_i (Z.of_nat j)).
  { unfold bit_at. rewrite (list_lookup_total_correct _ _ _ Hraw). reflexivity. }
  assert (Hbc : bit_at cooked i j = Z.testbit cooked_i (Z.of_nat j)).
  { unfold bit_at. rewrite (list_lookup_total_correct _ _ _ Hcooked). reflexivity. }
  assert (Hnext : todo ≠ O →
            wrap (ROW_BITS cfg) (Z.shiftl (2 ^ Z.of_nat j) 1) = 2 ^ Z.of_nat (S j)).
  { intros Hne. unfold wrap. rewrite Z.shiftl_mul_pow2 by lia.
    rewrite <- Z.pow_add_r by lia.
    replace (Z.of_nat j + 1) with (Z.of_nat (S j)) by lia.
    apply Z.mod_small. split; [apply Z.pow_nonneg; lia|].
    apply Z.pow_lt_mono_r; lia. }
  destruct (decide (changed_cell raw cooked (i, j))) as [Hch|Hsame];
    unfold changed_cell in *; cbn [fst snd] in *; rewrite Hbr, Hbc in *.
  - rewrite xorb_differ by exact Hch. cbn [negb fmap list_fmap record_events].
    assert (Hevt : Event t (u8 (Z.of_nat i))
                     (u8 (Z.lor (Z.of_nat j)
                            (if negb (Z.testbit raw_i (Z.of_nat j)) then 0 else 128)))
                   = event_of t raw (i, j)).
    { unfold event_of. cbn [fst snd]. rewrite Hbr, u8_small by lia.
      replace (if negb (Z.testbit raw_i (Z.of_nat j)) then 0 else 128)
        with (if Z.testbit raw_i (Z.of_nat j) then 128 else 0)
        by (destruct (Z.testbit raw_i (Z.of_nat j)); reflexivity).
      rewrite event_byte by lia. reflexivity. }
    rewrite Hevt.
    destruct (record_event size (event_of t raw (i, j)) s) as [s1|]; [|reflexivity].
    cbn [mbind option_bind]. apply IH; [lia|lia|exact Hnext].
  - assert (Heq : xorb (Z.testbit raw_i (Z.of_nat j)) (Z.testbit cooked_i (Z.of_nat j))
                  = false).
    { destruct (Z.testbit raw_i (Z.of_nat j)), (Z.testbit cooked_i (Z.of_nat j));
        try reflexivity; exfalso; apply Hsame; discriminate. }
    rewrite Heq. cbn [negb mbind option_bind]. apply IH; [lia|lia|exact Hnext].
Qed.

(** The row loop records the changed cells row by row and copies each raw
    row to the cooked grid. *)
Lemma debug_rows_spec (t : Z) (raw cooked0 : list Z) :
  (MATRIX_COLS cfg <= 127)%nat → Z.of_nat (MATRIX_COLS cfg) <= ROW_BITS cfg →
  ∀ (todo i : nat) (s : statics) (cooked : list Z),
    (i + todo <= length raw)%nat → (i + todo <= length cooked0)%nat →
    (i + todo <= 255)%nat → length cooked = length cooked0 →
    (∀ r, (i <= r)%nat → cooked !! r = cooked0 !! r) →
    DebounceDebug.debounce_rows cfg size t raw todo i s cooked
    = s' ← record_events size
             (event_of t raw
                <$> filter (changed_cell raw cooked0) (cells i todo (MATRIX_COLS cfg))) s;
      Some (s', take i cooked ++ take todo (drop i raw) ++ drop (i + todo)%nat cooked0).
Proof.
  intros Hcols Hfit.
  induction todo as [|todo IH]; intros i s cooked Hraw Hc0 Hrows Hlen Hsame.
  - cbn [DebounceDebug.debounce_rows record_events fmap list_fmap mbind option_bind
          cells seq].
    unfold cells. cbn. rewrite Nat.add_0_r, take_0, app_nil_l.
    rewrite <- (take_drop i cooked) at 1. do 3 f_equal.
    apply list_eq. intros r. rewrite !lookup_drop. apply Hsame. lia.
  - assert (Hir : (i < length raw)%nat) by lia.
    assert (Hic : (i < length cooked)%nat) by lia.
    destruct (lookup_lt_is_Some_2 raw i Hir) as [raw_i Hri].
    destruct (lookup_lt_is_Some_2 cooked i Hic) as [cooked_i Hci].
    cbn [DebounceDebug.debounce_rows]. rewrite Hri, Hci. cbn [mbind option_bind].
    assert (Hc0i : cooked0 !! i = Some cooked_i) by (rewrite <- Hsame by lia; exact Hci).
    rewrite (debug_cols_spec t i raw cooked0 raw_i cooked_i Hri Hc0i)
      by (try lia; reflexivity).
    assert (Hcells : cells i (S todo) (MATRIX_COLS cfg)
                     = ((λ c, (i, c)) <$> seq 0 (MATRIX_COLS cfg))
                       ++ cells (S i) todo (MATRIX_COLS cfg)).
    { unfold cells. cbn [seq]. rewrite bind_cons. reflexivity. }
    rewrite Hcells, filter_app, fmap_app, record_events_app.
    destruct (record_events size _ s) as [s1|]; [|reflexivity].
    cbn [mbind option_bind].
    rewrite IH; try lia.
    + destruct (record_events size _ s1) as [s2|]; [|reflexivity].
      cbn [mbind option_bind]. do 2 f_equal.
      rewrite (take_S_r _ _ raw_i) by (apply list_lookup_insert_eq; lia).
      rewrite take_insert_ge by lia.
      rewrite (drop_S raw raw_i i Hri). cbn [take].
      replace (S i + todo)%nat with (i + S todo)%nat by lia.
      rewrite <- app_assoc. reflexivity.
    + rewrite length_insert. exact Hlen.
    + intros r Hr. rewrite list_lookup_insert_ne by lia. apply Hsame. lia.
Qed.

(** A call with [changed] set records the changed cells in row-major
    order and returns the raw grid as the cooked grid. *)
Lemma debug_records (t : Z) (raw cooked : list Z) (n : nat) (s : statics) :
  (MATRIX_COLS cfg <= 127)%nat → Z.of_nat (MATRIX_COLS cfg) <= ROW_BITS cfg →
  (n <= 255)%nat → length raw = n → length cooked = n →
  DebounceDebug.debounce cfg size t raw cooked n true s
  = s' ← record_events size
           (event_of t raw <$> changes raw cooked n (MATRIX_COLS cfg)) s;
    Some (s', raw).
Proof.
  intros Hcols Hfit Hn Hraw Hcooked. unfold DebounceDebug.debounce. cbn [negb].
  rewrite (debug_rows_spec t raw cooked Hcols Hfit) by (try lia; reflexivity).
  unfold changes. destruct (record_events size _ s) as [s'|]; [|reflexivity].
  cbn [mbind option_bind]. do 2 f_equal.
  rewrite take_0, drop_0, app_nil_l, take_ge, drop_ge, app_nil_r by lia.
  reflexivity.
Qed.

Lemma cells_rows (i todo cols : nat) :
  Forall (λ cell, (cell.1 < i + todo)%nat ∧ (cell.2 < cols)%nat) (cells i todo cols).
Proof.
  apply Forall_forall. intros [r c] Hin. unfold cells in Hin.
  apply list_elem_of_bind in Hin as (r' & Hin & Hr').
  apply list_elem_of_fmap in Hin as (c' & Heq & Hc').
  apply elem_of_seq in Hr'. apply elem_of_seq in Hc'.
  injection Heq as -> ->. cbn. lia.
Qed.

Lemma changes_events (t : Z) (raw cooked : list Z) (n : nat) :
  (MATRIX_COLS cfg <= 127)%nat → (n <= 255)%nat →
  Forall (λ e, row e ≠ 255) (event_of t raw <$> changes raw cooked n (MATRIX_COLS cfg))
  ∧ line_of <$> (event_of t raw <$> changes raw cooked n (MATRIX_COLS cfg))
    = line_at t raw <$> changes raw cooked n (MATRIX_COLS cfg).
Proof.
  intros Hcols Hn.
  assert (Hall : Forall (λ cell, (cell.1 <= 254)%nat ∧ (cell.2 <= 127)%nat)
                   (changes raw cooked n (MATRIX_COLS cfg))).
  { apply Forall_forall. intros cell Hin. unfold changes in Hin.
    apply list_elem_of_filter in Hin as [_ Hin].
    pose proof (cells_rows O n (MATRIX_COLS cfg)) as Hcells.
    rewrite Forall_forall in Hcells. specialize (Hcells cell Hin). cbn in Hcells. lia. }
  induction Hall as [|cell l [Hr Hc] _ [IH1 IH2]]; [split; [constructor|reflexivity]|].
  destruct (line_of_event t raw cell Hr Hc) as [Hrow Hline].
  split.
  - cbn. constructor; assumption.
  - cbn. cbn in IH2. rewrite IH2, Hline. reflexivity.
Qed.

(** A run of calls records one list of events, whatever the log holds:
    the events of the changes that the calls see. *)
Lemma debug_run_records (n : nat) (calls : list (Z * list Z * bool)) :
  (MATRIX_COLS cfg <= 127)%nat → Z.of_nat (MATRIX_COLS cfg) <= ROW_BITS cfg →
  (n <= 255)%nat → Forall (λ call, length call.1.2 = n) calls →
  ∀ cooked, length cooked = n →
  ∃ evts cooked',
    Forall (λ e, row e ≠ 255) evts
    ∧ line_of <$> evts = change_log (MATRIX_COLS cfg) n calls cooked
    ∧ length cooked' = n
    ∧ ∀ s, DebounceDebug.debounce_run cfg size calls cooked n s
           = s' ← record_events size evts s; Some (s', cooked').
Proof.
  intros Hcols Hfit Hn Hcalls.
  induction Hcalls as [|[[t raw] changed] calls Hraw _ IH]; intros cooked Hcooked.
  - exists [], cooked. repeat split; [constructor|exact Hcooked].
  - cbn [fst snd] in Hraw. destruct changed.
    + destruct (IH raw Hraw) as (evts & cooked' & Hrows & Hlines & Hlen & Hrun).
      destruct (changes_events t raw cooked n Hcols Hn) as [Hrows1 Hlines1].
      exists ((event_of t raw <$> changes raw cooked n (MATRIX_COLS cfg)) ++ evts), cooked'.
      split; [apply Forall_app; split; assumption|].
      split; [cbn [change_log]; rewrite fmap_app, Hlines1, Hlines; reflexivity|].
      split; [exact Hlen|].
      intros s. cbn [DebounceDebug.debounce_run].
      rewrite (debug_records t raw cooked n s Hcols Hfit Hn Hraw Hcooked).
      rewrite record_events_app.
      destruct (record_events size _ s) as [s1|]; [|reflexivity].
      cbn [mbind option_bind]. apply Hrun.
    + destruct (IH cooked Hcooked) as (evts & cooked' & Hrows & Hlines & Hlen & Hrun).
      exists evts, cooked'. split; [exact Hrows|]. split; [exact Hlines|].
      split; [exact Hlen|]. intros s. cbn [DebounceDebug.debounce_run].
      unfold DebounceDebug.debounce at 1. cbn [negb mbind option_bind]. apply Hrun.
Qed.

End DebugEvents.

(** ** The log as a ring buffer *)

(** [record_event] on a log in use always lands inside the array and moves
    the write position on by one, back to the start at the end of the
    array.  Read from the write position round, the log loses its oldest
    entry and gains the event as its newest. *)
Theorem debug_record_event_ring (size : nat) (evt : DebounceDebug.debounce_event_t)
    (s : DebounceDebug.statics) :
  DebounceDebug.log_ok size s →
  ∃ s', DebounceDebug.record_event size evt s = Some s'
    ∧ DebounceDebug.log_ok size s'
    ∧ DebounceDebug.debounce_event_log_wpos s'
      = (DebounceDebug.debounce_event_log_wpos s + 1) mod Z.of_nat size
    ∧ DebounceDebug.ring s' = drop 1 (DebounceDebug.ring s) ++ [evt].
Proof.
  intros Hs.
  destruct (record_event_spec size evt s Hs) as (s' & Hrun & Hs' & Hring).
  exists s'. split; [exact Hrun|]. split; [exact Hs'|]. split; [|exact Hring].
  destruct Hs as (Hlen & Hsize & Hw).
  unfold DebounceDebug.record_event in Hrun.
  destruct (decide _) as [_|Hout] in Hrun; [|discriminate].
  injection Hrun as <-. cbn [DebounceDebug.debounce_event_log_wpos].
  destruct (Z.eqb_spec (DebounceDebug.debounce_event_log_wpos s) (Z.of_nat size - 1))
    as [Hlast|Hnot].
  - rewrite Hlast. replace (Z.of_nat size - 1 + 1) with (Z.of_nat size) by lia.
    symmetry. apply Z.mod_same. lia.
  - unfold DebounceDebug.u16. rewrite !Z.mod_small by lia. reflexivity.
Qed.

Lemma debug_record_event_ring_witness :
  let e := DebounceDebug.Event in
  let s := DebounceDebug.Statics [e 1 0 0; e 2 0 1; e 3 0 2] 2 in
  ∃ s', DebounceDebug.record_event 3 (e 9 1 130) s = Some s'
    ∧ DebounceDebug.log_ok 3 s'
    ∧ DebounceDebug.debounce_event_log_wpos s'
      = (DebounceDebug.debounce_event_log_wpos s + 1) mod Z.of_nat 3
    ∧ DebounceDebug.ring s' = drop 1 (DebounceDebug.ring s) ++ [e 9 1 130].
Proof.
  apply (debug_record_event_ring 3 (DebounceDebug.Event 9 1 130)
           (DebounceDebug.Statics
              [DebounceDebug.Event 1 0 0; DebounceDebug.Event 2 0 1;
               DebounceDebug.Event 3 0 2] 2)).
  unfold DebounceDebug.log_ok. cbn. lia.
Defined.

(** After [debounce_init], whatever the log held and wherever its write
    position was, [debounce_debug] prints the events recorded since, if
    they name a row: the newest [DEBOUNCE_DEBUG_LOG_SIZE] of them, oldest
    first, and nothing else. *)
Theorem debug_prints_latest_events (size num_rows : nat)
    (evts : list DebounceDebug.debounce_event_t) (s : DebounceDebug.statics) :
  DebounceDebug.log_ok size s →
  Forall (λ e, DebounceDebug.row e ≠ 255) evts →
  ∃ s0 s', DebounceDebug.debounce_init size num_rows s = Some s0
    ∧ DebounceDebug.record_events size evts s0 = Some s'
    ∧ DebounceDebug.debounce_debug size s'
      = Some (DebounceDebug.line_of <$> drop (length evts - size) evts).
Proof.
  intros Hs Hevts.
  destruct (init_record_print size num_rows evts s Hs Hevts)
    as (s0 & s' & Hinit & _ & Hrec & _ & Hprint).
  exists s0, s'. auto.
Qed.

Lemma debug_prints_latest_events_witness :
  let e := DebounceDebug.Event in
  ∃ s0 s',
    DebounceDebug.debounce_init 2 4 (DebounceDebug.Statics [e 1 0 0; e 2 0 1] 1) = Some s0
    ∧ DebounceDebug.record_events 2 [e 7 0 128; e 8 1 129; e 9 0 0] s0 = Some s'
    ∧ DebounceDebug.debounce_debug 2 s'
      = Some (DebounceDebug.line_of
                <$> drop (length [e 7 0 128; e 8 1 129; e 9 0 0] - 2)
                      [e 7 0 128; e 8 1 129; e 9 0 0]).
Proof.
  apply (debug_prints_latest_events 2 4
           [DebounceDebug.Event 7 0 128; DebounceDebug.Event 8 1 129;
            DebounceDebug.Event 9 0 0]
           (DebounceDebug.Statics [DebounceDebug.Event 1 0 0; DebounceDebug.Event 2 0 1] 1)).
  - unfold DebounceDebug.log_ok. cbn. lia.
  - repeat constructor; cbn; lia.
Defined.

(** ** What a call logs *)

(** With [changed] set, the diagnostic [debounce] hands the raw grid back
    as the cooked grid, so it debounces nothing, and records one event for
    each cell whose raw bit differs from its cooked bit, in row-major
    order, with the time of the call, the cell and the raw bit. *)
Theorem debug_debounce_records_changes (cfg : config) (size : nat) (t : Z)
    (raw cooked : list Z) (n : nat) (s : DebounceDebug.statics) :
  (MATRIX_COLS cfg <= 127)%nat → Z.of_nat (MATRIX_COLS cfg) <= ROW_BITS cfg →
  (n <= 255)%nat → length raw = n → length cooked = n →
  DebounceDebug.log_ok size s →
  let evts := DebounceDebug.event_of t raw
                <$> DebounceDebug.changes raw cooked n (MATRIX_COLS cfg) in
  ∃ s', DebounceDebug.debounce cfg size t raw cooked n true s = Some (s', raw)
    ∧ DebounceDebug.log_ok size s'
    ∧ DebounceDebug.ring s' = drop (length evts) (DebounceDebug.ring s ++ evts).
Proof.
  intros Hcols Hfit Hn Hraw Hcooked Hs evts.
  destruct (record_events_spec size evts s Hs) as (s' & Hrec & Hs' & Hring).
  exists s'. split; [|split; assumption].
  rewrite (debug_records cfg size t raw cooked n s Hcols Hfit Hn Hraw Hcooked).
  fold evts. rewrite Hrec. reflexivity.
Qed.

Lemma debug_debounce_records_changes_witness :
  let e := DebounceDebug.Event in
  let s := DebounceDebug.Statics [e 1 0 0; e 2 0 1; e 3 0 2; e 4 0 3] 3 in
  let evts := DebounceDebug.event_of 77 [5; 2]
                <$> DebounceDebug.changes [5; 2] [4; 3] 2 (MATRIX_COLS default_config) in
  ∃ s', DebounceDebug.debounce default_config 4 77 [5; 2] [4; 3] 2 true s = Some (s', [5; 2])
    ∧ DebounceDebug.log_ok 4 s'
    ∧ DebounceDebug.ring s' = drop (length evts) (DebounceDebug.ring s ++ evts).
Proof.
  apply (debug_debounce_records_changes default_config 4 77 [5; 2] [4; 3] 2
           (DebounceDebug.Statics
              [DebounceDebug.Event 1 0 0; DebounceDebug.Event 2 0 1;
               DebounceDebug.Event 3 0 2; DebounceDebug.Event 4 0 3] 3)).
  - cbn. lia.
  - cbn. lia.
  - lia.
  - reflexivity.
  - reflexivity.
  - unfold DebounceDebug.log_ok. cbn. lia.
Defined.

(** The event of a cell carries the raw bit in the top bit of its column
    byte.  With at most 127 columns and 254 rows, the limits that debug.c
    checks, [print_event] gets the cell and the direction back and never
    takes the entry for an unset one. *)
Theorem debug_event_round_trip (t : Z) (raw : list Z) (cell : nat * nat) :
  (cell.1 <= 254)%nat → (cell.2 <= 127)%nat →
  DebounceDebug.print_event (DebounceDebug.event_of t raw cell)
  = [DebounceDebug.line_at t raw cell].
Proof.
  intros Hr Hc. destruct (line_of_event t raw cell Hr Hc) as [Hrow Hline].
  unfold DebounceDebug.print_event.
  destruct (Z.eqb_spec (DebounceDebug.row (DebounceDebug.event_of t raw cell)) 255)
    as [Heq|_]; [contradiction|].
  exact (f_equal (λ l, [l]) Hline).
Qed.

Lemma debug_event_round_trip_witness :
  DebounceDebug.print_event (DebounceDebug.event_of 1234 [0; 512] (1%nat, 9%nat))
  = [DebounceDebug.line_at 1234 [0; 512] (1%nat, 9%nat)].
Proof.
  apply (debug_event_round_trip 1234 [0; 512] (1%nat, 9%nat)); cbn; lia.
Defined.

(** ** From the calls to the printout *)

(** After [debounce_init], a run of [debounce] calls and then
    [debounce_debug] prints the changes that the calls saw, each with its
    time, row, column and direction: the newest [DEBOUNCE_DEBUG_LOG_SIZE]
    of them, oldest first.  A call sees the difference to the raw grid of
    the last call that had [changed] set; a call without [changed] logs
    nothing and changes nothing. *)
Theorem debug_run_prints_recent_changes (cfg : config) (size n : nat)
    (calls : list (Z * list Z * bool)) (cooked : list Z) (s : DebounceDebug.statics) :
  (MATRIX_COLS cfg <= 127)%nat → Z.of_nat (MATRIX_COLS cfg) <= ROW_BITS cfg →
  (n <= 255)%nat → Forall (λ call, length call.1.2 = n) calls → length cooked = n →
  DebounceDebug.log_ok size s →
  let lines := DebounceDebug.change_log (MATRIX_COLS cfg) n calls cooked in
  ∃ s0 s' cooked',
    DebounceDebug.debounce_init size n s = Some s0
    ∧ DebounceDebug.debounce_run cfg size calls cooked n s0 = Some (s', cooked')
    ∧ length cooked' = n
    ∧ DebounceDebug.debounce_debug size s' = Some (drop (length lines - size) lines).
Proof.
  intros Hcols Hfit Hn Hcalls Hcooked Hs lines.
  destruct (debug_run_records cfg size n calls Hcols Hfit Hn Hcalls cooked Hcooked)
    as (evts & cooked' & Hrows & Hlines & Hlen & Hrun).
  destruct (init_record_print size n evts s Hs Hrows)
    as (s0 & s' & Hinit & _ & Hrec & _ & Hprint).
  exists s0, s', cooked'. split; [exact Hinit|].
  split; [rewrite Hrun, Hrec; reflexivity|]. split; [exact Hlen|].
  rewrite Hprint. unfold lines. rewrite <- Hlines, fmap_drop, length_fmap. reflexivity.
Qed.

Lemma debug_run_prints_recent_changes_witness :
  let e := DebounceDebug.Event in
  let calls := [(5, [3], true); (6, [2], false); (9, [1], true)] in
  let lines := DebounceDebug.change_log (MATRIX_COLS default_config) 1 calls [0] in
  ∃ s0 s' cooked',
    DebounceDebug.debounce_init 2 1 (DebounceDebug.Statics [e 1 0 0; e 2 0 1] 1) = Some s0
    ∧ DebounceDebug.debounce_run default_config 2 calls [0] 1 s0 = Some (s', cooked')
    ∧ length cooked' = 1%nat
    ∧ DebounceDebug.debounce_debug 2 s' = Some (drop (length lines - 2) lines).
Proof.
  apply (debug_run_prints_recent_changes default_config 2 1
           [(5, [3], true); (6, [2], false); (9, [1], true)] [0]
           (DebounceDebug.Statics [DebounceDebug.Event 1 0 0; DebounceDebug.Event 2 0 1] 1)).
  - cbn. lia.
  - cbn. lia.
  - lia.
  - repeat constructor.
  - reflexivity.
  - unfold DebounceDebug.log_ok. cbn. lia.
Defined.

(** * The Sculpt row scan *)

Lemma sculpt_port_bits (PINA PINF c : Z) :
  0 <= c →
  Z.testbit (Z.lor (Z.land PINA 31) (Z.land PINF 224)) c
  = Sculpt.col_pin_high PINA PINF c.
Proof.
  intros Hc. rewrite Z.lor_spec, !Z.land_spec. unfold Sculpt.col_pin_high.
  change 31 with (Z.ones 5). change 224 with (Z.shiftl (Z.ones 3) 5).
  rewrite Z.shiftl_spec by lia.
  destruct (Z.ltb_spec c 5) as [H5|H5].
  - rewrite Z.ones_spec_low by lia. rewrite (Z.testbit_neg_r _ (c - 5)) by lia.
    rewrite andb_true_r, andb_false_r, orb_false_r. reflexivity.
  - rewrite Z.ones_spec_high by lia. rewrite andb_false_r. cbn [orb].
    destruct (Z.ltb_spec c 8) as [H8|H8].
    + rewrite Z.ones_spec_low by lia. apply andb_true_r.
    + rewrite Z.ones_spec_high by lia. apply andb_false_r.
Qed.

(** One call of the row scan.  It writes no row of the matrix but
    [current_row].  A row whose pin is [NO_PIN] is skipped: no pin is
    driven, no delay is taken and the matrix stays as it is.  A row with a
    pin is read active-low: bit [c] of the stored word, for every column
    that [matrix_row_t] holds, is set exactly when the port bit of column
    [c] reads low, so a column beyond the eight pins reads as pressed; the
    row pin is driven low before the select delay and released before the
    unselect delay, which is told whether the word is nonzero. *)
Theorem sculpt_row_scan (cfg : config) (row_pins : list Z) (NO_PIN : Z)
    (PINA PINF : Z) (current_matrix : list Z) (current_row : nat) (pin : Z) :
  0 <= ROW_BITS cfg →
  row_pins !! current_row = Some pin →
  (current_row < length current_matrix)%nat →
  ∃ matrix' out,
    Sculpt.matrix_read_cols_on_row cfg row_pins NO_PIN PINA PINF current_matrix current_row
    = Some (matrix', out)
    ∧ length matrix' = length current_matrix
    ∧ (∀ r, r ≠ current_row → matrix' !! r = current_matrix !! r)
    ∧ (pin = NO_PIN → matrix' = current_matrix ∧ out = [])
    ∧ (pin ≠ NO_PIN →
         (∀ c, 0 <= c < ROW_BITS cfg →
            Z.testbit (matrix' !!! current_row) c
            = negb (Sculpt.col_pin_high PINA PINF c))
         ∧ out = [Sculpt.SetPinOutput pin; Sculpt.WritePinLow pin;
                  Sculpt.OutputSelectDelay; Sculpt.SetPinInputHigh pin;
                  Sculpt.OutputUnselectDelay (Z.of_nat current_row)
                    (negb (matrix' !!! current_row =? 0))]).
Proof.
  intros Hbits Hpin Hrow.
  unfold Sculpt.matrix_read_cols_on_row, Sculpt.select_row, Sculpt.unselect_row.
  rewrite Hpin. cbn [mbind option_bind].
  destruct (Z.eqb_spec pin NO_PIN) as [Heq|Hne].
  - cbn [negb mbind option_bind]. exists current_matrix, [].
    split; [reflexivity|]. split; [reflexivity|]. split; [reflexivity|].
    split; [auto|]. intros Hne. contradiction.
  - cbn [negb mbind option_bind].
    destruct (decide (current_row < length current_matrix)%nat) as [_|Hn]; [|lia].
    eexists _, _. split; [reflexivity|].
    split; [apply length_insert|].
    split; [intros r Hr; apply list_lookup_insert_ne; congruence|].
    split; [intros Heq; contradiction|]. intros _.
    rewrite list_lookup_total_insert_eq by exact Hrow.
    split; [|reflexivity].
    intros c Hc. unfold wrap.
    rewrite Z.mod_pow2_bits_low, Z.lnot_spec, sculpt_port_bits by lia.
    reflexivity.
Qed.

Lemma sculpt_row_scan_witness :
  ∃ matrix' out,
    Sculpt.matrix_read_cols_on_row (Config 8 8 16 false 5 5 30) [3; -1; 4] (-1)
      29 224 [0; 9; 0] 2
    = Some (matrix', out)
    ∧ length matrix' = length [0; 9; 0]
    ∧ (∀ r, r ≠ 2%nat → matrix' !! r = [0; 9; 0] !! r)
    ∧ (4 = -1 → matrix' = [0; 9; 0] ∧ out = [])
    ∧ (4 ≠ -1 →
         (∀ c, 0 <= c < ROW_BITS (Config 8 8 16 false 5 5 30) →
            Z.testbit (matrix' !!! 2%nat) c = negb (Sculpt.col_pin_high 29 224 c))
         ∧ out = [Sculpt.SetPinOutput 4; Sculpt.WritePinLow 4;
                  Sculpt.OutputSelectDelay; Sculpt.SetPinInputHigh 4;
                  Sculpt.OutputUnselectDelay (Z.of_nat 2)
                    (negb (matrix' !!! 2%nat =? 0))]).
Proof.
  apply (sculpt_row_scan (Config 8 8 16 false 5 5 30) [3; -1; 4] (-1) 29 224
           [0; 9; 0] 2 4).
  - cbn. lia.
  - reflexivity.
  - cbn. lia.
Defined.
